(** * DDGI probe volume: addressing and irradiance sampling

    A shallow embedding of the shader header that addresses and samples the
    Dynamic Diffuse Global Illumination probe volume (GetDDGIProbeIndex ...
    SampleDDGIIrradiance), together with the properties its design document
    states about it.

    Conventions of the embedding.
    - [uint] values are integers in [0, 2^32); every unsigned operation
      writes its wrap-around out ([to_uint]).  [int] values converted to
      [uint] are reduced modulo 2^32, as the shading language does.
    - [float] values are modelled by exact real numbers: rounding, infinities
      and NaN are outside the model.  Every statement below about a [float]
      result is a statement about the exact value of the expression the
      shader evaluates.
    - A texture is a pair of read functions (texel load and filtered sample);
      how the filtered sample depends on the texels is not modelled. *)

From Stdlib Require Import ZArith List Lia Bool.
From Stdlib Require Import Reals Lra Psatz.
From Stdlib Require Import Reals.Zfloor.
Import ListNotations.

(** ** Unsigned 32-bit arithmetic *)

Module UInt.
Local Open Scope Z_scope.

Definition modulus : Z := 4294967296.
Definition max_value : Z := 4294967295.

(** Conversion to [uint]: reduction modulo 2^32 (also the conversion of a
    signed [int] operand in a mixed expression). *)
Definition to_uint (a : Z) : Z := a mod modulus.

Definition add (a b : Z) : Z := to_uint (a + b).
Definition sub (a b : Z) : Z := to_uint (a - b).
Definition mul (a b : Z) : Z := to_uint (a * b).

(** Unsigned division and remainder; a zero divisor yields 0xFFFFFFFF, the
    result the Direct3D [udiv] instruction defines for it. *)
Definition div (a b : Z) : Z := if b =? 0 then max_value else a / b.
Definition rem (a b : Z) : Z := if b =? 0 then max_value else a mod b.

Definition shr (a n : Z) : Z := Z.shiftr a n.
Definition and (a b : Z) : Z := Z.land a b.

(** [clamp(x, lo, hi)] is [min(max(x, lo), hi)]. *)
Definition clamp (a lo hi : Z) : Z := Z.min (Z.max a lo) hi.

(** Reinterpretation of a [uint] as a signed [int]. *)
Definition to_int (a : Z) : Z := if a <? 2147483648 then a else a - modulus.
End UInt.

(** ** Vectors *)

Record vec2 (A : Type) : Type := Vec2 { px : A; py : A }.
Record vec3 (A : Type) : Type := Vec3 { vx : A; vy : A; vz : A }.
Record vec4 (A : Type) : Type := Vec4 { xyz : vec3 A; w : A }.

Arguments Vec2 {A} _ _.
Arguments px {A} _.
Arguments py {A} _.
Arguments Vec3 {A} _ _ _.
Arguments vx {A} _.
Arguments vy {A} _.
Arguments vz {A} _.
Arguments Vec4 {A} _ _.
Arguments xyz {A} _.
Arguments w {A} _.

Definition map3 {A B : Type} (f : A -> B) (a : vec3 A) : vec3 B :=
  Vec3 (f (vx a)) (f (vy a)) (f (vz a)).

Definition zip3 {A B C : Type} (f : A -> B -> C) (a : vec3 A) (b : vec3 B) : vec3 C :=
  Vec3 (f (vx a) (vx b)) (f (vy a) (vy b)) (f (vz a) (vz b)).

Definition uint2 : Type := vec2 Z.
Definition uint3 : Type := vec3 Z.
Definition int3 : Type := vec3 Z.
Definition int4 : Type := vec4 Z.
Definition float2 : Type := vec2 R.
Definition float3 : Type := vec3 R.
Definition float4 : Type := vec4 R.

(** ** The constant buffer *)

Definition DDGI_PROBE_STATE_ACTIVE : R := 0%R.
Definition DDGI_PROBE_STATE_INACTIVE : R := 1%R.
Definition DDGI_PROBE_RESOLUTION_IRRADIANCE : Z := 6%Z.
Definition DDGI_PROBE_RESOLUTION_DISTANCE : Z := 14%Z.
(** The value the header gives the compile-time switch. *)
Definition DDGI_SRGB_BLENDING : bool := true.

Record DDGIData : Type := {
  ProbesOriginAndSpacing : list float4;
  ProbesScrollOffsets : list int4;
  ProbeScrollDirections : list int4;
  ProbesCounts : uint3;
  CascadesCount : Z;
  IrradianceGamma : R;
  ProbeHistoryWeight : R;
  RayMaxDistance : R;
  IndirectLightingIntensity : R;
  RaysRotation : float4;
  ViewDir : float3;
  RaysCount : Z;
  FallbackIrradiance : float3;
  Padding0 : R
}.

(** Element [i] of a constant-buffer array; a read past the end gives zero. *)
Definition float4_at (l : list float4) (i : Z) : float4 :=
  nth (Z.to_nat i) l (Vec4 (Vec3 0 0 0) 0)%R.
Definition int4_at (l : list int4) (i : Z) : int4 :=
  nth (Z.to_nat i) l (Vec4 (Vec3 0 0 0) 0)%Z.

(** ** Probe addressing *)

Section Addressing.
Local Open Scope Z_scope.

Definition GetDDGIProbeIndex (data : DDGIData) (probeCoords : uint3) : Z :=
  let probesPerPlane := UInt.mul (vx (ProbesCounts data)) (vz (ProbesCounts data)) in
  let planeIndex := vy probeCoords in
  let probeIndexInPlane :=
    UInt.add (vx probeCoords) (UInt.mul (vx (ProbesCounts data)) (vz probeCoords)) in
  UInt.add (UInt.mul planeIndex probesPerPlane) probeIndexInPlane.

Definition GetDDGIProbeCoords (data : DDGIData) (probeIndex : Z) : uint3 :=
  Vec3 (UInt.rem probeIndex (vx (ProbesCounts data)))
       (UInt.div probeIndex (UInt.mul (vx (ProbesCounts data)) (vz (ProbesCounts data))))
       (UInt.rem (UInt.div probeIndex (vx (ProbesCounts data))) (vz (ProbesCounts data))).

Definition GetDDGIProbeTexelCoords (data : DDGIData) (cascadeIndex probeIndex : Z) : uint2 :=
  let probesPerPlane := UInt.mul (vx (ProbesCounts data)) (vz (ProbesCounts data)) in
  let planeIndex := UInt.div probeIndex probesPerPlane in
  let gridSpaceX := UInt.rem probeIndex (vx (ProbesCounts data)) in
  let gridSpaceY := UInt.div probeIndex (vx (ProbesCounts data)) in
  let x := UInt.add gridSpaceX (UInt.mul planeIndex (vx (ProbesCounts data))) in
  let y := UInt.add (UInt.rem gridSpaceY (vz (ProbesCounts data)))
                    (UInt.mul cascadeIndex (vz (ProbesCounts data))) in
  Vec2 x y.

(** [(probeCoords + scrollOffset + ProbesCounts) % ProbesCounts], evaluated
    left to right in [uint3]: the signed offset is converted to [uint]. *)
Definition scrolledCoords (data : DDGIData) (cascadeIndex : Z) (probeCoords : uint3) : uint3 :=
  let offsets := map3 UInt.to_uint (xyz (int4_at (ProbesScrollOffsets data) cascadeIndex)) in
  zip3 UInt.rem
       (zip3 UInt.add (zip3 UInt.add probeCoords offsets) (ProbesCounts data))
       (ProbesCounts data).

Definition GetDDGIScrollingProbeIndex (data : DDGIData) (cascadeIndex : Z)
           (probeCoords : uint3) : Z :=
  GetDDGIProbeIndex data (scrolledCoords data cascadeIndex probeCoords).
End Addressing.

(** A grid whose every component is a positive [uint]. *)
Definition positive_counts (c : uint3) : Prop :=
  (0 < vx c < UInt.modulus /\ 0 < vy c < UInt.modulus /\ 0 < vz c < UInt.modulus)%Z.

(** The number of probes of one cascade. *)
Definition probes_total (c : uint3) : Z := (vx c * vy c * vz c)%Z.

(** A coordinate triple inside the grid. *)
Definition coords_in_grid (c p : uint3) : Prop :=
  (0 <= vx p < vx c /\ 0 <= vy p < vy c /\ 0 <= vz p < vz c)%Z.

(** Constant buffer with the given grid and everything else zero. *)
Definition grid_only (counts : uint3) : DDGIData :=
  {| ProbesOriginAndSpacing := [];
     ProbesScrollOffsets := [];
     ProbeScrollDirections := [];
     ProbesCounts := counts;
     CascadesCount := 1;
     IrradianceGamma := 0;
     ProbeHistoryWeight := 0;
     RayMaxDistance := 0;
     IndirectLightingIntensity := 0;
     RaysRotation := Vec4 (Vec3 0 0 0) 0;
     ViewDir := Vec3 0 0 0;
     RaysCount := 0;
     FallbackIrradiance := Vec3 0 0 0;
     Padding0 := 0 |}%R.

(** ** Scalar and vector intrinsics on [float] *)

Section Intrinsics.
Local Open Scope R_scope.

Definition float3_of (v : vec3 Z) : float3 := map3 IZR v.

Definition add3 (a b : float3) : float3 := zip3 Rplus a b.
Definition sub3 (a b : float3) : float3 := zip3 Rminus a b.
Definition mul3 (a b : float3) : float3 := zip3 Rmult a b.
Definition neg3 (a : float3) : float3 := map3 Ropp a.
Definition abs3 (a : float3) : float3 := map3 Rabs a.
(** vector times scalar, scalar times vector, vector over scalar *)
Definition scale3 (a : float3) (s : R) : float3 := map3 (fun c => c * s) a.
Definition scale3l (s : R) (a : float3) : float3 := map3 (fun c => s * c) a.
Definition div3 (a : float3) (s : R) : float3 := map3 (fun c => c / s) a.

Definition dot (a b : float3) : R := vx a * vx b + vy a * vy b + vz a * vz b.
Definition length (a : float3) : R := sqrt (dot a a).
Definition normalize (a : float3) : float3 := div3 a (length a).

Definition saturate (a : R) : R := Rmin (Rmax a 0) 1.
Definition lerp (a b s : R) : R := a * (1 - s) + b * s.

(** [pow(a, b)]: [exp(b * ln a)] for a positive base and 0 for a zero base
    (the exponents used here are positive); a negative base, NaN in the
    shader, is outside the model. *)
Definition pow (a b : R) : R := if Rlt_dec 0 a then Rpower a b else 0.

(** Modelled from the spec: [Square] is defined in Flax/Math.hlsl, outside
    this header; the design document uses it as the square. *)
Definition Square (a : R) : R := a * a.

(** Modelled from the spec: [Min3] is defined in Flax/Math.hlsl, outside
    this header; the design document reads it as the minimum over the three
    axes. *)
Definition Min3 (a : float3) : R := Rmin (Rmin (vx a) (vy a)) (vz a).

(** Conversion [float -> uint]: the input is clamped to
    [0, 4294967295.999] and then truncated (the Direct3D [ftou]
    conversion); on the clamped, nonnegative value truncation is the floor. *)
Definition ftou (a : R) : Z := Zfloor (Rmin (Rmax a 0) 4294967295.999).
End Intrinsics.

(** A texture bound for reading: [Load] fetches the texel at integer
    coordinates (x, y, mip), [SampleLevel] is the filtered sample
    [SampleLevel(SamplerLinearClamp, uv, lod)]. *)
Record Texture2D : Type := {
  Load : vec3 Z -> float4;
  SampleLevel : float2 -> R -> float4
}.

(** ** Probe positions and atlas coordinates *)

Section Positions.
Local Open Scope R_scope.

Definition GetDDGIProbeWorldPosition (data : DDGIData) (cascadeIndex : Z)
           (probeCoords : uint3) : float3 :=
  let probesOrigin := xyz (float4_at (ProbesOriginAndSpacing data) cascadeIndex) in
  let probesSpacing := w (float4_at (ProbesOriginAndSpacing data) cascadeIndex) in
  let probePosition := scale3 (float3_of probeCoords) probesSpacing in
  let probeGridOffset :=
    scale3 (scale3l probesSpacing
              (float3_of (map3 (fun c => UInt.sub c 1) (ProbesCounts data)))) 0.5 in
  add3 (sub3 (add3 probesOrigin probePosition) probeGridOffset)
       (scale3 (float3_of (xyz (int4_at (ProbesScrollOffsets data) cascadeIndex)))
               probesSpacing).

Definition probeDataCoords (data : DDGIData) (cascadeIndex probeIndex : Z) : vec3 Z :=
  let c := GetDDGIProbeTexelCoords data cascadeIndex probeIndex in
  Vec3 (UInt.to_int (px c)) (UInt.to_int (py c)) 0%Z.

Definition LoadDDGIProbeState (data : DDGIData) (probesState : Texture2D)
           (cascadeIndex probeIndex : Z) : R :=
  let probeState := Load probesState (probeDataCoords data cascadeIndex probeIndex) in
  w probeState.

Definition LoadDDGIProbePositionAndState (data : DDGIData) (probesState : Texture2D)
           (cascadeIndex probeIndex : Z) (probeCoords : uint3) : float4 :=
  let probeState := Load probesState (probeDataCoords data cascadeIndex probeIndex) in
  Vec4 (add3 (xyz probeState) (GetDDGIProbeWorldPosition data cascadeIndex probeCoords))
       (w probeState).

(** The atlas size in pixels, [textureSize] of [GetDDGIProbeUV]. *)
Definition atlasPixelSize (data : DDGIData) (resolution : Z) : float2 :=
  let probeTexelSize := IZR resolution + 2 in
  Vec2 (IZR (UInt.mul (vx (ProbesCounts data)) (vy (ProbesCounts data))) * probeTexelSize)
       (IZR (UInt.mul (vz (ProbesCounts data)) (CascadesCount data)) * probeTexelSize).

Definition GetDDGIProbeUV (data : DDGIData) (cascadeIndex probeIndex : Z)
           (octahedralCoords : float2) (resolution : Z) : float2 :=
  let coords := GetDDGIProbeTexelCoords data cascadeIndex probeIndex in
  let probeTexelSize := IZR resolution + 2 in
  let textureSize := atlasPixelSize data resolution in
  let uv := Vec2 (IZR (px coords) * probeTexelSize + probeTexelSize * 0.5)
                 (IZR (py coords) * probeTexelSize + probeTexelSize * 0.5) in
  let uv := Vec2 (px uv + px octahedralCoords * (IZR resolution * 0.5))
                 (py uv + py octahedralCoords * (IZR resolution * 0.5)) in
  Vec2 (px uv / px textureSize) (py uv / py textureSize).
End Positions.

(** ** Cascade selection *)

Section Cascades.
Local Open Scope R_scope.

(** The locals [probesSpacing], [probesOrigin] and [probesExtent] of
    [SampleDDGIIrradiance]; the origin used for sampling is the cascade
    origin shifted by the scroll offset. *)
Definition probesSpacing (data : DDGIData) (cascadeIndex : Z) : R :=
  w (float4_at (ProbesOriginAndSpacing data) cascadeIndex).

Definition probesOrigin (data : DDGIData) (cascadeIndex : Z) : float3 :=
  add3 (scale3 (float3_of (xyz (int4_at (ProbesScrollOffsets data) cascadeIndex)))
               (probesSpacing data cascadeIndex))
       (xyz (float4_at (ProbesOriginAndSpacing data) cascadeIndex)).

Definition probesExtent (data : DDGIData) (cascadeIndex : Z) : float3 :=
  scale3 (float3_of (map3 (fun c => UInt.sub c 1) (ProbesCounts data)))
         (probesSpacing data cascadeIndex * 0.5).

Definition cascadeWeight (data : DDGIData) (worldPosition : float3) (cascadeIndex : Z) : R :=
  let fadeDistance := probesSpacing data cascadeIndex * 0.5 in
  saturate (Min3 (sub3 (probesExtent data cascadeIndex)
                       (abs3 (sub3 worldPosition (probesOrigin data cascadeIndex))))
            / fadeDistance).

(** The selection loop, [remaining] cascades still to examine from
    [cascadeIndex] on: it stops at the first cascade whose weight exceeds
    the dither value and otherwise runs up to [CascadesCount]. *)
Fixpoint selectCascadeFrom (data : DDGIData) (worldPosition : float3) (dither : R)
         (remaining : nat) (cascadeIndex : Z) : Z :=
  match remaining with
  | O => cascadeIndex
  | S remaining' =>
      if Rgt_dec (cascadeWeight data worldPosition cascadeIndex) dither
      then cascadeIndex
      else selectCascadeFrom data worldPosition dither remaining' (cascadeIndex + 1)%Z
  end.

Definition selectCascade (data : DDGIData) (worldPosition : float3) (dither : R) : Z :=
  selectCascadeFrom data worldPosition dither (Z.to_nat (CascadesCount data)) 0%Z.
End Cascades.

(** ** The eight enclosing probes *)

Section Corners.
Local Open Scope R_scope.

Definition clampToGrid (data : DDGIData) (coords : uint3) : uint3 :=
  zip3 (fun c n => UInt.clamp c 0 (UInt.sub n 1)) coords (ProbesCounts data).

Definition baseProbeCoords (data : DDGIData) (cascadeIndex : Z)
           (worldPosition : float3) : uint3 :=
  clampToGrid data
    (map3 ftou (div3 (add3 (sub3 worldPosition (probesOrigin data cascadeIndex))
                           (probesExtent data cascadeIndex))
                     (probesSpacing data cascadeIndex))).

(** [uint3(i, i >> 1, i >> 2) & 1] *)
Definition probeCoordsOffset (i : Z) : uint3 :=
  map3 (fun c => UInt.and c 1) (Vec3 i (UInt.shr i 1) (UInt.shr i 2)).

Definition cornerProbeCoords (data : DDGIData) (base : uint3) (i : Z) : uint3 :=
  clampToGrid data (zip3 UInt.add base (probeCoordsOffset i)).

(** [probeBasePosition] of the loop body: the base probe position moved by
    the coordinate difference. *)
Definition probeBasePosition (data : DDGIData) (cascadeIndex : Z)
           (base probeCoords : uint3) : float3 :=
  add3 (GetDDGIProbeWorldPosition data cascadeIndex base)
       (scale3 (float3_of (zip3 UInt.sub probeCoords base))
               (probesSpacing data cascadeIndex)).

(** Smooth backface test. *)
Definition backfaceWeight (probePosition worldPosition worldNormal : float3) : R :=
  let worldPosToProbe := normalize (sub3 probePosition worldPosition) in
  Square (dot worldPosToProbe worldNormal * 0.5 + 0.5).

(** Visibility weight (Chebyshev) applied to [weight], from the sampled
    distance texel and the distance of the biased point to the probe. *)
Definition visibilityWeight (weight biasedPosToProbeDist : R) (sampled : float4) : R :=
  let probeDistance := Vec2 (vx (xyz sampled) * 2) (vy (xyz sampled) * 2) in
  let probeDistanceMean := px probeDistance in
  let probeDistanceMean2 := py probeDistance in
  if Rgt_dec biasedPosToProbeDist probeDistanceMean then
    let probeDistanceVariance := Rabs (Square probeDistanceMean - probeDistanceMean2) in
    let chebyshevWeight :=
      probeDistanceVariance
      / (probeDistanceVariance + Square (biasedPosToProbeDist - probeDistanceMean)) in
    weight * Rmax (chebyshevWeight * chebyshevWeight * chebyshevWeight) 0.05
  else weight.

(** The floor that avoids a zero weight, then the low-weight curve. *)
Definition adjustWeight (weight : R) : R :=
  let weight := Rmax weight 0.000001 in
  let minWeightThreshold := 0.2 in
  if Rlt_dec weight minWeightThreshold
  then weight * (Square weight * (1 / (minWeightThreshold * minWeightThreshold)))
  else weight.

Definition trilinearWeight (biasAlpha : float3) (offset : uint3) : R :=
  let trilinear :=
    Vec3 (lerp (1 - vx biasAlpha) (vx biasAlpha) (IZR (vx offset)))
         (lerp (1 - vy biasAlpha) (vy biasAlpha) (IZR (vy offset)))
         (lerp (1 - vz biasAlpha) (vz biasAlpha) (IZR (vz offset))) in
  Rmax (vx trilinear * vy trilinear * vz trilinear) 0.001.
End Corners.

(** ** Sampling the irradiance *)

Section Sampling.
Local Open Scope R_scope.

(** The octahedral mapping of Flax/Octahedral.hlsl, consumed as a function. *)
Variable GetOctahedralCoords : float3 -> float2.
(** The compile-time switch [DDGI_SRGB_BLENDING]. *)
Variable srgbBlending : bool.

Variable data : DDGIData.
Variables probesState probesDistance probesIrradiance : Texture2D.

Definition surfaceBias (worldNormal : float3) (bias : R) : float3 :=
  add3 (scale3 worldNormal bias) (scale3 (ViewDir data) (bias * -4)).

Definition biasAlphaOf (cascadeIndex : Z) (biasedWorldPosition baseProbeWorldPosition : float3)
  : float3 :=
  map3 saturate (div3 (sub3 biasedWorldPosition baseProbeWorldPosition)
                      (probesSpacing data cascadeIndex)).

(** The weight of one probe of the loop, given its position. *)
Definition probeWeight (cascadeIndex probeIndex : Z) (probePosition : float3)
           (worldPosition worldNormal biasedWorldPosition biasAlpha : float3)
           (offset : uint3) : R :=
  let biasedPosToProbe := normalize (sub3 probePosition biasedWorldPosition) in
  let biasedPosToProbeDist := length (sub3 probePosition biasedWorldPosition) in
  let weight := backfaceWeight probePosition worldPosition worldNormal in
  let octahedralCoords := GetOctahedralCoords (neg3 biasedPosToProbe) in
  let uv := GetDDGIProbeUV data cascadeIndex probeIndex octahedralCoords
                           DDGI_PROBE_RESOLUTION_DISTANCE in
  let weight := visibilityWeight weight biasedPosToProbeDist
                                 (SampleLevel probesDistance uv 0) in
  let weight := adjustWeight weight in
  weight * trilinearWeight biasAlpha offset.

(** The irradiance of one probe in the direction of the normal. *)
Definition probeIrradianceOf (cascadeIndex probeIndex : Z) (worldNormal : float3) : float3 :=
  let octahedralCoords := GetOctahedralCoords worldNormal in
  let uv := GetDDGIProbeUV data cascadeIndex probeIndex octahedralCoords
                           DDGI_PROBE_RESOLUTION_IRRADIANCE in
  let probeIrradiance := xyz (SampleLevel probesIrradiance uv 0) in
  if srgbBlending
  then map3 (fun c => pow c (IrradianceGamma data * 0.5)) probeIrradiance
  else probeIrradiance.

(** One iteration of the loop over the closest probes. *)
Definition accumulateProbe (cascadeIndex : Z)
           (worldPosition worldNormal biasedWorldPosition : float3)
           (base : uint3) (biasAlpha : float3)
           (irradiance : float4) (i : Z) : float4 :=
  let offset := probeCoordsOffset i in
  let probeCoords := cornerProbeCoords data base i in
  let probeIndex := GetDDGIScrollingProbeIndex data cascadeIndex probeCoords in
  let probeState := Load probesState (probeDataCoords data cascadeIndex probeIndex) in
  if Req_dec_T (w probeState) DDGI_PROBE_STATE_INACTIVE then irradiance
  else
    let probePosition :=
      add3 (probeBasePosition data cascadeIndex base probeCoords) (xyz probeState) in
    let weight := probeWeight cascadeIndex probeIndex probePosition
                              worldPosition worldNormal biasedWorldPosition
                              biasAlpha offset in
    let probeIrradiance := probeIrradianceOf cascadeIndex probeIndex worldNormal in
    Vec4 (add3 (xyz irradiance) (scale3 probeIrradiance weight)) (w irradiance + weight).

(** Normalisation of the accumulated irradiance; the macro [PI] of
    Flax/Common.hlsl, outside this header, is taken to be the constant pi. *)
Definition normalizeIrradiance (irradiance : float4) : float3 :=
  if Rgt_dec (w irradiance) 0 then
    let rgb := scale3 (xyz irradiance) (1 / w irradiance) in
    let rgb := if srgbBlending then mul3 rgb rgb else rgb in
    scale3 rgb (2 * PI)
  else xyz irradiance.

(** The part of [SampleDDGIIrradiance] that follows the selection. *)
Definition sampleCascade (cascadeIndex : Z) (worldPosition worldNormal : float3) (bias : R)
  : float3 :=
  let biasedWorldPosition := add3 worldPosition (surfaceBias worldNormal bias) in
  let base := baseProbeCoords data cascadeIndex worldPosition in
  let baseProbeWorldPosition := GetDDGIProbeWorldPosition data cascadeIndex base in
  let biasAlpha := biasAlphaOf cascadeIndex biasedWorldPosition baseProbeWorldPosition in
  let irradiance :=
    fold_left (accumulateProbe cascadeIndex worldPosition worldNormal
                               biasedWorldPosition base biasAlpha)
              [0; 1; 2; 3; 4; 5; 6; 7]%Z
              (Vec4 (Vec3 0 0 0) 0) in
  normalizeIrradiance irradiance.

Definition SampleDDGIIrradiance (worldPosition worldNormal : float3) (bias dither : R)
  : float3 :=
  let cascadeIndex := selectCascade data worldPosition dither in
  if (cascadeIndex =? CascadesCount data)%Z
  then FallbackIrradiance data
  else sampleCascade cascadeIndex worldPosition worldNormal bias.
End Sampling.

(** ** Reference formulas of the design document *)

Section Reference.
Local Open Scope Z_scope.

(** The scroll offset of a cascade, as a signed triple. *)
Definition scrollOffset (data : DDGIData) (cascadeIndex : Z) : int3 :=
  xyz (int4_at (ProbesScrollOffsets data) cascadeIndex).

(** The componentwise mathematical modulus [(coords + scrollOffset) mod counts]. *)
Definition wrappedCoords (counts : uint3) (coords : uint3) (offset : int3) : uint3 :=
  zip3 Z.modulo (zip3 Z.add coords offset) counts.

(** Componentwise [offset >= -counts]. *)
Definition offset_at_least_minus_counts (counts : uint3) (offset : int3) : Prop :=
  - vx counts <= vx offset /\ - vy counts <= vy offset /\ - vz counts <= vz offset.

(** Componentwise [coords + offset + counts < 2^32]: the sum the wrap
    expression forms fits the unsigned type. *)
Definition wrap_sum_fits (counts : uint3) (coords : uint3) (offset : int3) : Prop :=
  vx coords + vx offset + vx counts < UInt.modulus /\
  vy coords + vy offset + vy counts < UInt.modulus /\
  vz coords + vz offset + vz counts < UInt.modulus.

(** A component of a corner offset. *)
Definition is_bit (o : Z) : Prop := o = 0 \/ o = 1.

(** Constant buffer with one cascade of the given grid and scroll offset. *)
Definition scrolled_grid (counts : uint3) (offset : int3) : DDGIData :=
  {| ProbesOriginAndSpacing := [Vec4 (Vec3 0 0 0) 1]%R;
     ProbesScrollOffsets := [Vec4 offset 0%Z];
     ProbeScrollDirections := [];
     ProbesCounts := counts;
     CascadesCount := 1;
     IrradianceGamma := 0;
     ProbeHistoryWeight := 0;
     RayMaxDistance := 0;
     IndirectLightingIntensity := 0;
     RaysRotation := Vec4 (Vec3 0 0 0) 0;
     ViewDir := Vec3 0 0 0;
     RaysCount := 0;
     FallbackIrradiance := Vec3 0 0 0;
     Padding0 := 0 |}%R.
End Reference.

Section ReferenceFloat.
Local Open Scope R_scope.

Definition clampR (a lo hi : R) : R := Rmin (Rmax a lo) hi.
Definition clampZ (a lo hi : Z) : Z := Z.min (Z.max a lo) hi.

(** The fade weight of the cascade selector:
    [clamp(min-over-axes(extent - |worldPos - origin|) / fadeDistance, 0, 1)]
    with [extent = 0.5 * spacing * (counts - 1)] and
    [fadeDistance = 0.5 * spacing]. *)
Definition fadeWeight (origin : float3) (spacing : R) (counts : uint3)
           (worldPos : float3) : R :=
  let extent := map3 (fun n => 0.5 * spacing * (IZR n - 1)) counts in
  let fadeDistance := 0.5 * spacing in
  let margin := zip3 (fun e d => e - Rabs d) extent (sub3 worldPos origin) in
  clampR (Rmin (Rmin (vx margin) (vy margin)) (vz margin) / fadeDistance) 0 1.

(** The base probe coordinate:
    [clamp(floor((worldPos - origin + extent) / spacing), 0, counts - 1)]. *)
Definition baseCoordsFormula (origin : float3) (spacing : R) (counts : uint3)
           (worldPos : float3) : vec3 Z :=
  let extent := map3 (fun n => 0.5 * spacing * (IZR n - 1)) counts in
  zip3 (fun q n => clampZ (Zfloor q) 0 (n - 1))
       (map3 (fun c => c / spacing) (add3 (sub3 worldPos origin) extent))
       counts.

(** The configured origin and spacing of a cascade: the fields [origin]
    and [spacing] of the design document, stored as the xyz and the w of
    [ProbesOriginAndSpacing]. *)
Definition cascadeOrigin (data : DDGIData) (cascadeIndex : Z) : float3 :=
  xyz (float4_at (ProbesOriginAndSpacing data) cascadeIndex).

Definition cascadeSpacing (data : DDGIData) (cascadeIndex : Z) : R :=
  w (float4_at (ProbesOriginAndSpacing data) cascadeIndex).

(** The configured origin moved by the scroll offset:
    [origin + scrollOffset * spacing]. *)
Definition scrolledOrigin (origin : float3) (offset : int3) (spacing : R) : float3 :=
  Vec3 (vx origin + IZR (vx offset) * spacing)
       (vy origin + IZR (vy offset) * spacing)
       (vz origin + IZR (vz offset) * spacing).

(** A conversion from float to uint that truncates the values of the
    unsigned range; what it does with the other values is left open. *)
Definition truncates_in_range (convert : R -> Z) : Prop :=
  forall q, 0 <= q < 4294967296 -> convert q = Zfloor q.

(** A conversion from float to uint that gives 0 on the negative values,
    as the saturating conversion of Direct3D does. *)
Definition saturates_negative (convert : R -> Z) : Prop :=
  forall q, q < 0 -> convert q = 0%Z.

(** The base probe coordinate of [SampleDDGIIrradiance] with the
    conversion [uint3(...)] left open. *)
Definition baseProbeCoordsWith (convert : R -> Z) (data : DDGIData) (cascadeIndex : Z)
           (worldPosition : float3) : uint3 :=
  clampToGrid data
    (map3 convert (div3 (add3 (sub3 worldPosition (probesOrigin data cascadeIndex))
                              (probesExtent data cascadeIndex))
                        (probesSpacing data cascadeIndex))).

(** The visibility factor from the two stored channels and the distance
    [d] of the biased point to the probe:
    [max(chebyshev^3, 0.05)], [chebyshev = variance / (variance + (d - mean)^2)],
    [variance = |mean^2 - meanSquare|], [(mean, meanSquare)] twice the
    stored channels. *)
Definition visibilityFactor (stored0 stored1 d : R) : R :=
  let mean := 2 * stored0 in
  let meanSquare := 2 * stored1 in
  let variance := Rabs (mean ^ 2 - meanSquare) in
  let chebyshev := variance / (variance + (d - mean) ^ 2) in
  Rmax (chebyshev ^ 3) 0.05.

(** The position formula of a probe:
    [origin + coords * spacing - 0.5 * spacing * (counts - 1)
     + scrollOffset * spacing]. *)
Definition probePositionFormula (origin : float3) (spacing : R) (counts : uint3)
           (offset : int3) (coords : uint3) : float3 :=
  Vec3 (vx origin + IZR (vx coords) * spacing - 0.5 * spacing * (IZR (vx counts) - 1)
        + IZR (vx offset) * spacing)
       (vy origin + IZR (vy coords) * spacing - 0.5 * spacing * (IZR (vy counts) - 1)
        + IZR (vy offset) * spacing)
       (vz origin + IZR (vz coords) * spacing - 0.5 * spacing * (IZR (vz counts) - 1)
        + IZR (vz offset) * spacing).
End ReferenceFloat.

(** ** A concrete volume *)

Section Scenario.
Local Open Scope R_scope.

(** One cascade of 2 x 2 x 2 probes centred on the origin with spacing 2
    and no scroll offset. *)
Definition scenarioData (gamma : R) (viewDir fallback : float3) : DDGIData :=
  {| ProbesOriginAndSpacing := [Vec4 (Vec3 0 0 0) 2];
     ProbesScrollOffsets := [Vec4 (Vec3 0 0 0) 0]%Z;
     ProbeScrollDirections := [Vec4 (Vec3 0 0 0) 0]%Z;
     ProbesCounts := (Vec3 2 2 2)%Z;
     CascadesCount := 1;
     IrradianceGamma := gamma;
     ProbeHistoryWeight := 0;
     RayMaxDistance := 0;
     IndirectLightingIntensity := 1;
     RaysRotation := Vec4 (Vec3 0 0 0) 0;
     ViewDir := viewDir;
     RaysCount := 0;
     FallbackIrradiance := fallback;
     Padding0 := 0 |}.

(** A texture holding the same value everywhere. *)
Definition uniformTexture (value : float4) : Texture2D :=
  {| Load := fun _ => value; SampleLevel := fun _ _ => value |}.

(** A stand-in for the octahedral mapping. *)
Definition octahedralOrigin (direction : float3) : float2 := Vec2 0 0.

(** The volume is the one of the scenario: grid (2,2,2), one cascade,
    origin (0,0,0), spacing 2, zero scroll offset. *)
Definition scenario_volume (data : DDGIData) : Prop :=
  ProbesCounts data = (Vec3 2 2 2)%Z /\
  CascadesCount data = 1%Z /\
  float4_at (ProbesOriginAndSpacing data) 0 = Vec4 (Vec3 0 0 0) 2 /\
  scrollOffset data 0 = (Vec3 0 0 0)%Z.

(** Every probe is active and not relocated. *)
Definition all_probes_active (probesState : Texture2D) : Prop :=
  forall c, Load probesState c = Vec4 (Vec3 0 0 0) DDGI_PROBE_STATE_ACTIVE.

(** The irradiance atlas holds [value] everywhere. *)
Definition uniform_irradiance (probesIrradiance : Texture2D) (value : float3) : Prop :=
  forall uv lod, xyz (SampleLevel probesIrradiance uv lod) = value.

(** The distance atlas holds mean 100 and mean square 10000 everywhere. *)
Definition unoccluded_distance (probesDistance : Texture2D) : Prop :=
  forall uv lod,
    vx (xyz (SampleLevel probesDistance uv lod)) = 100 /\
    vy (xyz (SampleLevel probesDistance uv lod)) = 10000.

(** No gamma compression: the blending switch is off, or it is on with
    exponent [IrradianceGamma = 1] on nonnegative values, where decoding
    by the half power and squaring the mean cancel. *)
Definition gamma_compression_disabled (srgbBlending : bool) (data : DDGIData)
           (value : float3) : Prop :=
  srgbBlending = false \/
  (IrradianceGamma data = 1 /\ 0 <= vx value /\ 0 <= vy value /\ 0 <= vz value).

(** The eight probes enclosing a position in a cascade are all inactive. *)
Definition corners_inactive (data : DDGIData) (probesState : Texture2D)
           (cascadeIndex : Z) (worldPosition : float3) : Prop :=
  forall i, (0 <= i < 8)%Z ->
    let probeCoords :=
      cornerProbeCoords data (baseProbeCoords data cascadeIndex worldPosition) i in
    let probeIndex := GetDDGIScrollingProbeIndex data cascadeIndex probeCoords in
    w (Load probesState (probeDataCoords data cascadeIndex probeIndex))
    = DDGI_PROBE_STATE_INACTIVE.
End Scenario.

(** ** Concrete inputs *)

Section ConcreteInputs.
Local Open Scope R_scope.

Definition demoData : DDGIData := scenarioData 1 (Vec3 0 0 1) (Vec3 0.25 0.25 0.25).
Definition activeState : Texture2D :=
  uniformTexture (Vec4 (Vec3 0 0 0) DDGI_PROBE_STATE_ACTIVE).
Definition inactiveState : Texture2D :=
  uniformTexture (Vec4 (Vec3 0 0 0) DDGI_PROBE_STATE_INACTIVE).
Definition unoccluded : Texture2D := uniformTexture (Vec4 (Vec3 100 10000 0) 0).
Definition greyIrradiance : Texture2D := uniformTexture (Vec4 (Vec3 1 2 3) 1).
Definition upNormal : float3 := Vec3 0 0 1.
Definition centre : float3 := Vec3 0 0 0.

(** The volume of [demoData] after scrolling by five probes along x:
    the configured origin stays (0,0,0), the box of the cascade is
    centred on (10,0,0). *)
Definition scrolledData : DDGIData :=
  {| ProbesOriginAndSpacing := [Vec4 (Vec3 0 0 0) 2];
     ProbesScrollOffsets := [Vec4 (Vec3 5 0 0) 0]%Z;
     ProbeScrollDirections := [Vec4 (Vec3 0 0 0) 0]%Z;
     ProbesCounts := (Vec3 2 2 2)%Z;
     CascadesCount := 1;
     IrradianceGamma := 1;
     ProbeHistoryWeight := 0;
     RayMaxDistance := 0;
     IndirectLightingIntensity := 1;
     RaysRotation := Vec4 (Vec3 0 0 0) 0;
     ViewDir := Vec3 0 0 1;
     RaysCount := 0;
     FallbackIrradiance := Vec3 0.25 0.25 0.25;
     Padding0 := 0 |}.
Definition scrolledCentre : float3 := Vec3 10 0 0.
End ConcreteInputs.

(** ** Further functions of the header *)

Section TexelAddressing.
Local Open Scope Z_scope.

(** The overload [GetDDGIProbeIndex(data, texCoords, texResolution)]: the
    probe whose block of [texResolution] texels contains a texel. *)
Definition GetDDGIProbeIndexAtTexel (data : DDGIData) (texCoords : uint2)
           (texResolution : Z) : Z :=
  let probesPerPlane := UInt.mul (vx (ProbesCounts data)) (vz (ProbesCounts data)) in
  let planeIndex :=
    UInt.div (px texCoords) (UInt.mul (vx (ProbesCounts data)) texResolution) in
  let probeIndexInPlane :=
    UInt.add (UInt.sub (UInt.div (px texCoords) texResolution)
                       (UInt.mul planeIndex (vx (ProbesCounts data))))
             (UInt.mul (vx (ProbesCounts data)) (UInt.div (py texCoords) texResolution)) in
  UInt.add (UInt.mul planeIndex probesPerPlane) probeIndexInPlane.

(** A texel of the block of a probe: the block origin scaled by the
    resolution plus an offset inside the block. *)
Definition texelOfBlock (block : uint2) (texResolution dx dy : Z) : uint2 :=
  Vec2 (px block * texResolution + dx) (py block * texResolution + dy).

(** A scroll offset that is a whole number of periods on every axis. *)
Definition whole_periods (counts : uint3) (periods offset : int3) : Prop :=
  vx offset = vx periods * vx counts /\
  vy offset = vy periods * vy counts /\
  vz offset = vz periods * vz counts.

(** The coordinate mirrored through the centre of the grid. *)
Definition mirroredCoords (counts coords : uint3) : uint3 :=
  zip3 (fun n c => n - 1 - c) counts coords.
End TexelAddressing.

Section CascadeRegions.
Local Open Scope R_scope.

(** The position is on or beyond the boundary of the box of a cascade on
    some axis: [|worldPosition - probesOrigin| >= probesExtent]. *)
Definition outside_cascade (data : DDGIData) (cascadeIndex : Z)
           (worldPosition : float3) : Prop :=
  let d := sub3 worldPosition (probesOrigin data cascadeIndex) in
  let e := probesExtent data cascadeIndex in
  vx e <= Rabs (vx d) \/ vy e <= Rabs (vy d) \/ vz e <= Rabs (vz d).

(** The position is inside the box of a cascade and at least the fade
    distance (half the spacing) away from its boundary on every axis. *)
Definition inside_core (data : DDGIData) (cascadeIndex : Z)
           (worldPosition : float3) : Prop :=
  let d := sub3 worldPosition (probesOrigin data cascadeIndex) in
  let e := probesExtent data cascadeIndex in
  let fadeDistance := probesSpacing data cascadeIndex * 0.5 in
  Rabs (vx d) + fadeDistance <= vx e /\
  Rabs (vy d) + fadeDistance <= vy e /\
  Rabs (vz d) + fadeDistance <= vz e.

(** The sum of the trilinear factors of the eight corners. *)
Definition trilinearSum (biasAlpha : float3) : R :=
  fold_right (fun i acc => trilinearWeight biasAlpha (probeCoordsOffset i) + acc) 0
             [0; 1; 2; 3; 4; 5; 6; 7]%Z.

(** Every channel of every sample of a texture lies between two bounds. *)
Definition samples_between (texture : Texture2D) (lo hi : R) : Prop :=
  forall uv lod,
    lo <= vx (xyz (SampleLevel texture uv lod)) <= hi /\
    lo <= vy (xyz (SampleLevel texture uv lod)) <= hi /\
    lo <= vz (xyz (SampleLevel texture uv lod)) <= hi.

(** Every channel of a colour lies between two bounds. *)
Definition channels_between (colour : float3) (lo hi : R) : Prop :=
  lo <= vx colour <= hi /\ lo <= vy colour <= hi /\ lo <= vz colour <= hi.

(** One of the eight enclosing probes of a position is not inactive. *)
Definition some_corner_active (data : DDGIData) (probesState : Texture2D)
           (cascadeIndex : Z) (worldPosition : float3) : Prop :=
  exists i, (0 <= i < 8)%Z /\
    let probeCoords :=
      cornerProbeCoords data (baseProbeCoords data cascadeIndex worldPosition) i in
    let probeIndex := GetDDGIScrollingProbeIndex data cascadeIndex probeCoords in
    w (Load probesState (probeDataCoords data cascadeIndex probeIndex))
    <> DDGI_PROBE_STATE_INACTIVE.
End CascadeRegions.

Section GammaCurve.
Local Open Scope R_scope.

(** What a raw atlas value [c] becomes on the way through the blend when
    every contributing probe holds it: [pow(c, gamma)] with the blending
    switch on, [c] itself with the switch off. *)
Definition gammaCurve (srgbBlending : bool) (data : DDGIData) (c : R) : R :=
  if srgbBlending then pow c (IrradianceGamma data) else c.
End GammaCurve.

(** ** Null-terminated strings (StringUtils)

    A string argument is modelled by the list of the characters stored
    from the pointer on; reading at or past the end of the list reads the
    terminator 0.  A character [Char] is an integer in [0, 65536).  A
    result pointer into a string is modelled by its offset, the written
    destination by the list of the characters written, in order. *)

Module StringUtils.
Local Open Scope Z_scope.

(** [*str] *)
Definition deref (str : list Z) : Z := hd 0 str.

(** The characters before the terminator. *)
Fixpoint cstring (str : list Z) : list Z :=
  match str with
  | [] => []
  | c :: rest => if c =? 0 then [] else c :: cstring rest
  end.

(** [Compare(str1, str2)] on wide strings: the do-while loop reads one
    character of each string, forms the difference and goes on while it is
    0 and neither character is the terminator. *)
Fixpoint Compare (str1 str2 : list Z) : Z :=
  let c1 := deref str1 in
  let c2 := deref str2 in
  let i := c1 - c2 in
  match str1 with
  | [] => i
  | _ :: rest1 =>
      if (i =? 0) && negb (c1 =? 0) && negb (c2 =? 0)
      then Compare rest1 (tl str2)
      else i
  end.

(** The loop of [Compare(str1, str2, maxCount)] on wide strings, which
    also decrements [maxCount] and stops when it reaches 0. *)
Fixpoint CompareLoop (str1 str2 : list Z) (maxCount : Z) : Z :=
  let c1 := deref str1 in
  let c2 := deref str2 in
  let i := c1 - c2 in
  let maxCount := maxCount - 1 in
  match str1 with
  | [] => i
  | _ :: rest1 =>
      if (i =? 0) && negb (c1 =? 0) && negb (c2 =? 0) && negb (maxCount =? 0)
      then CompareLoop rest1 (tl str2) maxCount
      else i
  end.

Definition CompareMaxCount (str1 str2 : list Z) (maxCount : Z) : Z :=
  if maxCount =? 0 then 0 else CompareLoop str1 str2 maxCount.

(** [Length(str)] on a wide string; [None] is the null pointer. *)
Fixpoint LengthLoop (ptr : list Z) : Z :=
  match ptr with
  | [] => 0
  | c :: rest => if c =? 0 then 0 else 1 + LengthLoop rest
  end.

Definition Length (str : option (list Z)) : Z :=
  match str with
  | None => 0
  | Some s => LengthLoop s
  end.

(** [Copy(dst, src)] on wide strings: the characters written to [dst],
    up to and including the terminator. *)
Fixpoint Copy (src : list Z) : list Z :=
  match src with
  | [] => [0]
  | ch :: rest => ch :: (if ch =? 0 then [] else Copy rest)
  end.

(** Conversion of a [Char] to the narrow [char] the counted copy keeps its
    character in (signed, 8 bits), and back to [Char]. *)
Definition to_char (c : Z) : Z :=
  let low := c mod 256 in if low <? 128 then low else low - 256.
Definition of_char (ch : Z) : Z := ch mod 65536.

(** The loop of [Copy(dst, src, count)] on wide strings: the
    characters it writes. *)
Fixpoint CopyLoop (src : list Z) (count : Z) : list Z :=
  if count =? 0 then []
  else
    let count := count - 1 in
    let ch := to_char (deref src) in
    of_char ch ::
      (if ch =? 0 then []
       else match src with
            | [] => []
            | _ :: rest => CopyLoop rest count
            end).

(** The counted copy: the loop, then the terminator written at [q]. *)
Definition CopyCount (src : list Z) (count : Z) : list Z :=
  CopyLoop src count ++ [0].

(** The inner loop of [Find] and the test that follows it: the characters
    of [sub] are matched one by one against [str]; the result tells whether
    [sub] was exhausted. *)
Fixpoint matchAt (str sub : list Z) : bool :=
  let c := deref str in
  let d := deref sub in
  if negb (c =? 0) && negb (d =? 0) && (c =? d)
  then match str with
       | [] => d =? 0
       | _ :: str' => matchAt str' (tl sub)
       end
  else d =? 0.

(** [Find(str, toFind)] on wide strings: the offset of the match
    returned, [None] for the null pointer. *)
Fixpoint Find (str toFind : list Z) : option nat :=
  match str with
  | [] => None
  | c :: rest =>
      if c =? 0 then None
      else if matchAt str toFind then Some O
      else option_map S (Find rest toFind)
  end.

(** A string without an embedded terminator. *)
Definition zero_free (s : list Z) : Prop := Forall (fun c => c <> 0) s.

(** A string of characters of the 7-bit range. *)
Definition ascii_only (s : list Z) : Prop := Forall (fun c => 0 < c < 128) s.

(** [sub] occurs in [str] at offset [k]. *)
Definition occurs_at (str sub : list Z) (k : nat) : Prop :=
  firstn (List.length sub) (skipn k str) = sub.
End StringUtils.

(** ** Lemmas on unsigned arithmetic *)

Section UIntFacts.
Local Open Scope Z_scope.

Lemma to_uint_small (a : Z) : 0 <= a < UInt.modulus -> UInt.to_uint a = a.
Proof. intros H. unfold UInt.to_uint. now apply Z.mod_small. Qed.

Lemma to_uint_range (a : Z) : 0 <= UInt.to_uint a < UInt.modulus.
Proof. unfold UInt.to_uint. apply Z.mod_pos_bound. reflexivity. Qed.

Lemma add_small (a b : Z) : 0 <= a + b < UInt.modulus -> UInt.add a b = a + b.
Proof. apply to_uint_small. Qed.

Lemma mul_small (a b : Z) : 0 <= a * b < UInt.modulus -> UInt.mul a b = a * b.
Proof. apply to_uint_small. Qed.

Lemma sub_small (a b : Z) : 0 <= a - b < UInt.modulus -> UInt.sub a b = a - b.
Proof. apply to_uint_small. Qed.

Lemma div_pos (a b : Z) : 0 < b -> UInt.div a b = a / b.
Proof. intros H. unfold UInt.div. destruct (Z.eqb_spec b 0); [lia | reflexivity]. Qed.

Lemma rem_pos (a b : Z) : 0 < b -> UInt.rem a b = a mod b.
Proof. intros H. unfold UInt.rem. destruct (Z.eqb_spec b 0); [lia | reflexivity]. Qed.

(** Adding a converted signed offset and then a third operand wraps once. *)
Lemma add_add_to_uint (a s n : Z) :
  UInt.add (UInt.add a (UInt.to_uint s)) n = UInt.to_uint (a + s + n).
Proof.
  unfold UInt.add, UInt.to_uint.
  rewrite Zplus_mod_idemp_l.
  replace (a + s mod UInt.modulus + n) with (s mod UInt.modulus + (a + n)) by ring.
  rewrite Zplus_mod_idemp_l.
  f_equal. ring.
Qed.
End UIntFacts.

(** ** Index and coordinates are inverse to each other *)

Section IndexCoords.
Local Open Scope Z_scope.

Lemma probes_per_plane_small (c : uint3) :
  positive_counts c -> probes_total c < UInt.modulus ->
  0 < vx c * vz c < UInt.modulus.
Proof.
  unfold positive_counts, probes_total. intros (Hx & Hy & Hz) Ht. nia.
Qed.

Lemma index_of_coords_exact (data : DDGIData) (p : uint3) :
  positive_counts (ProbesCounts data) ->
  probes_total (ProbesCounts data) < UInt.modulus ->
  coords_in_grid (ProbesCounts data) p ->
  GetDDGIProbeIndex data p
  = vy p * (vx (ProbesCounts data) * vz (ProbesCounts data))
    + (vx p + vx (ProbesCounts data) * vz p)
  /\ 0 <= GetDDGIProbeIndex data p < probes_total (ProbesCounts data).
Proof.
  intros Hpos Htot Hin.
  pose proof (probes_per_plane_small _ Hpos Htot) as Hplane.
  unfold GetDDGIProbeIndex.
  destruct (ProbesCounts data) as [X Y Z0]; destruct p as [a b c].
  unfold positive_counts, probes_total, coords_in_grid in *; cbn [vx vy vz] in *.
  assert (Hin_plane : 0 <= a + X * c < X * Z0) by nia.
  assert (Hsum : 0 <= b * (X * Z0) + (a + X * c) < X * Y * Z0) by nia.
  rewrite (mul_small X Z0) by lia.
  rewrite (mul_small X c) by nia.
  rewrite (add_small a (X * c)) by lia.
  rewrite (mul_small b (X * Z0)) by nia.
  rewrite add_small by lia.
  split; [reflexivity | lia].
Qed.
End IndexCoords.

Section IndexCoordsInverse.
Local Open Scope Z_scope.

Lemma coords_of_index_in_grid (data : DDGIData) (i : Z) :
  positive_counts (ProbesCounts data) ->
  probes_total (ProbesCounts data) < UInt.modulus ->
  0 <= i < probes_total (ProbesCounts data) ->
  coords_in_grid (ProbesCounts data) (GetDDGIProbeCoords data i).
Proof.
  intros Hpos Htot Hi.
  pose proof (probes_per_plane_small _ Hpos Htot) as Hplane.
  unfold GetDDGIProbeCoords.
  destruct (ProbesCounts data) as [X Y Z0].
  unfold positive_counts, probes_total, coords_in_grid in *; cbn [vx vy vz] in *.
  rewrite (mul_small X Z0) by lia.
  rewrite !rem_pos, !div_pos by lia.
  repeat split.
  - apply Z.mod_pos_bound; lia.
  - apply Z.mod_pos_bound; lia.
  - apply Z.div_pos; lia.
  - apply Z.div_lt_upper_bound; nia.
  - apply Z.mod_pos_bound; lia.
  - apply Z.mod_pos_bound; lia.
Qed.

Lemma index_of_coords_of_index (data : DDGIData) (i : Z) :
  positive_counts (ProbesCounts data) ->
  probes_total (ProbesCounts data) < UInt.modulus ->
  0 <= i < probes_total (ProbesCounts data) ->
  GetDDGIProbeIndex data (GetDDGIProbeCoords data i) = i.
Proof.
  intros Hpos Htot Hi.
  pose proof (coords_of_index_in_grid data i Hpos Htot Hi) as Hin.
  destruct (index_of_coords_exact data _ Hpos Htot Hin) as [-> _].
  pose proof (probes_per_plane_small _ Hpos Htot) as Hplane.
  unfold GetDDGIProbeCoords.
  destruct (ProbesCounts data) as [X Y Z0].
  unfold positive_counts, probes_total in *; cbn [vx vy vz] in *.
  rewrite (mul_small X Z0) by lia.
  rewrite !rem_pos, !div_pos by lia.
  rewrite <- (Z.div_div i X Z0) by lia.
  pose proof (Z.div_mod i X ltac:(lia)) as Hi_split.
  pose proof (Z.div_mod (i / X) Z0 ltac:(lia)) as Hq_split.
  set (q := i / X) in *. set (t := q / Z0) in *.
  set (r := i mod X) in *. set (s := q mod Z0) in *.
  clearbody t r s. clearbody q.
  rewrite Hi_split, Hq_split. ring.
Qed.

Lemma coords_of_index_of_coords (data : DDGIData) (p : uint3) :
  positive_counts (ProbesCounts data) ->
  probes_total (ProbesCounts data) < UInt.modulus ->
  coords_in_grid (ProbesCounts data) p ->
  GetDDGIProbeCoords data (GetDDGIProbeIndex data p) = p.
Proof.
  intros Hpos Htot Hin.
  destruct (index_of_coords_exact data _ Hpos Htot Hin) as [Hidx _].
  pose proof (probes_per_plane_small _ Hpos Htot) as Hplane.
  unfold GetDDGIProbeCoords. rewrite Hidx. clear Hidx.
  destruct (ProbesCounts data) as [X Y Z0]; destruct p as [a b c].
  unfold positive_counts, probes_total, coords_in_grid in *; cbn [vx vy vz] in *.
  rewrite (mul_small X Z0) by lia.
  rewrite !rem_pos, !div_pos by lia.
  assert (Hx : (b * (X * Z0) + (a + X * c)) mod X = a).
  { symmetry. apply Z.mod_unique_pos with (q := b * Z0 + c); [lia | ring]. }
  assert (Hq : (b * (X * Z0) + (a + X * c)) / X = b * Z0 + c).
  { symmetry. apply Z.div_unique_pos with (r := a); [lia | ring]. }
  assert (Hy : (b * (X * Z0) + (a + X * c)) / (X * Z0) = b).
  { symmetry. apply Z.div_unique_pos with (r := a + X * c); [nia | ring]. }
  assert (Hz : (b * Z0 + c) mod Z0 = c).
  { symmetry. apply Z.mod_unique_pos with (q := b); [lia | ring]. }
  rewrite Hx, Hy, Hq, Hz. reflexivity.
Qed.
End IndexCoordsInverse.

(** ** The flat index and the grid coordinates *)

Section Bijection.
Local Open Scope Z_scope.

(** C2, as amended: for every grid with positive components whose number
    of probes X*Y*Z is below 2^32, every flat index i in [0, X*Y*Z) is
    mapped by GetDDGIProbeCoords into the grid and back to i by
    GetDDGIProbeIndex, and every coordinate triple of the grid is mapped by
    GetDDGIProbeIndex into [0, X*Y*Z) and back to itself by
    GetDDGIProbeCoords. *)
Theorem probe_index_coords_bijection (data : DDGIData) :
  positive_counts (ProbesCounts data) ->
  probes_total (ProbesCounts data) < UInt.modulus ->
  (forall i, 0 <= i < probes_total (ProbesCounts data) ->
     coords_in_grid (ProbesCounts data) (GetDDGIProbeCoords data i) /\
     GetDDGIProbeIndex data (GetDDGIProbeCoords data i) = i) /\
  (forall p, coords_in_grid (ProbesCounts data) p ->
     0 <= GetDDGIProbeIndex data p < probes_total (ProbesCounts data) /\
     GetDDGIProbeCoords data (GetDDGIProbeIndex data p) = p).
Proof.
  intros Hpos Htot. split.
  - intros i Hi. split.
    + now apply coords_of_index_in_grid.
    + now apply index_of_coords_of_index.
  - intros p Hp. split.
    + now apply index_of_coords_exact.
    + now apply coords_of_index_of_coords.
Qed.

Lemma probe_index_coords_bijection_witness :
  let data := grid_only (Vec3 2 2 2) in
  (forall i, 0 <= i < probes_total (ProbesCounts data) ->
     coords_in_grid (ProbesCounts data) (GetDDGIProbeCoords data i) /\
     GetDDGIProbeIndex data (GetDDGIProbeCoords data i) = i) /\
  (forall p, coords_in_grid (ProbesCounts data) p ->
     0 <= GetDDGIProbeIndex data p < probes_total (ProbesCounts data) /\
     GetDDGIProbeCoords data (GetDDGIProbeIndex data p) = p).
Proof.
  apply (probe_index_coords_bijection (grid_only (Vec3 2 2 2))).
  - unfold positive_counts, UInt.modulus; simpl; lia.
  - unfold probes_total, UInt.modulus; simpl; lia.
Defined.

(** C2 as stated fails once X*Y*Z exceeds the unsigned range: in the grid
    (65536, 65537, 1) the coordinate (0, 65536, 0) has the index
    65536 * 65536 = 2^32, which wraps to 0, the index of (0, 0, 0). *)
Lemma probe_coords_of_index_overflow :
  let data := grid_only (Vec3 65536 65537 1) in
  let p := Vec3 0 65536 0 in
  positive_counts (ProbesCounts data) /\
  coords_in_grid (ProbesCounts data) p /\
  GetDDGIProbeIndex data p = 0 /\
  GetDDGIProbeCoords data (GetDDGIProbeIndex data p) <> p.
Proof.
  cbv zeta. split; [| split; [| split]].
  - unfold positive_counts, UInt.modulus; simpl; lia.
  - unfold coords_in_grid; simpl; lia.
  - reflexivity.
  - vm_compute. discriminate.
Qed.
End Bijection.

(** ** Scrolling *)

Section Scrolling.
Local Open Scope Z_scope.

Lemma scrolled_component (c s n : Z) :
  0 < n -> - n <= s -> 0 <= c -> c + s + n < UInt.modulus ->
  UInt.rem (UInt.add (UInt.add c (UInt.to_uint s)) n) n = (c + s) mod n.
Proof.
  intros Hn Hs Hc Hfit.
  rewrite add_add_to_uint, to_uint_small by lia.
  rewrite rem_pos by lia.
  replace (c + s + n) with (c + s + 1 * n) by ring.
  apply Z_mod_plus_full.
Qed.

Lemma scrolledCoords_wrapped (data : DDGIData) (cascadeIndex : Z) (p : uint3) :
  positive_counts (ProbesCounts data) ->
  coords_in_grid (ProbesCounts data) p ->
  offset_at_least_minus_counts (ProbesCounts data) (scrollOffset data cascadeIndex) ->
  wrap_sum_fits (ProbesCounts data) p (scrollOffset data cascadeIndex) ->
  scrolledCoords data cascadeIndex p
  = wrappedCoords (ProbesCounts data) p (scrollOffset data cascadeIndex).
Proof.
  unfold positive_counts, coords_in_grid, offset_at_least_minus_counts, wrap_sum_fits.
  intros (Hx & Hy & Hz) (Hpx & Hpy & Hpz) (Hsx & Hsy & Hsz) (Hfx & Hfy & Hfz).
  unfold scrolledCoords, wrappedCoords, scrollOffset in *.
  unfold zip3, map3; cbn [vx vy vz].
  rewrite !scrolled_component by lia. reflexivity.
Qed.

Lemma wrappedCoords_in_grid (counts p : uint3) (offset : int3) :
  positive_counts counts -> coords_in_grid counts (wrappedCoords counts p offset).
Proof.
  unfold positive_counts, coords_in_grid, wrappedCoords, zip3; cbn [vx vy vz].
  intros (Hx & Hy & Hz).
  repeat split; apply Z.mod_pos_bound; lia.
Qed.

(** C10, as amended: for every coordinate triple of the grid and every
    scroll offset with components at least -probesCounts, provided
    coords + scrollOffset + probesCounts stays below 2^32 in every
    component, GetDDGIScrollingProbeIndex returns an index in
    [0, X*Y*Z) equal to
    GetDDGIProbeIndex of the componentwise mathematical modulus
    (coords + scrollOffset) mod probesCounts. *)
Theorem scrolling_index_is_wrapped_index (data : DDGIData) (cascadeIndex : Z) (p : uint3) :
  positive_counts (ProbesCounts data) ->
  coords_in_grid (ProbesCounts data) p ->
  offset_at_least_minus_counts (ProbesCounts data) (scrollOffset data cascadeIndex) ->
  wrap_sum_fits (ProbesCounts data) p (scrollOffset data cascadeIndex) ->
  GetDDGIScrollingProbeIndex data cascadeIndex p
  = GetDDGIProbeIndex data
      (wrappedCoords (ProbesCounts data) p (scrollOffset data cascadeIndex)) /\
  0 <= GetDDGIScrollingProbeIndex data cascadeIndex p < probes_total (ProbesCounts data).
Proof.
  intros Hpos Hin Hoff Hfit.
  unfold GetDDGIScrollingProbeIndex.
  rewrite scrolledCoords_wrapped by assumption.
  split; [reflexivity |].
  destruct (Z_lt_le_dec (probes_total (ProbesCounts data)) UInt.modulus) as [Htot | Htot].
  - apply index_of_coords_exact; try assumption.
    now apply wrappedCoords_in_grid.
  - (* a grid of 2^32 probes or more: every [uint] is below the total *)
    unfold GetDDGIProbeIndex, UInt.add.
    match goal with
    | |- _ <= UInt.to_uint ?a < _ => pose proof (to_uint_range a) as Hr
    end.
    lia.
Qed.

Lemma scrolling_index_is_wrapped_index_witness :
  let data := scrolled_grid (Vec3 4 3 2) (Vec3 (-4) 7 (-1)) in
  let p := Vec3 1 2 0 in
  GetDDGIScrollingProbeIndex data 0 p
  = GetDDGIProbeIndex data (wrappedCoords (ProbesCounts data) p (scrollOffset data 0)) /\
  0 <= GetDDGIScrollingProbeIndex data 0 p < probes_total (ProbesCounts data).
Proof.
  apply (scrolling_index_is_wrapped_index
           (scrolled_grid (Vec3 4 3 2) (Vec3 (-4) 7 (-1))) 0 (Vec3 1 2 0)).
  - unfold positive_counts, UInt.modulus; simpl; lia.
  - unfold coords_in_grid; simpl; lia.
  - unfold offset_at_least_minus_counts; simpl; lia.
  - unfold wrap_sum_fits, UInt.modulus; simpl; lia.
Defined.

(** C10 as stated fails when the sum leaves the unsigned range: with
    3221225472 probes along x, coordinate 3221225471 and scroll offset
    2147483647 the sum 2^33 - 2 wraps to 2^32 - 2, whose remainder
    1073741822 is not the mathematical modulus 2147483646. *)
Lemma scrolling_index_overflow :
  let data := scrolled_grid (Vec3 3221225472 1 1) (Vec3 2147483647 0 0) in
  let p := Vec3 3221225471 0 0 in
  positive_counts (ProbesCounts data) /\
  coords_in_grid (ProbesCounts data) p /\
  offset_at_least_minus_counts (ProbesCounts data) (scrollOffset data 0) /\
  GetDDGIScrollingProbeIndex data 0 p = 1073741822 /\
  GetDDGIProbeIndex data (wrappedCoords (ProbesCounts data) p (scrollOffset data 0))
  = 2147483646 /\
  GetDDGIScrollingProbeIndex data 0 p
  <> GetDDGIProbeIndex data (wrappedCoords (ProbesCounts data) p (scrollOffset data 0)).
Proof.
  cbv zeta. repeat split.
  all: try (unfold positive_counts, coords_in_grid, offset_at_least_minus_counts,
              UInt.modulus; simpl; lia).
  vm_compute. discriminate.
Qed.
End Scrolling.

(** ** Cascade selection *)

Section CascadeSelection.
Local Open Scope R_scope.

Lemma IZR_sub_one (n : Z) :
  (0 < n < UInt.modulus)%Z -> IZR (UInt.sub n 1) = IZR n - 1.
Proof.
  intros Hn. rewrite sub_small by lia. now rewrite minus_IZR.
Qed.

Lemma probesExtent_formula (data : DDGIData) (cascadeIndex : Z) :
  positive_counts (ProbesCounts data) ->
  probesExtent data cascadeIndex
  = map3 (fun n => 0.5 * probesSpacing data cascadeIndex * (IZR n - 1)) (ProbesCounts data).
Proof.
  intros (Hx & Hy & Hz).
  unfold probesExtent, scale3, float3_of, map3; cbn [vx vy vz].
  rewrite !IZR_sub_one by assumption.
  f_equal; ring.
Qed.

Lemma cascadeWeight_fadeWeight (data : DDGIData) (worldPosition : float3) (j : Z) :
  positive_counts (ProbesCounts data) ->
  cascadeWeight data worldPosition j
  = fadeWeight (probesOrigin data j) (probesSpacing data j) (ProbesCounts data)
               worldPosition.
Proof.
  intros Hpos.
  unfold cascadeWeight, fadeWeight, saturate, clampR, Min3.
  rewrite probesExtent_formula by assumption.
  unfold sub3, abs3, zip3, map3; cbn [vx vy vz].
  replace (probesSpacing data j * 0.5) with (0.5 * probesSpacing data j) by ring.
  reflexivity.
Qed.

(** The origin the sampling code uses is the configured origin moved by
    the scroll offset times the spacing. *)
Lemma probesOrigin_scrolledOrigin (data : DDGIData) (j : Z) :
  probesOrigin data j
  = scrolledOrigin (cascadeOrigin data j) (scrollOffset data j) (cascadeSpacing data j).
Proof.
  unfold probesOrigin, scrolledOrigin, cascadeOrigin, cascadeSpacing, scrollOffset,
    probesSpacing.
  unfold add3, scale3, float3_of, zip3, map3; cbn [vx vy vz].
  f_equal; ring.
Qed.

Lemma cascadeWeight_scrolled (data : DDGIData) (worldPosition : float3) (j : Z) :
  positive_counts (ProbesCounts data) ->
  cascadeWeight data worldPosition j
  = fadeWeight (scrolledOrigin (cascadeOrigin data j) (scrollOffset data j)
                               (cascadeSpacing data j))
               (cascadeSpacing data j) (ProbesCounts data) worldPosition.
Proof.
  intros Hpos. rewrite cascadeWeight_fadeWeight by assumption.
  rewrite probesOrigin_scrolledOrigin. reflexivity.
Qed.

(** The loop returns the first index, from [start] on, whose weight
    exceeds the dither value, and [start + remaining] when there is none. *)
Lemma selectCascadeFrom_first (data : DDGIData) (worldPosition : float3) (dither : R)
      (remaining : nat) :
  forall start : Z,
    let k := selectCascadeFrom data worldPosition dither remaining start in
    (start <= k <= start + Z.of_nat remaining)%Z /\
    (forall j, (start <= j < k)%Z -> ~ cascadeWeight data worldPosition j > dither) /\
    ((k < start + Z.of_nat remaining)%Z -> cascadeWeight data worldPosition k > dither).
Proof.
  induction remaining as [| n IH]; intros start; cbn [selectCascadeFrom].
  - cbv zeta. repeat split; try (intros; lia).
  - destruct (Rgt_dec (cascadeWeight data worldPosition start) dither) as [Hgt | Hle].
    + cbv zeta. repeat split; try (intros; lia). intros _; exact Hgt.
    + specialize (IH (start + 1)%Z). cbv zeta in *.
      destruct IH as (Hrange & Hbefore & Hat).
      repeat split; try lia.
      * intros j Hj.
        destruct (Z.eq_dec j start) as [-> | Hne]; [exact Hle |].
        apply Hbefore; lia.
      * intros Hlt. apply Hat; lia.
Qed.

Lemma selectCascade_first (data : DDGIData) (worldPosition : float3) (dither : R) :
  (0 <= CascadesCount data)%Z ->
  let k := selectCascade data worldPosition dither in
  (0 <= k <= CascadesCount data)%Z /\
  (forall j, (0 <= j < k)%Z -> ~ cascadeWeight data worldPosition j > dither) /\
  ((k < CascadesCount data)%Z -> cascadeWeight data worldPosition k > dither).
Proof.
  intros Hc. unfold selectCascade.
  pose proof (selectCascadeFrom_first data worldPosition dither
                (Z.to_nat (CascadesCount data)) 0%Z) as H.
  cbv zeta in *. rewrite Z2Nat.id in H by assumption.
  exact H.
Qed.

(** The index the loop stops at is determined by the property of being
    the first cascade whose weight exceeds the dither value. *)
Lemma selectCascade_unique (data : DDGIData) (worldPosition : float3) (dither : R) (k : Z) :
  (0 <= k < CascadesCount data)%Z ->
  cascadeWeight data worldPosition k > dither ->
  (forall j, (0 <= j < k)%Z -> ~ cascadeWeight data worldPosition j > dither) ->
  selectCascade data worldPosition dither = k.
Proof.
  intros Hk Hgt Hbefore.
  destruct (selectCascade_first data worldPosition dither ltac:(lia))
    as (Hrange & Hfirst & Hat).
  set (k' := selectCascade data worldPosition dither) in *.
  destruct (Z.lt_trichotomy k' k) as [Hlt | [Heq | Hlt]].
  - exfalso. apply (Hbefore k'); [lia |]. apply Hat; lia.
  - exact Heq.
  - exfalso. apply (Hfirst k); [lia | exact Hgt].
Qed.

Lemma selectCascade_none (data : DDGIData) (worldPosition : float3) (dither : R) :
  (0 <= CascadesCount data)%Z ->
  (forall j, (0 <= j < CascadesCount data)%Z ->
     ~ cascadeWeight data worldPosition j > dither) ->
  selectCascade data worldPosition dither = CascadesCount data.
Proof.
  intros Hc Hnone.
  destruct (selectCascade_first data worldPosition dither Hc) as (Hrange & _ & Hat).
  set (k' := selectCascade data worldPosition dither) in *.
  destruct (Z.eq_dec k' (CascadesCount data)) as [Heq | Hne]; [exact Heq |].
  exfalso. apply (Hnone k'); [lia |]. apply Hat; lia.
Qed.
End CascadeSelection.

Section CascadeSelectionClaim.
Local Open Scope R_scope.
Variable GetOctahedralCoords : float3 -> float2.
Variable srgbBlending : bool.
Variable data : DDGIData.
Variables probesState probesDistance probesIrradiance : Texture2D.

Let sample := SampleDDGIIrradiance GetOctahedralCoords srgbBlending data
                                   probesState probesDistance probesIrradiance.
Let blend := sampleCascade GetOctahedralCoords srgbBlending data
                           probesState probesDistance probesIrradiance.

(** C1, as amended: for every world position and dither value in [0,1),
    and every configuration with cascadesCount in 1..4 (and a grid with
    positive components), SampleDDGIIrradiance takes the first cascade,
    in ascending index order, whose fade weight
    clamp(min-over-axes(extent - |worldPos - (origin + scrollOffset *
    spacing)|) / fadeDistance, 0, 1), with origin the configured origin
    of the cascade, extent = 0.5 * spacing * (counts - 1) and
    fadeDistance = 0.5 * spacing, is strictly greater than the dither
    value and blends the probes of that cascade; when no cascade has such
    a weight it returns fallbackIrradiance itself. *)
Theorem cascade_first_match_or_fallback
        (worldPosition worldNormal : float3) (bias dither : R) :
  positive_counts (ProbesCounts data) ->
  (1 <= CascadesCount data <= 4)%Z ->
  0 <= dither < 1 ->
  let weight j :=
    fadeWeight (scrolledOrigin (cascadeOrigin data j) (scrollOffset data j)
                               (cascadeSpacing data j))
               (cascadeSpacing data j) (ProbesCounts data) worldPosition in
  (forall k, (0 <= k < CascadesCount data)%Z ->
     weight k > dither ->
     (forall j, (0 <= j < k)%Z -> ~ weight j > dither) ->
     selectCascade data worldPosition dither = k /\
     sample worldPosition worldNormal bias dither
     = blend k worldPosition worldNormal bias) /\
  ((forall j, (0 <= j < CascadesCount data)%Z -> ~ weight j > dither) ->
     selectCascade data worldPosition dither = CascadesCount data /\
     sample worldPosition worldNormal bias dither = FallbackIrradiance data).
Proof.
  intros Hpos Hcount Hdither weight.
  assert (Hw : forall j, cascadeWeight data worldPosition j = weight j).
  { intros j. now apply cascadeWeight_scrolled. }
  split.
  - intros k Hk Hgt Hbefore.
    assert (Hsel : selectCascade data worldPosition dither = k).
    { apply selectCascade_unique; [exact Hk | now rewrite Hw |].
      intros j Hj. rewrite Hw. now apply Hbefore. }
    split; [exact Hsel |].
    unfold sample, SampleDDGIIrradiance. rewrite Hsel.
    destruct (Z.eqb_spec k (CascadesCount data)) as [Heq | _]; [lia | reflexivity].
  - intros Hnone.
    assert (Hsel : selectCascade data worldPosition dither = CascadesCount data).
    { apply selectCascade_none; [lia |].
      intros j Hj. rewrite Hw. now apply Hnone. }
    split; [exact Hsel |].
    unfold sample, SampleDDGIIrradiance. rewrite Hsel, Z.eqb_refl. reflexivity.
Qed.
End CascadeSelectionClaim.

(** ** The base probe and the corner probes *)

Section BaseProbe.
Local Open Scope R_scope.

Lemma ftou_clamped (q : R) (n : Z) :
  (0 < n < UInt.modulus)%Z ->
  UInt.clamp (ftou q) 0 (UInt.sub n 1) = clampZ (Zfloor q) 0 (n - 1).
Proof.
  intros Hn. unfold UInt.clamp, clampZ, ftou.
  rewrite sub_small by lia.
  unfold UInt.modulus in Hn.
  destruct (Rlt_dec q 0) as [Hneg | Hnonneg].
  - rewrite Rmax_right by lra. rewrite Rmin_left by lra.
    replace 0 with (IZR 0) by reflexivity. rewrite ZfloorZ.
    assert (Zfloor q < 0)%Z.
    { pose proof (Zfloor_bound q) as [Hlo _].
      apply lt_IZR. lra. }
    lia.
  - rewrite Rmax_left by lra.
    destruct (Rle_dec q 4294967295.999) as [Hle | Hgt].
    + rewrite Rmin_left by lra. reflexivity.
    + rewrite Rmin_right by lra.
      assert (Hfl : Zfloor 4294967295.999 = 4294967295%Z).
      { apply Zfloor_eq. lra. }
      rewrite Hfl.
      assert (4294967295 <= Zfloor q)%Z.
      { apply Zfloor_lub. lra. }
      lia.
Qed.

Lemma ftou_negative (q : R) : q < 0 -> ftou q = 0%Z.
Proof.
  intros Hq. unfold ftou.
  rewrite Rmax_right by lra. rewrite Rmin_left by lra.
  replace 0 with (IZR 0) by reflexivity. apply ZfloorZ.
Qed.

Lemma clamp_zero (n : Z) : (0 < n < UInt.modulus)%Z -> UInt.clamp 0 0 (UInt.sub n 1) = 0%Z.
Proof. intros Hn. unfold UInt.clamp. rewrite sub_small by lia. lia. Qed.

(** With the saturating conversion of Direct3D ([ftou]) the clamped
    conversion is the clamped floor at every position, selected cascade
    or not, and a negative quotient gives 0. *)
Lemma baseProbeCoords_saturating (data : DDGIData) (cascadeIndex : Z)
      (worldPosition : float3) :
  positive_counts (ProbesCounts data) ->
  let origin := probesOrigin data cascadeIndex in
  let spacing := probesSpacing data cascadeIndex in
  let extent := map3 (fun n => 0.5 * spacing * (IZR n - 1)) (ProbesCounts data) in
  let quotient := map3 (fun c => c / spacing) (add3 (sub3 worldPosition origin) extent) in
  let base := baseProbeCoords data cascadeIndex worldPosition in
  base = baseCoordsFormula origin spacing (ProbesCounts data) worldPosition /\
  (vx quotient < 0 -> vx base = 0%Z) /\
  (vy quotient < 0 -> vy base = 0%Z) /\
  (vz quotient < 0 -> vz base = 0%Z).
Proof.
  intros Hpos. cbv zeta.
  unfold baseProbeCoords, baseCoordsFormula, clampToGrid.
  rewrite probesExtent_formula by assumption.
  destruct Hpos as (Hx & Hy & Hz).
  unfold div3, zip3, map3; cbn [vx vy vz].
  rewrite !ftou_clamped by assumption.
  split; [reflexivity |].
  repeat split; intros Hq.
  - rewrite <- ftou_clamped by assumption.
    rewrite ftou_negative by exact Hq. now apply clamp_zero.
  - rewrite <- (ftou_clamped _ (vy (ProbesCounts data))) by assumption.
    rewrite ftou_negative by exact Hq. now apply clamp_zero.
  - rewrite <- (ftou_clamped _ (vz (ProbesCounts data))) by assumption.
    rewrite ftou_negative by exact Hq. now apply clamp_zero.
Qed.

Lemma clampToGrid_in_grid (data : DDGIData) (c : uint3) :
  positive_counts (ProbesCounts data) ->
  coords_in_grid (ProbesCounts data) (clampToGrid data c).
Proof.
  intros (Hx & Hy & Hz).
  unfold coords_in_grid, clampToGrid, zip3, UInt.clamp; cbn [vx vy vz].
  rewrite !sub_small by lia. lia.
Qed.

Lemma baseProbeCoords_in_grid (data : DDGIData) (cascadeIndex : Z)
      (worldPosition : float3) :
  positive_counts (ProbesCounts data) ->
  coords_in_grid (ProbesCounts data) (baseProbeCoords data cascadeIndex worldPosition).
Proof. intros Hpos. now apply clampToGrid_in_grid. Qed.

(** Without scrolling the origin used for sampling is the configured one. *)
Lemma probesOrigin_no_scroll (data : DDGIData) (cascadeIndex : Z) :
  scrollOffset data cascadeIndex = (Vec3 0 0 0)%Z ->
  probesOrigin data cascadeIndex
  = xyz (float4_at (ProbesOriginAndSpacing data) cascadeIndex).
Proof.
  unfold scrollOffset, probesOrigin. intros ->.
  destruct (xyz (float4_at (ProbesOriginAndSpacing data) cascadeIndex)) as [a b c].
  unfold add3, scale3, float3_of, zip3, map3; cbn [vx vy vz].
  f_equal; ring.
Qed.

Lemma saturate_positive (a : R) : 0 < saturate a -> 0 < a.
Proof.
  unfold saturate. intros H.
  destruct (Rle_dec a 0) as [Hle | Hgt]; [| lra].
  rewrite Rmax_right in H by exact Hle.
  rewrite Rmin_left in H by lra. lra.
Qed.

Lemma margin_quotient (n : Z) (s d : R) :
  0 < s -> 0 < IZR n * (s * 0.5) - Rabs d ->
  0 < (d + IZR n * (s * 0.5)) / s < IZR n.
Proof.
  intros Hs Hmargin.
  assert (Habs : Rabs d < IZR n * (s * 0.5)) by lra.
  apply Rabs_def2 in Habs. destruct Habs as [Hhi Hlo].
  split.
  - apply Rdiv_lt_0_compat; lra.
  - apply Rmult_lt_reg_r with s; [exact Hs |].
    unfold Rdiv. rewrite Rmult_assoc, Rinv_l by lra. lra.
Qed.

(** In a cascade whose weight exceeds a nonnegative dither value the
    quotient converted to the base coordinate lies strictly between 0 and
    counts - 1 on every axis: the conversion never sees a value that is
    negative or out of the unsigned range. *)
Lemma selected_quotient_in_range (data : DDGIData) (worldPosition : float3)
      (cascadeIndex : Z) (dither : R) :
  positive_counts (ProbesCounts data) ->
  0 < probesSpacing data cascadeIndex ->
  0 <= dither ->
  cascadeWeight data worldPosition cascadeIndex > dither ->
  let q := div3 (add3 (sub3 worldPosition (probesOrigin data cascadeIndex))
                      (probesExtent data cascadeIndex))
                (probesSpacing data cascadeIndex) in
  0 < vx q < IZR (vx (ProbesCounts data)) - 1 /\
  0 < vy q < IZR (vy (ProbesCounts data)) - 1 /\
  0 < vz q < IZR (vz (ProbesCounts data)) - 1.
Proof.
  intros (Hx & Hy & Hz) Hs Hdither Hweight. cbv zeta.
  unfold cascadeWeight in Hweight.
  assert (Hsat : 0 < Min3 (sub3 (probesExtent data cascadeIndex)
                                (abs3 (sub3 worldPosition (probesOrigin data cascadeIndex))))
                     / (probesSpacing data cascadeIndex * 0.5)).
  { apply saturate_positive. lra. }
  set (s := probesSpacing data cascadeIndex) in *.
  assert (Hmin : 0 < Min3 (sub3 (probesExtent data cascadeIndex)
                                (abs3 (sub3 worldPosition (probesOrigin data cascadeIndex))))).
  { match type of Hsat with 0 < ?m / ?f =>
      assert (Hf : 0 < f) by lra;
      replace m with (m / f * f) by (field; lra);
      apply Rmult_lt_0_compat; assumption
    end. }
  clear Hsat Hweight.
  unfold Min3, probesExtent, sub3, add3, abs3, div3, scale3, float3_of, zip3, map3 in *.
  cbn [vx vy vz] in *. fold s in Hmin |- *.
  match type of Hmin with 0 < Rmin (Rmin ?a ?b) ?c =>
    pose proof (Rmin_l (Rmin a b) c) as H1;
    pose proof (Rmin_r (Rmin a b) c) as H2;
    pose proof (Rmin_l a b) as H3;
    pose proof (Rmin_r a b) as H4
  end.
  rewrite <- !IZR_sub_one by assumption.
  repeat split; apply margin_quotient; lra.
Qed.

(** The model's conversion truncates the values of the unsigned range. *)
Lemma ftou_truncates_in_range : truncates_in_range ftou.
Proof.
  intros q [Hlo Hhi]. unfold ftou.
  rewrite Rmax_left by lra.
  destruct (Rle_dec q 4294967295.999) as [Hle | Hgt].
  - rewrite Rmin_left by lra. reflexivity.
  - rewrite Rmin_right by lra.
    assert (Hfl : Zfloor 4294967295.999 = 4294967295%Z) by (apply Zfloor_eq; lra).
    rewrite Hfl. symmetry. apply Zfloor_eq. lra.
Qed.

(** The quotient the sampling code converts, written with the configured
    origin and the scroll offset. *)
Lemma quotient_scrolled (data : DDGIData) (cascadeIndex : Z) (worldPosition : float3) :
  positive_counts (ProbesCounts data) ->
  div3 (add3 (sub3 worldPosition (probesOrigin data cascadeIndex))
             (probesExtent data cascadeIndex))
       (probesSpacing data cascadeIndex)
  = let spacing := cascadeSpacing data cascadeIndex in
    let origin := scrolledOrigin (cascadeOrigin data cascadeIndex)
                                 (scrollOffset data cascadeIndex) spacing in
    let extent := map3 (fun n => 0.5 * spacing * (IZR n - 1)) (ProbesCounts data) in
    map3 (fun c => c / spacing) (add3 (sub3 worldPosition origin) extent).
Proof.
  intros Hpos. cbv zeta.
  rewrite probesExtent_formula by assumption.
  rewrite probesOrigin_scrolledOrigin.
  reflexivity.
Qed.

(** A conversion that truncates in range, applied to a value strictly
    between 0 and n - 1 and clamped to the grid, gives the floor. *)
Lemma clamp_convert_in_range (convert : R -> Z) (q : R) (n : Z) :
  truncates_in_range convert ->
  (0 < n < UInt.modulus)%Z ->
  0 < q < IZR n - 1 ->
  UInt.clamp (convert q) 0 (UInt.sub n 1) = Zfloor q /\
  clampZ (Zfloor q) 0 (n - 1) = Zfloor q.
Proof.
  intros Hconvert Hn [Hlo Hhi].
  assert (Hn' : IZR n <= 4294967295).
  { apply IZR_le. unfold UInt.modulus in Hn. lia. }
  rewrite Hconvert by lra.
  assert (Hfloor : (0 <= Zfloor q <= n - 1)%Z).
  { split.
    - apply Zfloor_lub. simpl. lra.
    - pose proof (Zfloor_bound q) as [Hfl _].
      assert (IZR (Zfloor q) < IZR (n - 1)) by (rewrite minus_IZR; lra).
      apply lt_IZR in H. lia. }
  unfold UInt.clamp, clampZ. rewrite sub_small by lia.
  split; lia.
Qed.

Lemma ftou_saturates_negative : saturates_negative ftou.
Proof. intros q Hq. now apply ftou_negative. Qed.

(** C5, as amended: for every world position in a cascade whose fade
    weight exceeds a dither value of at least 0, as in a selected cascade
    (positive spacing, grid with positive components), the base probe
    coordinate computed by SampleDDGIIrradiance is, componentwise,
    clamp(floor((worldPos - (origin + scrollOffset * spacing) + extent) /
    spacing), 0, counts - 1), with origin the configured origin of the
    cascade and extent = 0.5 * spacing * (counts - 1).  There every
    component of the quotient lies strictly between 0 and counts - 1, so
    no component is negative, the coordinate is the floor of the quotient,
    and it is the same for every float-to-uint conversion that truncates
    the values of the unsigned range.  At any position, where a component
    of the quotient is negative the component of the result is 0 for
    every conversion that gives 0 on the negative values. *)
Theorem base_probe_coords_formula (data : DDGIData) (cascadeIndex : Z)
        (worldPosition : float3) :
  positive_counts (ProbesCounts data) ->
  let spacing := cascadeSpacing data cascadeIndex in
  let origin := scrolledOrigin (cascadeOrigin data cascadeIndex)
                               (scrollOffset data cascadeIndex) spacing in
  let extent := map3 (fun n => 0.5 * spacing * (IZR n - 1)) (ProbesCounts data) in
  let quotient := map3 (fun c => c / spacing) (add3 (sub3 worldPosition origin) extent) in
  let base := baseProbeCoords data cascadeIndex worldPosition in
  (forall dither,
     0 < spacing -> 0 <= dither ->
     cascadeWeight data worldPosition cascadeIndex > dither ->
     base = baseCoordsFormula origin spacing (ProbesCounts data) worldPosition /\
     (0 < vx quotient < IZR (vx (ProbesCounts data)) - 1 /\
      0 < vy quotient < IZR (vy (ProbesCounts data)) - 1 /\
      0 < vz quotient < IZR (vz (ProbesCounts data)) - 1) /\
     base = map3 Zfloor quotient /\
     (forall convert, truncates_in_range convert ->
        baseProbeCoordsWith convert data cascadeIndex worldPosition = base)) /\
  (forall convert, saturates_negative convert ->
     let converted := baseProbeCoordsWith convert data cascadeIndex worldPosition in
     (vx quotient < 0 -> vx converted = 0%Z) /\
     (vy quotient < 0 -> vy converted = 0%Z) /\
     (vz quotient < 0 -> vz converted = 0%Z)).
Proof.
  intros Hpos. cbv zeta.
  pose proof (quotient_scrolled data cascadeIndex worldPosition Hpos) as Hq.
  cbv zeta in Hq.
  split.
  - intros dither Hs Hdither Hweight.
    pose proof (selected_quotient_in_range data worldPosition cascadeIndex dither
                  Hpos Hs Hdither Hweight) as Hrange.
    cbv zeta in Hrange.
    unfold baseProbeCoords, baseProbeCoordsWith, baseCoordsFormula, clampToGrid.
    rewrite Hq in *. clear Hq.
    set (q := map3 (fun c => c / cascadeSpacing data cascadeIndex) _) in *.
    destruct Hpos as (Hx & Hy & Hz).
    destruct Hrange as (Hqx & Hqy & Hqz).
    assert (Hconv : forall convert, truncates_in_range convert ->
              zip3 (fun c n => UInt.clamp c 0 (UInt.sub n 1)) (map3 convert q)
                   (ProbesCounts data)
              = map3 Zfloor q).
    { intros convert Hconvert. unfold zip3, map3; cbn [vx vy vz].
      f_equal; now apply clamp_convert_in_range. }
    assert (Hformula : zip3 (fun c n => clampZ (Zfloor c) 0 (n - 1)) q (ProbesCounts data)
                       = map3 Zfloor q).
    { unfold zip3, map3; cbn [vx vy vz].
      f_equal; now apply (clamp_convert_in_range ftou); try apply ftou_truncates_in_range. }
    rewrite (Hconv ftou ftou_truncates_in_range), Hformula.
    split; [reflexivity |].
    split; [exact (conj Hqx (conj Hqy Hqz)) |].
    split; [reflexivity |].
    intros convert Hconvert. now apply Hconv.
  - intros convert Hconvert.
    unfold baseProbeCoordsWith, clampToGrid.
    rewrite Hq. clear Hq.
    destruct Hpos as (Hx & Hy & Hz).
    unfold zip3, map3; cbn [vx vy vz].
    repeat split; intros Hneg; rewrite (Hconvert _ Hneg); now apply clamp_zero.
Qed.
End BaseProbe.

Section CornerProbes.
Local Open Scope R_scope.

Lemma probeCoordsOffset_bits (i : Z) :
  (0 <= i < 8)%Z ->
  is_bit (vx (probeCoordsOffset i)) /\
  is_bit (vy (probeCoordsOffset i)) /\
  is_bit (vz (probeCoordsOffset i)).
Proof.
  intros Hi.
  assert (Hcases : (i = 0 \/ i = 1 \/ i = 2 \/ i = 3 \/ i = 4 \/ i = 5 \/ i = 6 \/ i = 7)%Z)
    by lia.
  unfold is_bit.
  repeat (destruct Hcases as [-> | Hcases]); [.. | subst i];
    vm_compute; intuition congruence.
Qed.

(** A corner coordinate lies between the base coordinate and the last
    coordinate of the grid, so the unsigned difference does not wrap. *)
Lemma corner_component (n b o : Z) :
  (0 < n < UInt.modulus)%Z -> (0 <= b < n)%Z -> is_bit o ->
  let c := UInt.clamp (UInt.add b o) 0 (UInt.sub n 1) in
  (b <= c < n)%Z /\ IZR (UInt.sub c b) = IZR c - IZR b.
Proof.
  intros Hn Hb Ho. cbv zeta. unfold UInt.clamp.
  rewrite (sub_small n 1) by lia.
  rewrite add_small by (destruct Ho; subst; lia).
  assert (Hc : (b <= Z.min (Z.max (b + o) 0) (n - 1) < n)%Z)
    by (destruct Ho; subst; lia).
  split; [exact Hc |].
  rewrite sub_small by lia. apply minus_IZR.
Qed.

Lemma world_position_formula (data : DDGIData) (cascadeIndex : Z) (coords : uint3) :
  positive_counts (ProbesCounts data) ->
  GetDDGIProbeWorldPosition data cascadeIndex coords
  = probePositionFormula (xyz (float4_at (ProbesOriginAndSpacing data) cascadeIndex))
                         (probesSpacing data cascadeIndex) (ProbesCounts data)
                         (scrollOffset data cascadeIndex) coords.
Proof.
  intros (Hx & Hy & Hz).
  unfold GetDDGIProbeWorldPosition, probePositionFormula, probesSpacing, scrollOffset.
  unfold add3, sub3, scale3, scale3l, float3_of, zip3, map3; cbn [vx vy vz].
  rewrite !IZR_sub_one by assumption.
  f_equal; ring.
Qed.

(** C8: for every cascade, every base probe coordinate of the grid and
    every corner index i of the loop (offset (i, i>>1, i>>2) & 1), the
    position the loop reconstructs, baseProbeWorldPosition +
    (probeCoords - baseProbeCoords) * spacing, equals
    GetDDGIProbeWorldPosition(data, cascadeIndex, probeCoords), which in
    turn is origin + coords*spacing - 0.5*spacing*(counts-1) +
    scrollOffset*spacing. *)
Theorem corner_position_incremental_is_direct (data : DDGIData) (cascadeIndex : Z)
        (base : uint3) (i : Z) :
  positive_counts (ProbesCounts data) ->
  coords_in_grid (ProbesCounts data) base ->
  (0 <= i < 8)%Z ->
  let probeCoords := cornerProbeCoords data base i in
  probeBasePosition data cascadeIndex base probeCoords
  = GetDDGIProbeWorldPosition data cascadeIndex probeCoords /\
  GetDDGIProbeWorldPosition data cascadeIndex probeCoords
  = probePositionFormula (xyz (float4_at (ProbesOriginAndSpacing data) cascadeIndex))
                         (probesSpacing data cascadeIndex) (ProbesCounts data)
                         (scrollOffset data cascadeIndex) probeCoords.
Proof.
  intros Hpos Hbase Hi. cbv zeta.
  split; [| now apply world_position_formula].
  destruct (probeCoordsOffset_bits i Hi) as (Hox & Hoy & Hoz).
  destruct Hpos as (Hx & Hy & Hz). destruct Hbase as (Hbx & Hby & Hbz).
  destruct (corner_component _ _ _ Hx Hbx Hox) as [_ Hdx].
  destruct (corner_component _ _ _ Hy Hby Hoy) as [_ Hdy].
  destruct (corner_component _ _ _ Hz Hbz Hoz) as [_ Hdz].
  unfold probeBasePosition, GetDDGIProbeWorldPosition, cornerProbeCoords, clampToGrid,
    probesSpacing.
  unfold add3, sub3, scale3, scale3l, float3_of, zip3, map3; cbn [vx vy vz].
  rewrite Hdx, Hdy, Hdz.
  f_equal; ring.
Qed.
End CornerProbes.

(** ** The weight of a probe *)

Section WeightBounds.
Local Open Scope R_scope.

Lemma dot_self_nonneg (a : float3) : 0 <= dot a a.
Proof. unfold dot. nra. Qed.

Lemma dot_self_zero (a : float3) : dot a a = 0 -> vx a = 0 /\ vy a = 0 /\ vz a = 0.
Proof. unfold dot. intros H. repeat split; nra. Qed.

(** A normalised vector has squared length 1, or 0 for the zero vector. *)
Lemma normalize_dot_self (a : float3) : dot (normalize a) (normalize a) <= 1.
Proof.
  pose proof (dot_self_nonneg a) as Hnn.
  destruct (Req_dec (dot a a) 0) as [Hzero | Hnz].
  - destruct (dot_self_zero a Hzero) as (Hx & Hy & Hz).
    unfold normalize, div3, map3, dot; cbn [vx vy vz].
    rewrite Hx, Hy, Hz. unfold Rdiv. rewrite !Rmult_0_l. lra.
  - assert (Hpos : 0 < dot a a) by lra.
    pose proof (sqrt_sqrt (dot a a) Hnn) as Hsq.
    pose proof (sqrt_lt_R0 (dot a a) Hpos) as Hlen.
    unfold normalize, length, div3, map3.
    set (l := sqrt (dot a a)) in *.
    unfold dot in *; cbn [vx vy vz].
    replace (vx a / l * (vx a / l) + vy a / l * (vy a / l) + vz a / l * (vz a / l))
      with ((vx a * vx a + vy a * vy a + vz a * vz a) / (l * l)) by (field; lra).
    rewrite Hsq. right. field. lra.
Qed.

(** Cauchy-Schwarz for a vector of length at most 1 and a unit vector. *)
Lemma dot_unit_bound (u n : float3) :
  dot u u <= 1 -> dot n n = 1 -> -1 <= dot u n <= 1.
Proof.
  unfold dot. intros Hu Hn.
  pose proof (Rle_0_sqr (vx u * vy n - vy u * vx n)) as H1.
  pose proof (Rle_0_sqr (vx u * vz n - vz u * vx n)) as H2.
  pose proof (Rle_0_sqr (vy u * vz n - vz u * vy n)) as H3.
  unfold Rsqr in *.
  set (t := vx u * vx n + vy u * vy n + vz u * vz n).
  assert (Hcs : t * t <= (vx u * vx u + vy u * vy u + vz u * vz u)
                         * (vx n * vx n + vy n * vy n + vz n * vz n)).
  { unfold t. nra. }
  rewrite Hn in Hcs. nra.
Qed.

Lemma backfaceWeight_bounds (probePosition worldPosition worldNormal : float3) :
  dot worldNormal worldNormal = 1 ->
  0 <= backfaceWeight probePosition worldPosition worldNormal <= 1.
Proof.
  intros Hn. unfold backfaceWeight, Square.
  pose proof (dot_unit_bound _ _
                (normalize_dot_self (sub3 probePosition worldPosition)) Hn) as Hd.
  set (t := dot (normalize (sub3 probePosition worldPosition)) worldNormal) in *.
  nra.
Qed.

Lemma chebyshev_bounds (variance e : R) :
  0 <= variance -> 0 < e -> 0 <= variance / (variance + e) <= 1.
Proof.
  intros Hv He.
  assert (Hd : 0 < variance + e) by lra.
  split.
  - apply Rmult_le_pos; [exact Hv |]. left. now apply Rinv_0_lt_compat.
  - apply Rmult_le_reg_r with (variance + e); [exact Hd |].
    unfold Rdiv. rewrite Rmult_assoc, Rinv_l by lra. lra.
Qed.

Lemma cube_bounds (c : R) : 0 <= c <= 1 -> 0 <= c * c * c <= 1.
Proof. intros Hc. assert (0 <= c * c <= 1) by nra. nra. Qed.

Lemma sq_is_Square (a : R) : a ^ 2 = Square a.
Proof. unfold Square. ring. Qed.

Lemma cube_is_product (a : R) : a ^ 3 = a * a * a.
Proof. ring. Qed.

(** The factor lies in [0.05, 1] whenever the distance exceeds the mean,
    whatever the stored moments are. *)
Lemma visibilityFactor_bounds (stored0 stored1 d : R) :
  0.05 <= visibilityFactor stored0 stored1 d /\
  (d > 2 * stored0 -> visibilityFactor stored0 stored1 d <= 1).
Proof.
  unfold visibilityFactor. split; [apply Rmax_r |].
  intros Hd.
  set (variance := Rabs ((2 * stored0) ^ 2 - 2 * stored1)).
  assert (Hv : 0 <= variance) by apply Rabs_pos.
  assert (He : 0 < (d - 2 * stored0) ^ 2) by nra.
  pose proof (chebyshev_bounds variance _ Hv He) as Hc.
  rewrite cube_is_product.
  apply Rmax_lub; [| lra].
  now apply cube_bounds.
Qed.

(** The code's visibility step is the multiplication by the factor, made
    only when the distance exceeds the mean. *)
Lemma visibilityWeight_cases (weight d : R) (sampled : float4) :
  (d > 2 * vx (xyz sampled) ->
   visibilityWeight weight d sampled
   = weight * visibilityFactor (vx (xyz sampled)) (vy (xyz sampled)) d) /\
  (d <= 2 * vx (xyz sampled) -> visibilityWeight weight d sampled = weight).
Proof.
  unfold visibilityWeight, visibilityFactor; cbn [px py].
  replace (2 * vx (xyz sampled)) with (vx (xyz sampled) * 2) by ring.
  replace (2 * vy (xyz sampled)) with (vy (xyz sampled) * 2) by ring.
  rewrite cube_is_product, !sq_is_Square.
  destruct (Rgt_dec d (vx (xyz sampled) * 2)) as [Hgt | Hle]; split; intros H;
    try reflexivity; lra.
Qed.

Lemma visibilityWeight_bounds (weight d : R) (sampled : float4) :
  0 <= weight <= 1 -> 0 <= visibilityWeight weight d sampled <= 1.
Proof.
  intros Hw.
  destruct (visibilityWeight_cases weight d sampled) as [Hgt Hle].
  destruct (Rgt_dec d (2 * vx (xyz sampled))) as [H | H].
  - rewrite Hgt by exact H.
    destruct (visibilityFactor_bounds (vx (xyz sampled)) (vy (xyz sampled)) d) as [Hlo Hhi].
    specialize (Hhi H). nra.
  - rewrite Hle by lra. exact Hw.
Qed.

Lemma adjustWeight_pos (weight : R) : 0 < adjustWeight weight.
Proof.
  unfold adjustWeight, Square.
  pose proof (Rmax_r weight 0.000001) as Hfloor.
  set (v := Rmax weight 0.000001) in *.
  destruct (Rlt_dec v 0.2) as [Hlow | Hhigh]; [| lra].
  assert (0 < v * v) by nra.
  assert (0 < 1 / (0.2 * 0.2)) by lra.
  assert (0 < v * v * (1 / (0.2 * 0.2))) by (apply Rmult_lt_0_compat; assumption).
  apply Rmult_lt_0_compat; lra.
Qed.

Lemma adjustWeight_le_one (weight : R) : weight <= 1 -> adjustWeight weight <= 1.
Proof.
  intros Hw. unfold adjustWeight, Square.
  pose proof (Rmax_r weight 0.000001) as Hfloor.
  assert (Hmax : Rmax weight 0.000001 <= 1) by (apply Rmax_lub; lra).
  set (v := Rmax weight 0.000001) in *.
  destruct (Rlt_dec v 0.2) as [Hlow | Hhigh]; [| lra].
  assert (Hsq : 0 < v * v < 0.04) by nra.
  assert (Hinv : 1 / (0.2 * 0.2) = 25) by lra.
  rewrite Hinv.
  assert (v * (v * v) < 0.2 * 0.04) by nra.
  lra.
Qed.

Lemma lerp_bit (a : R) (o : Z) :
  is_bit o -> 0 <= a <= 1 -> 0 <= lerp (1 - a) a (IZR o) <= 1.
Proof.
  intros [-> | ->] Ha; unfold lerp; lra.
Qed.

Lemma trilinearWeight_bounds (biasAlpha : float3) (offset : uint3) :
  0 <= vx biasAlpha <= 1 -> 0 <= vy biasAlpha <= 1 -> 0 <= vz biasAlpha <= 1 ->
  is_bit (vx offset) -> is_bit (vy offset) -> is_bit (vz offset) ->
  0.001 <= trilinearWeight biasAlpha offset <= 1.
Proof.
  intros Hax Hay Haz Hox Hoy Hoz. unfold trilinearWeight; cbn [vx vy vz].
  pose proof (lerp_bit _ _ Hox Hax) as Hx.
  pose proof (lerp_bit _ _ Hoy Hay) as Hy.
  pose proof (lerp_bit _ _ Hoz Haz) as Hz.
  set (tx := lerp (1 - vx biasAlpha) (vx biasAlpha) (IZR (vx offset))) in *.
  set (ty := lerp (1 - vy biasAlpha) (vy biasAlpha) (IZR (vy offset))) in *.
  set (tz := lerp (1 - vz biasAlpha) (vz biasAlpha) (IZR (vz offset))) in *.
  split; [apply Rmax_r |].
  apply Rmax_lub; [| lra].
  assert (0 <= tx * ty <= 1) by nra. nra.
Qed.

Lemma trilinearWeight_pos (biasAlpha : float3) (offset : uint3) :
  0 < trilinearWeight biasAlpha offset.
Proof.
  unfold trilinearWeight.
  match goal with |- 0 < Rmax ?a ?b => pose proof (Rmax_r a b) end. lra.
Qed.

Lemma saturate_bounds (a : R) : 0 <= saturate a <= 1.
Proof.
  unfold saturate. split.
  - apply Rmin_glb; [apply Rmax_r | lra].
  - apply Rmin_r.
Qed.
End WeightBounds.

Section ProbeWeightClaims.
Local Open Scope R_scope.
Variable GetOctahedralCoords : float3 -> float2.
Variable data : DDGIData.
Variable probesDistance : Texture2D.

Let weightOf := probeWeight GetOctahedralCoords data probesDistance.

Lemma probeWeight_pos (cascadeIndex probeIndex : Z)
      (probePosition worldPosition worldNormal biasedWorldPosition biasAlpha : float3)
      (offset : uint3) :
  0 < weightOf cascadeIndex probeIndex probePosition worldPosition worldNormal
               biasedWorldPosition biasAlpha offset.
Proof.
  unfold weightOf, probeWeight.
  apply Rmult_lt_0_compat; [apply adjustWeight_pos | apply trilinearWeight_pos].
Qed.

(** C4: for a probe of the loop, with d the distance of the biased point
    to the probe and (mean, meanSquare) twice the two channels sampled
    from the distance atlas in the direction -normalize(probePos -
    biasedPos), the backface weight is multiplied by
    max(chebyshev^3, 0.05), chebyshev = variance / (variance + (d - mean)^2),
    variance = |mean^2 - meanSquare|, exactly when d > mean, and is left
    unchanged when d <= mean; the factor is at least 0.05 whatever the
    stored moments are, so it is never negative. *)
Theorem visibility_factor_applied (cascadeIndex probeIndex : Z)
        (probePosition worldPosition worldNormal biasedWorldPosition biasAlpha : float3)
        (offset : uint3) :
  let d := length (sub3 probePosition biasedWorldPosition) in
  let direction := neg3 (normalize (sub3 probePosition biasedWorldPosition)) in
  let uv := GetDDGIProbeUV data cascadeIndex probeIndex (GetOctahedralCoords direction)
                           DDGI_PROBE_RESOLUTION_DISTANCE in
  let stored := xyz (SampleLevel probesDistance uv 0) in
  let mean := 2 * vx stored in
  let backface := backfaceWeight probePosition worldPosition worldNormal in
  let factor := visibilityFactor (vx stored) (vy stored) d in
  let weight := weightOf cascadeIndex probeIndex probePosition worldPosition worldNormal
                         biasedWorldPosition biasAlpha offset in
  (d > mean ->
   visibilityWeight backface d (SampleLevel probesDistance uv 0) = backface * factor /\
   weight = adjustWeight (backface * factor) * trilinearWeight biasAlpha offset) /\
  (d <= mean ->
   visibilityWeight backface d (SampleLevel probesDistance uv 0) = backface /\
   weight = adjustWeight backface * trilinearWeight biasAlpha offset) /\
  0.05 <= factor.
Proof.
  cbv zeta.
  match goal with
  | |- context [visibilityWeight ?b ?d ?s] =>
      destruct (visibilityWeight_cases b d s) as [Hgt Hle]
  end.
  unfold weightOf, probeWeight.
  repeat split.
  - now apply Hgt.
  - rewrite Hgt by assumption. reflexivity.
  - now apply Hle.
  - rewrite Hle by assumption. reflexivity.
  - apply visibilityFactor_bounds.
Qed.

(** C9: for a unit normal, biasAlpha in [0,1]^3 and a corner offset of
    the loop, the weight accumulated for a probe is strictly positive and
    at most 1, the product of the maxima of the backface, visibility and
    trilinear factors, also after the floor and the low-weight curve; the
    sampled distance moments may be any numbers. *)
Theorem probe_weight_bounds (cascadeIndex probeIndex : Z)
        (probePosition worldPosition worldNormal biasedWorldPosition biasAlpha : float3)
        (i : Z) :
  dot worldNormal worldNormal = 1 ->
  0 <= vx biasAlpha <= 1 -> 0 <= vy biasAlpha <= 1 -> 0 <= vz biasAlpha <= 1 ->
  (0 <= i < 8)%Z ->
  0 < weightOf cascadeIndex probeIndex probePosition worldPosition worldNormal
               biasedWorldPosition biasAlpha (probeCoordsOffset i)
    <= 1.
Proof.
  intros Hn Hax Hay Haz Hi.
  split; [apply probeWeight_pos |].
  unfold weightOf, probeWeight.
  destruct (probeCoordsOffset_bits i Hi) as (Hox & Hoy & Hoz).
  pose proof (trilinearWeight_bounds biasAlpha _ Hax Hay Haz Hox Hoy Hoz) as Htri.
  pose proof (backfaceWeight_bounds probePosition worldPosition worldNormal Hn) as Hback.
  match goal with
  | |- adjustWeight ?v * _ <= 1 =>
      pose proof (adjustWeight_pos v) as Hpos;
      assert (Hone : adjustWeight v <= 1)
  end.
  { apply adjustWeight_le_one. now apply visibilityWeight_bounds. }
  nra.
Qed.
End ProbeWeightClaims.

(** ** Accumulation over the eight probes *)

Section Accumulation.
Local Open Scope R_scope.
Variable GetOctahedralCoords : float3 -> float2.
Variable srgbBlending : bool.
Variable data : DDGIData.
Variables probesState probesDistance probesIrradiance : Texture2D.

Let step := accumulateProbe GetOctahedralCoords srgbBlending data
                            probesState probesDistance probesIrradiance.
Let blend := sampleCascade GetOctahedralCoords srgbBlending data
                           probesState probesDistance probesIrradiance.

Lemma accumulateProbe_inactive (cascadeIndex : Z)
      (worldPosition worldNormal biasedWorldPosition : float3) (base : uint3)
      (biasAlpha : float3) (irradiance : float4) (i : Z) :
  w (Load probesState
          (probeDataCoords data cascadeIndex
             (GetDDGIScrollingProbeIndex data cascadeIndex (cornerProbeCoords data base i))))
  = DDGI_PROBE_STATE_INACTIVE ->
  step cascadeIndex worldPosition worldNormal biasedWorldPosition base biasAlpha
       irradiance i
  = irradiance.
Proof.
  intros Hstate. unfold step, accumulateProbe.
  destruct (Req_dec_T _ _) as [_ | Hne]; [reflexivity | contradiction].
Qed.

Lemma normalizeIrradiance_zero :
  normalizeIrradiance srgbBlending (Vec4 (Vec3 0 0 0) 0) = Vec3 0 0 0.
Proof.
  unfold normalizeIrradiance; cbn [w xyz].
  destruct (Rgt_dec 0 0) as [Hgt | _]; [lra | reflexivity].
Qed.

Lemma sampleCascade_all_inactive (cascadeIndex : Z) (worldPosition worldNormal : float3)
      (bias : R) :
  corners_inactive data probesState cascadeIndex worldPosition ->
  blend cascadeIndex worldPosition worldNormal bias = Vec3 0 0 0.
Proof.
  intros Hall. unfold blend, sampleCascade. cbn [fold_left].
  fold step.
  rewrite !accumulateProbe_inactive by (apply Hall; lia).
  apply normalizeIrradiance_zero.
Qed.

(** C7: when a cascade is selected and each of the 8 enclosing corner
    probes has state INACTIVE, SampleDDGIIrradiance returns (0,0,0), for
    every world position, normal and bias, whatever fallbackIrradiance
    is. *)
Theorem all_inactive_gives_zero (worldPosition worldNormal : float3) (bias dither : R) :
  selectCascade data worldPosition dither <> CascadesCount data ->
  corners_inactive data probesState (selectCascade data worldPosition dither)
                   worldPosition ->
  SampleDDGIIrradiance GetOctahedralCoords srgbBlending data
                       probesState probesDistance probesIrradiance
                       worldPosition worldNormal bias dither
  = Vec3 0 0 0.
Proof.
  intros Hsel Hall. unfold SampleDDGIIrradiance.
  destruct (Z.eqb_spec (selectCascade data worldPosition dither) (CascadesCount data))
    as [Heq | _]; [contradiction |].
  now apply sampleCascade_all_inactive.
Qed.
End Accumulation.

(** ** A uniform irradiance atlas *)

Section UniformIrradiance.
Local Open Scope R_scope.
Variable GetOctahedralCoords : float3 -> float2.
Variable srgbBlending : bool.
Variable data : DDGIData.
Variables probesState probesDistance probesIrradiance : Texture2D.
Variable value : float3.

Hypothesis Hactive : all_probes_active probesState.
Hypothesis Huniform : uniform_irradiance probesIrradiance value.

Let step := accumulateProbe GetOctahedralCoords srgbBlending data
                            probesState probesDistance probesIrradiance.
Let blend := sampleCascade GetOctahedralCoords srgbBlending data
                           probesState probesDistance probesIrradiance.
(** What every probe contributes before weighting. *)
Let decoded : float3 :=
  if srgbBlending
  then map3 (fun c => pow c (IrradianceGamma data * 0.5)) value
  else value.

Lemma probeIrradianceOf_uniform (cascadeIndex probeIndex : Z) (worldNormal : float3) :
  probeIrradianceOf GetOctahedralCoords srgbBlending data probesIrradiance
                    cascadeIndex probeIndex worldNormal
  = decoded.
Proof.
  pose proof Huniform as Hu. unfold uniform_irradiance in Hu.
  unfold probeIrradianceOf, decoded. cbv zeta. rewrite !Hu. reflexivity.
Qed.

Lemma accumulateProbe_uniform (cascadeIndex : Z)
      (worldPosition worldNormal biasedWorldPosition : float3) (base : uint3)
      (biasAlpha : float3) (irradiance : float4) (i : Z) :
  xyz irradiance = scale3 decoded (w irradiance) ->
  let next := step cascadeIndex worldPosition worldNormal biasedWorldPosition base
                   biasAlpha irradiance i in
  xyz next = scale3 decoded (w next) /\ w irradiance < w next.
Proof.
  intros Hinv. cbv zeta. unfold step, accumulateProbe.
  pose proof Hactive as Ha. unfold all_probes_active in Ha.
  rewrite Ha; cbn [w xyz].
  destruct (Req_dec_T DDGI_PROBE_STATE_ACTIVE DDGI_PROBE_STATE_INACTIVE) as [Heq | _].
  { unfold DDGI_PROBE_STATE_ACTIVE, DDGI_PROBE_STATE_INACTIVE in Heq. lra. }
  rewrite probeIrradianceOf_uniform.
  match goal with
  | |- context [probeWeight ?g ?d ?t ?c ?p ?pos ?wp ?n ?b ?a ?o] =>
      pose proof (probeWeight_pos g d t c p pos wp n b a o) as Hpos;
      set (weight := probeWeight g d t c p pos wp n b a o) in *
  end.
  cbn [w xyz].
  split; [| lra].
  rewrite Hinv. unfold add3, scale3, zip3, map3; cbn [vx vy vz].
  f_equal; ring.
Qed.

Lemma fold_uniform (cascadeIndex : Z)
      (worldPosition worldNormal biasedWorldPosition : float3) (base : uint3)
      (biasAlpha : float3) (indices : list Z) :
  forall irradiance : float4,
    xyz irradiance = scale3 decoded (w irradiance) ->
    let total := fold_left (step cascadeIndex worldPosition worldNormal
                                 biasedWorldPosition base biasAlpha)
                           indices irradiance in
    xyz total = scale3 decoded (w total) /\
    w irradiance <= w total /\
    (indices <> [] -> w irradiance < w total).
Proof.
  induction indices as [| i rest IH]; intros irradiance Hinv; cbn [fold_left].
  - cbv zeta. repeat split; [exact Hinv | lra | congruence].
  - destruct (accumulateProbe_uniform cascadeIndex worldPosition worldNormal
                biasedWorldPosition base biasAlpha irradiance i Hinv) as [Hnext Hgrow].
    destruct (IH _ Hnext) as (Htotal & Hle & _).
    cbv zeta in *. repeat split; [exact Htotal | lra | intros _; lra].
Qed.

Lemma normalizeIrradiance_uniform (irradiance : float4) :
  xyz irradiance = scale3 decoded (w irradiance) ->
  0 < w irradiance ->
  normalizeIrradiance srgbBlending irradiance
  = scale3 (if srgbBlending then mul3 decoded decoded else decoded) (2 * PI).
Proof.
  intros Hinv Hpos. unfold normalizeIrradiance.
  destruct (Rgt_dec (w irradiance) 0) as [_ | Hle]; [| lra].
  assert (Hmean : scale3 (xyz irradiance) (1 / w irradiance) = decoded).
  { rewrite Hinv. destruct decoded as [a b c].
    unfold scale3, map3; cbn [vx vy vz]. f_equal; field; lra. }
  rewrite Hmean. reflexivity.
Qed.

Lemma sampleCascade_uniform (cascadeIndex : Z) (worldPosition worldNormal : float3)
      (bias : R) :
  blend cascadeIndex worldPosition worldNormal bias
  = scale3 (if srgbBlending then mul3 decoded decoded else decoded) (2 * PI).
Proof.
  unfold blend, sampleCascade. fold step.
  match goal with
  | |- normalizeIrradiance _ (fold_left (step ?c ?wp ?n ?b ?base ?a) ?l ?z) = _ =>
      destruct (fold_uniform c wp n b base a l z) as (Hinv & _ & Hpos)
  end.
  { unfold scale3, map3; cbn [w xyz vx vy vz]. f_equal; ring. }
  cbv zeta in *. cbn [w] in Hpos.
  apply normalizeIrradiance_uniform; [exact Hinv |].
  apply Hpos. discriminate.
Qed.

Lemma pow_half_squared (c : R) : 0 <= c -> pow c (1 * 0.5) * pow c (1 * 0.5) = c.
Proof.
  intros Hc. unfold pow.
  destruct (Rlt_dec 0 c) as [Hpos | Hzero].
  - rewrite <- Rpower_plus.
    replace (1 * 0.5 + 1 * 0.5) with 1 by lra.
    now apply Rpower_1.
  - lra.
Qed.

Lemma decoded_round_trip :
  gamma_compression_disabled srgbBlending data value ->
  (if srgbBlending then mul3 decoded decoded else decoded) = value.
Proof.
  clear step blend Hactive Huniform.
  unfold decoded. intros [Hoff | (Hgamma & Hx & Hy & Hz)].
  - rewrite Hoff. reflexivity.
  - destruct srgbBlending; [| reflexivity].
    rewrite Hgamma. destruct value as [a b c]; cbn [vx vy vz] in *.
    unfold mul3, zip3, map3; cbn [vx vy vz].
    rewrite !pow_half_squared by assumption. reflexivity.
Qed.
End UniformIrradiance.

(** ** The concrete scenario *)

Section ConcreteScenario.
Local Open Scope R_scope.

Lemma scenario_cascadeWeight (data : DDGIData) :
  scenario_volume data -> cascadeWeight data (Vec3 0 0 0) 0 = 1.
Proof.
  intros (Hcounts & _ & Horigin & Hscroll).
  unfold cascadeWeight, probesExtent, probesOrigin, probesSpacing, scrollOffset in *.
  rewrite Hcounts, Horigin, Hscroll.
  unfold Min3, sub3, add3, abs3, scale3, float3_of, zip3, map3; cbn [vx vy vz xyz w].
  change (UInt.sub 2 1) with 1%Z.
  replace (0 - (0 * 2 + 0)) with 0 by ring.
  rewrite Rabs_R0.
  replace (1 * (2 * 0.5) - 0) with 1 by lra.
  rewrite !(Rmin_left 1 1) by lra.
  replace (1 / (2 * 0.5)) with 1 by lra.
  unfold saturate. rewrite Rmax_left by lra. rewrite Rmin_left by lra. reflexivity.
Qed.

Lemma scenario_selects_first (data : DDGIData) (dither : R) :
  scenario_volume data -> dither < 1 ->
  selectCascade data (Vec3 0 0 0) dither = 0%Z.
Proof.
  intros Hscenario Hdither.
  pose proof (scenario_cascadeWeight data Hscenario) as Hweight.
  destruct Hscenario as (_ & Hcount & _ & _).
  unfold selectCascade. rewrite Hcount.
  change (Z.to_nat 1) with 1%nat. cbn [selectCascadeFrom].
  rewrite Hweight.
  destruct (Rgt_dec 1 dither) as [_ | Hle]; [reflexivity | lra].
Qed.

(** C3: in the volume with counts (2,2,2), one cascade, origin (0,0,0),
    spacing 2 and zero scroll offset, with every probe ACTIVE and not
    relocated, the distance atlas holding mean 100 and mean square 10000
    everywhere and the irradiance atlas holding the value v everywhere
    without gamma compression, SampleDDGIIrradiance at world position
    (0,0,0) returns v * 2 * pi for every unit normal, every bias and every
    dither value in [0,1). *)
Theorem scenario_returns_uniform_irradiance
        (GetOctahedralCoords : float3 -> float2) (srgbBlending : bool)
        (data : DDGIData) (probesState probesDistance probesIrradiance : Texture2D)
        (value worldNormal : float3) (bias dither : R) :
  scenario_volume data ->
  all_probes_active probesState ->
  unoccluded_distance probesDistance ->
  uniform_irradiance probesIrradiance value ->
  gamma_compression_disabled srgbBlending data value ->
  dot worldNormal worldNormal = 1 ->
  0 <= dither < 1 ->
  SampleDDGIIrradiance GetOctahedralCoords srgbBlending data
                       probesState probesDistance probesIrradiance
                       (Vec3 0 0 0) worldNormal bias dither
  = scale3 value (2 * PI).
Proof.
  intros Hscenario Hactive _ Huniform Hgamma _ Hdither.
  unfold SampleDDGIIrradiance.
  rewrite scenario_selects_first by (assumption || lra).
  destruct Hscenario as (_ & Hcount & _ & _). rewrite Hcount.
  change (0 =? 1)%Z with false. cbv iota.
  rewrite (sampleCascade_uniform GetOctahedralCoords srgbBlending data probesState
             probesDistance probesIrradiance value Hactive Huniform).
  rewrite decoded_round_trip by exact Hgamma.
  reflexivity.
Qed.
End ConcreteScenario.

(** ** Atlas addressing *)

Section AtlasBlocks.
Local Open Scope Z_scope.

(** The whole atlas, all cascades, has fewer than 2^32 probe slots. *)
Lemma atlas_dimensions (data : DDGIData) :
  positive_counts (ProbesCounts data) ->
  0 < CascadesCount data ->
  probes_total (ProbesCounts data) * CascadesCount data < UInt.modulus ->
  UInt.mul (vx (ProbesCounts data)) (vy (ProbesCounts data))
  = vx (ProbesCounts data) * vy (ProbesCounts data) /\
  UInt.mul (vz (ProbesCounts data)) (CascadesCount data)
  = vz (ProbesCounts data) * CascadesCount data /\
  0 < vx (ProbesCounts data) * vy (ProbesCounts data) /\
  0 < vz (ProbesCounts data) * CascadesCount data.
Proof.
  unfold positive_counts, probes_total.
  destruct (ProbesCounts data) as [X Y Z0]; cbn [vx vy vz].
  intros (Hx & Hy & Hz) Hc Htot.
  assert (Hxy : 0 < X * Y) by nia.
  assert (Hzc : 0 < Z0 * CascadesCount data) by nia.
  assert (Hall : X * Y * Z0 * CascadesCount data = X * Y * (Z0 * CascadesCount data))
    by ring.
  assert (Hxy_small : X * Y <= X * Y * (Z0 * CascadesCount data)) by nia.
  assert (Hzc_small : Z0 * CascadesCount data <= X * Y * (Z0 * CascadesCount data)) by nia.
  rewrite !mul_small by lia. lia.
Qed.

(** The texel coordinates of a probe name one block of the atlas. *)
Lemma texel_coords_in_atlas (data : DDGIData) (cascadeIndex probeIndex : Z) :
  positive_counts (ProbesCounts data) ->
  0 <= cascadeIndex < CascadesCount data ->
  probes_total (ProbesCounts data) * CascadesCount data < UInt.modulus ->
  0 <= probeIndex < probes_total (ProbesCounts data) ->
  let c := GetDDGIProbeTexelCoords data cascadeIndex probeIndex in
  0 <= px c < vx (ProbesCounts data) * vy (ProbesCounts data) /\
  0 <= py c < vz (ProbesCounts data) * CascadesCount data.
Proof.
  unfold positive_counts, probes_total, GetDDGIProbeTexelCoords.
  destruct (ProbesCounts data) as [X Y Z0]; cbn [vx vy vz px py].
  intros (Hx & Hy & Hz) Hc Htot Hi.
  assert (Hcount : X * Y * Z0 <= X * Y * Z0 * CascadesCount data) by nia.
  assert (Hplane : 0 < X * Z0 < UInt.modulus) by nia.
  rewrite (mul_small X Z0) by lia.
  rewrite !rem_pos, !div_pos by lia.
  assert (Hq : 0 <= probeIndex / (X * Z0) < Y).
  { split; [apply Z.div_pos; lia | apply Z.div_lt_upper_bound; nia]. }
  pose proof (Z.mod_pos_bound probeIndex X ltac:(lia)) as Hr.
  pose proof (Z.mod_pos_bound (probeIndex / X) Z0 ltac:(lia)) as Hs.
  rewrite (mul_small (probeIndex / (X * Z0)) X) by nia.
  rewrite (mul_small cascadeIndex Z0) by nia.
  rewrite !add_small by nia.
  nia.
Qed.
End AtlasBlocks.

Section ProbeUV.
Local Open Scope R_scope.

(** C6: for every cascade index below cascadesCount, every probe index
    below X*Y*Z, resolution 6 or 14 and octahedral coordinate in [-1,1]^2
    (in a volume with positive counts whose atlas has fewer than 2^32
    probe slots), the UV of GetDDGIProbeUV scaled by the atlas pixel size
    lies strictly inside the (resolution+2)-texel block of the probe,
    between its two border texels on each axis; the block is one of the
    blocks of the atlas. *)
Theorem probe_uv_inside_block (data : DDGIData) (cascadeIndex probeIndex : Z)
        (octahedralCoords : float2) (resolution : Z) :
  positive_counts (ProbesCounts data) ->
  (0 <= cascadeIndex < CascadesCount data)%Z ->
  (probes_total (ProbesCounts data) * CascadesCount data < UInt.modulus)%Z ->
  (0 <= probeIndex < probes_total (ProbesCounts data))%Z ->
  resolution = DDGI_PROBE_RESOLUTION_IRRADIANCE \/
  resolution = DDGI_PROBE_RESOLUTION_DISTANCE ->
  -1 <= px octahedralCoords <= 1 ->
  -1 <= py octahedralCoords <= 1 ->
  let uv := GetDDGIProbeUV data cascadeIndex probeIndex octahedralCoords resolution in
  let size := atlasPixelSize data resolution in
  let block := IZR resolution + 2 in
  let c := GetDDGIProbeTexelCoords data cascadeIndex probeIndex in
  let tx := px uv * px size in
  let ty := py uv * py size in
  (IZR (px c) * block < tx < IZR (px c) * block + block /\
   IZR (py c) * block < ty < IZR (py c) * block + block) /\
  (IZR (px c) * block + 1 <= tx <= IZR (px c) * block + block - 1 /\
   IZR (py c) * block + 1 <= ty <= IZR (py c) * block + block - 1) /\
  ((0 <= px c < vx (ProbesCounts data) * vy (ProbesCounts data))%Z /\
   (0 <= py c < vz (ProbesCounts data) * CascadesCount data)%Z).
Proof.
  intros Hpos Hcascade Htot Hindex Hres Hox Hoy. cbv zeta.
  destruct (atlas_dimensions data Hpos ltac:(lia) Htot) as (Hmx & Hmy & Hsx & Hsy).
  pose proof (texel_coords_in_atlas data cascadeIndex probeIndex
                Hpos Hcascade Htot Hindex) as Hatlas.
  cbv zeta in Hatlas.
  assert (Hr : 6 <= IZR resolution <= 14).
  { destruct Hres as [-> | ->];
      unfold DDGI_PROBE_RESOLUTION_IRRADIANCE, DDGI_PROBE_RESOLUTION_DISTANCE; lra. }
  unfold GetDDGIProbeUV, atlasPixelSize; cbn [px py].
  rewrite Hmx, Hmy.
  apply IZR_lt in Hsx, Hsy.
  set (sx := IZR (vx (ProbesCounts data) * vy (ProbesCounts data))) in *.
  set (sy := IZR (vz (ProbesCounts data) * CascadesCount data)) in *.
  set (cx := IZR (px (GetDDGIProbeTexelCoords data cascadeIndex probeIndex))).
  set (cy := IZR (py (GetDDGIProbeTexelCoords data cascadeIndex probeIndex))).
  set (r := IZR resolution) in *.
  set (ox := px octahedralCoords) in *. set (oy := py octahedralCoords) in *.
  assert (Htx : (cx * (r + 2) + (r + 2) * 0.5 + ox * (r * 0.5)) / (sx * (r + 2))
                * (sx * (r + 2))
                = cx * (r + 2) + (r + 2) * 0.5 + ox * (r * 0.5)) by (field; lra).
  assert (Hty : (cy * (r + 2) + (r + 2) * 0.5 + oy * (r * 0.5)) / (sy * (r + 2))
                * (sy * (r + 2))
                = cy * (r + 2) + (r + 2) * 0.5 + oy * (r * 0.5)) by (field; lra).
  rewrite Htx, Hty.
  split; [| split; [| exact Hatlas]].
  - split; split; nra.
  - split; split; nra.
Qed.
End ProbeUV.

(** ** The statements at concrete inputs *)

Section Witnesses.
Local Open Scope R_scope.

Lemma demoData_positive : positive_counts (ProbesCounts demoData).
Proof. unfold positive_counts, UInt.modulus; simpl; lia. Defined.

Lemma demoData_scenario : scenario_volume demoData.
Proof. unfold scenario_volume. repeat split; reflexivity. Defined.

Lemma upNormal_unit : dot upNormal upNormal = 1.
Proof. unfold dot, upNormal; cbn [vx vy vz]. ring. Defined.

Lemma scenario_returns_uniform_irradiance_witness :
  SampleDDGIIrradiance octahedralOrigin false demoData
                       activeState unoccluded greyIrradiance centre upNormal 0.5 0
  = scale3 (Vec3 1 2 3) (2 * PI).
Proof.
  apply (scenario_returns_uniform_irradiance octahedralOrigin false demoData
           activeState unoccluded greyIrradiance (Vec3 1 2 3) upNormal 0.5 0).
  - exact demoData_scenario.
  - intros c. reflexivity.
  - intros uv lod. split; reflexivity.
  - intros uv lod. reflexivity.
  - left. reflexivity.
  - exact upNormal_unit.
  - lra.
Defined.

Lemma probe_uv_inside_block_witness :
  let uv := GetDDGIProbeUV demoData 0 5 (Vec2 (-1) 1) 14 in
  let size := atlasPixelSize demoData 14 in
  let block := IZR 14 + 2 in
  let c := GetDDGIProbeTexelCoords demoData 0 5 in
  let tx := px uv * px size in
  let ty := py uv * py size in
  (IZR (px c) * block < tx < IZR (px c) * block + block /\
   IZR (py c) * block < ty < IZR (py c) * block + block) /\
  (IZR (px c) * block + 1 <= tx <= IZR (px c) * block + block - 1 /\
   IZR (py c) * block + 1 <= ty <= IZR (py c) * block + block - 1) /\
  ((0 <= px c < vx (ProbesCounts demoData) * vy (ProbesCounts demoData))%Z /\
   (0 <= py c < vz (ProbesCounts demoData) * CascadesCount demoData)%Z).
Proof.
  apply (probe_uv_inside_block demoData 0 5 (Vec2 (-1) 1) 14).
  - exact demoData_positive.
  - simpl; lia.
  - unfold probes_total, UInt.modulus; simpl; lia.
  - unfold probes_total; simpl; lia.
  - right. reflexivity.
  - cbn [px]; lra.
  - cbn [py]; lra.
Defined.

Lemma all_inactive_gives_zero_witness :
  SampleDDGIIrradiance octahedralOrigin true demoData
                       inactiveState unoccluded greyIrradiance centre upNormal 0.5 0
  = Vec3 0 0 0.
Proof.
  apply (all_inactive_gives_zero octahedralOrigin true demoData
           inactiveState unoccluded greyIrradiance centre upNormal 0.5 0).
  - unfold centre.
    rewrite (scenario_selects_first demoData 0 demoData_scenario) by lra.
    simpl. discriminate.
  - intros i Hi. reflexivity.
Defined.

Lemma corner_position_incremental_is_direct_witness :
  let probeCoords := cornerProbeCoords demoData (Vec3 0 0 0)%Z 7 in
  probeBasePosition demoData 0 (Vec3 0 0 0)%Z probeCoords
  = GetDDGIProbeWorldPosition demoData 0 probeCoords /\
  GetDDGIProbeWorldPosition demoData 0 probeCoords
  = probePositionFormula (xyz (float4_at (ProbesOriginAndSpacing demoData) 0))
                         (probesSpacing demoData 0) (ProbesCounts demoData)
                         (scrollOffset demoData 0) probeCoords.
Proof.
  apply (corner_position_incremental_is_direct demoData 0 (Vec3 0 0 0)%Z 7).
  - exact demoData_positive.
  - unfold coords_in_grid; simpl; lia.
  - lia.
Defined.

Lemma probe_weight_bounds_witness :
  0 < probeWeight octahedralOrigin demoData unoccluded 0 7 (Vec3 1 1 1) centre upNormal
                  centre (Vec3 0.5 0.5 0.5) (probeCoordsOffset 7)
    <= 1.
Proof.
  apply (probe_weight_bounds octahedralOrigin demoData unoccluded 0 7 (Vec3 1 1 1)
           centre upNormal centre (Vec3 0.5 0.5 0.5) 7).
  - exact upNormal_unit.
  - cbn [vx]; lra.
  - cbn [vy]; lra.
  - cbn [vz]; lra.
  - lia.
Defined.

Lemma visibility_factor_applied_witness :
  probeWeight octahedralOrigin demoData unoccluded 0 7 centre centre upNormal
              centre (Vec3 0.5 0.5 0.5) (probeCoordsOffset 7)
  = adjustWeight (backfaceWeight centre centre upNormal)
    * trilinearWeight (Vec3 0.5 0.5 0.5) (probeCoordsOffset 7).
Proof.
  destruct (visibility_factor_applied octahedralOrigin demoData unoccluded 0 7
              centre centre upNormal centre (Vec3 0.5 0.5 0.5) (probeCoordsOffset 7))
    as (_ & Hnear & _).
  apply Hnear.
  unfold length, dot, sub3, zip3, centre; cbn [vx vy vz xyz SampleLevel unoccluded uniformTexture].
  replace ((0 - 0) * (0 - 0) + (0 - 0) * (0 - 0) + (0 - 0) * (0 - 0)) with 0 by ring.
  rewrite sqrt_0. lra.
Defined.
End Witnesses.


(** * Further properties of the header *)

(** ** The corners of the loop *)

Section CornerEnumeration.
Local Open Scope Z_scope.

(** The loop index i in [0, 8) is decoded into the corner offset
    (i & 1, (i >> 1) & 1, (i >> 2) & 1): the three components are bits with
    x + 2 y + 4 z = i, so the eight iterations visit the eight corners, each
    exactly once. *)
Theorem probeCoordsOffset_enumerates (i : Z) :
  0 <= i < 8 ->
  is_bit (vx (probeCoordsOffset i)) /\
  is_bit (vy (probeCoordsOffset i)) /\
  is_bit (vz (probeCoordsOffset i)) /\
  vx (probeCoordsOffset i) + 2 * vy (probeCoordsOffset i) + 4 * vz (probeCoordsOffset i) = i.
Proof.
  intros Hi.
  assert (Hcases : i = 0 \/ i = 1 \/ i = 2 \/ i = 3 \/ i = 4 \/ i = 5 \/ i = 6 \/ i = 7)
    by lia.
  unfold is_bit.
  repeat (destruct Hcases as [-> | Hcases]); [.. | subst i];
    vm_compute; intuition congruence.
Qed.

Lemma probeCoordsOffset_enumerates_witness :
  is_bit (vx (probeCoordsOffset 6)) /\
  is_bit (vy (probeCoordsOffset 6)) /\
  is_bit (vz (probeCoordsOffset 6)) /\
  vx (probeCoordsOffset 6) + 2 * vy (probeCoordsOffset 6) + 4 * vz (probeCoordsOffset 6) = 6.
Proof. apply (probeCoordsOffset_enumerates 6). lia. Defined.
End CornerEnumeration.

(** ** Texels and probes *)

Section TexelsAndProbes.
Local Open Scope Z_scope.

Lemma atlas_fits_cascade (data : DDGIData) (cascadeIndex : Z) :
  positive_counts (ProbesCounts data) ->
  0 <= cascadeIndex < CascadesCount data ->
  probes_total (ProbesCounts data) * CascadesCount data < UInt.modulus ->
  probes_total (ProbesCounts data) < UInt.modulus /\
  vx (ProbesCounts data) * vz (ProbesCounts data) * (cascadeIndex + 1)
  <= probes_total (ProbesCounts data) * CascadesCount data.
Proof.
  unfold positive_counts, probes_total.
  destruct (ProbesCounts data) as [X Y Z0]; cbn [vx vy vz].
  intros (Hx & Hy & Hz) Hc Htot.
  assert (Hxz : 0 < X * Z0) by nia.
  assert (Hplane : X * Z0 <= X * Y * Z0) by nia.
  assert (Hcount : X * Y * Z0 <= X * Y * Z0 * CascadesCount data) by nia.
  split; [lia |].
  assert (X * Z0 * (cascadeIndex + 1) <= X * Z0 * CascadesCount data) by nia.
  nia.
Qed.

(** The texel coordinates of the probe at grid coordinate [p]. *)
Lemma texel_coords_of_grid_coords (data : DDGIData) (cascadeIndex : Z) (p : uint3) :
  positive_counts (ProbesCounts data) ->
  0 <= cascadeIndex < CascadesCount data ->
  probes_total (ProbesCounts data) * CascadesCount data < UInt.modulus ->
  coords_in_grid (ProbesCounts data) p ->
  GetDDGIProbeTexelCoords data cascadeIndex (GetDDGIProbeIndex data p)
  = Vec2 (vx p + vy p * vx (ProbesCounts data))
         (vz p + cascadeIndex * vz (ProbesCounts data)).
Proof.
  intros Hpos Hc Htot Hin.
  destruct (atlas_fits_cascade data cascadeIndex Hpos Hc Htot) as [Hone Hcascade].
  destruct (index_of_coords_exact data p Hpos Hone Hin) as [Hidx _].
  unfold GetDDGIProbeTexelCoords. rewrite Hidx. clear Hidx.
  unfold positive_counts, probes_total, coords_in_grid in *.
  destruct (ProbesCounts data) as [X Y Z0]; destruct p as [a b c]; cbn [vx vy vz] in *.
  destruct Hpos as (Hx & Hy & Hz). destruct Hin as (Ha & Hb & Hc').
  assert (Hplane : 0 < X * Z0 < UInt.modulus) by nia.
  rewrite (mul_small X Z0) by lia.
  rewrite !rem_pos, !div_pos by lia.
  assert (Hxm : (b * (X * Z0) + (a + X * c)) mod X = a).
  { symmetry. apply Z.mod_unique_pos with (q := b * Z0 + c); [lia | ring]. }
  assert (Hq : (b * (X * Z0) + (a + X * c)) / X = b * Z0 + c).
  { symmetry. apply Z.div_unique_pos with (r := a); [lia | ring]. }
  assert (Hy' : (b * (X * Z0) + (a + X * c)) / (X * Z0) = b).
  { symmetry. apply Z.div_unique_pos with (r := a + X * c); [nia | ring]. }
  assert (Hzm : (b * Z0 + c) mod Z0 = c).
  { symmetry. apply Z.mod_unique_pos with (q := b); [lia | ring]. }
  rewrite Hxm, Hq, Hy', Hzm.
  rewrite (mul_small b X) by nia.
  rewrite (mul_small cascadeIndex Z0) by nia.
  rewrite !add_small by nia.
  reflexivity.
Qed.
End TexelsAndProbes.

Section TexelLayout.
Local Open Scope Z_scope.

(** The probe at grid coordinate (x, y, z) of cascade c has its block at
    texel coordinate (x + y * counts.x, z + c * counts.z): the planes of
    constant y lie side by side along the x axis of the atlas and the
    cascades are stacked along its y axis. *)
Theorem texel_coords_layout (data : DDGIData) (cascadeIndex : Z) (p : uint3) :
  positive_counts (ProbesCounts data) ->
  0 <= cascadeIndex < CascadesCount data ->
  probes_total (ProbesCounts data) * CascadesCount data < UInt.modulus ->
  coords_in_grid (ProbesCounts data) p ->
  GetDDGIProbeTexelCoords data cascadeIndex (GetDDGIProbeIndex data p)
  = Vec2 (vx p + vy p * vx (ProbesCounts data))
         (vz p + cascadeIndex * vz (ProbesCounts data)).
Proof. apply texel_coords_of_grid_coords. Qed.

Lemma texel_coords_layout_witness :
  GetDDGIProbeTexelCoords demoData 0 (GetDDGIProbeIndex demoData (Vec3 1 1 0))
  = Vec2 (1 + 1 * vx (ProbesCounts demoData)) (0 + 0 * vz (ProbesCounts demoData)).
Proof.
  apply (texel_coords_layout demoData 0 (Vec3 1 1 0)).
  - exact demoData_positive.
  - simpl; lia.
  - unfold probes_total, UInt.modulus; simpl; lia.
  - unfold coords_in_grid; simpl; lia.
Defined.

Lemma texel_coords_split (X Z0 a b c k a' b' c' k' : Z) :
  0 < X -> 0 < Z0 ->
  0 <= a < X -> 0 <= a' < X -> 0 <= c < Z0 -> 0 <= c' < Z0 ->
  a + b * X = a' + b' * X -> c + k * Z0 = c' + k' * Z0 ->
  a = a' /\ b = b' /\ c = c' /\ k = k'.
Proof.
  intros HX HZ Ha Ha' Hc Hc' Hx Hy.
  assert (b = b') by nia. assert (k = k') by nia.
  subst. repeat split; lia.
Qed.

Lemma texel_coords_injective_aux (data : DDGIData) (c1 c2 i1 i2 : Z) :
  positive_counts (ProbesCounts data) ->
  probes_total (ProbesCounts data) * CascadesCount data < UInt.modulus ->
  0 <= c1 < CascadesCount data -> 0 <= c2 < CascadesCount data ->
  0 <= i1 < probes_total (ProbesCounts data) ->
  0 <= i2 < probes_total (ProbesCounts data) ->
  GetDDGIProbeTexelCoords data c1 i1 = GetDDGIProbeTexelCoords data c2 i2 ->
  c1 = c2 /\ i1 = i2.
Proof.
  intros Hpos Htot Hc1 Hc2 Hi1 Hi2 Heq.
  destruct (atlas_fits_cascade data c1 Hpos Hc1 Htot) as [Hone _].
  pose proof (coords_of_index_in_grid data i1 Hpos Hone Hi1) as Hin1.
  pose proof (coords_of_index_in_grid data i2 Hpos Hone Hi2) as Hin2.
  pose proof (index_of_coords_of_index data i1 Hpos Hone Hi1) as Hback1.
  pose proof (index_of_coords_of_index data i2 Hpos Hone Hi2) as Hback2.
  rewrite <- Hback1, <- Hback2 in Heq.
  rewrite !texel_coords_of_grid_coords in Heq by assumption.
  rewrite <- Hback1, <- Hback2.
  set (p1 := GetDDGIProbeCoords data i1) in *.
  set (p2 := GetDDGIProbeCoords data i2) in *.
  clearbody p1 p2.
  injection Heq as Hx Hy.
  destruct Hpos as (HX & HY & HZ).
  destruct Hin1 as (Ha1 & Hb1 & Hz1). destruct Hin2 as (Ha2 & Hb2 & Hz2).
  destruct (texel_coords_split _ _ _ _ _ _ _ _ _ _
              (proj1 HX) (proj1 HZ) Ha1 Ha2 Hz1 Hz2 Hx Hy) as (Hxe & Hye & Hze & Hce).
  split; [exact Hce |].
  f_equal.
  destruct p1, p2; cbn [vx vy vz] in *; congruence.
Qed.

(** Two probes of the volume never share a block of the atlas: the texel
    coordinates of GetDDGIProbeTexelCoords determine both the cascade and
    the probe index. *)
Theorem texel_coords_injective (data : DDGIData) (c1 c2 i1 i2 : Z) :
  positive_counts (ProbesCounts data) ->
  probes_total (ProbesCounts data) * CascadesCount data < UInt.modulus ->
  0 <= c1 < CascadesCount data -> 0 <= c2 < CascadesCount data ->
  0 <= i1 < probes_total (ProbesCounts data) ->
  0 <= i2 < probes_total (ProbesCounts data) ->
  GetDDGIProbeTexelCoords data c1 i1 = GetDDGIProbeTexelCoords data c2 i2 ->
  c1 = c2 /\ i1 = i2.
Proof. apply texel_coords_injective_aux. Qed.

Lemma texel_coords_injective_witness : 0 = 0 /\ 5 = 5.
Proof.
  apply (texel_coords_injective demoData 0 0 5 5).
  - exact demoData_positive.
  - unfold probes_total, UInt.modulus; simpl; lia.
  - simpl; lia.
  - simpl; lia.
  - unfold probes_total; simpl; lia.
  - unfold probes_total; simpl; lia.
  - reflexivity.
Defined.

Lemma index_at_texel_aux (data : DDGIData) (cascadeIndex probeIndex res dx dy : Z) :
  positive_counts (ProbesCounts data) ->
  0 <= cascadeIndex < CascadesCount data ->
  0 < res ->
  probes_total (ProbesCounts data) * CascadesCount data * res < UInt.modulus ->
  0 <= probeIndex < probes_total (ProbesCounts data) ->
  0 <= dx < res -> 0 <= dy < res ->
  GetDDGIProbeIndexAtTexel data
    (texelOfBlock (GetDDGIProbeTexelCoords data cascadeIndex probeIndex) res dx dy) res
  = probeIndex + cascadeIndex * (vx (ProbesCounts data) * vz (ProbesCounts data)).
Proof.
  intros Hpos Hc Hres Hfit Hi Hdx Hdy.
  assert (Htot : probes_total (ProbesCounts data) * CascadesCount data < UInt.modulus).
  { assert (0 < probes_total (ProbesCounts data) * CascadesCount data).
    { unfold positive_counts, probes_total in *.
      destruct (ProbesCounts data) as [X Y Z0]; cbn [vx vy vz] in *. nia. }
    nia. }
  destruct (atlas_fits_cascade data cascadeIndex Hpos Hc Htot) as [Hone Hcascade].
  pose proof (coords_of_index_in_grid data probeIndex Hpos Hone Hi) as Hin.
  pose proof (index_of_coords_of_index data probeIndex Hpos Hone Hi) as Hback.
  destruct (index_of_coords_exact data _ Hpos Hone Hin) as [Hidx _].
  rewrite Hback in Hidx.
  set (p := GetDDGIProbeCoords data probeIndex) in *. clearbody p.
  rewrite <- Hback at 1.
  rewrite texel_coords_of_grid_coords by assumption.
  clear Hback.
  unfold GetDDGIProbeIndexAtTexel, texelOfBlock; cbn [px py].
  unfold positive_counts, probes_total, coords_in_grid in *.
  destruct (ProbesCounts data) as [X Y Z0]; destruct p as [a b c]; cbn [vx vy vz] in *.
  destruct Hpos as (Hx & Hy & Hz). destruct Hin as (Ha & Hb & Hc').
  set (C := CascadesCount data) in *.
  assert (HC : 1 <= C) by lia.
  assert (Hxy : 0 < X * Y) by nia.
  assert (Hxz : 0 < X * Z0) by nia.
  assert (Hxyz : 0 < X * Y * Z0) by nia.
  assert (Hall : X * Y * Z0 * C * res = X * Y * (Z0 * (C * res))) by ring.
  assert (Hzcr : 1 <= Z0 * (C * res)) by nia.
  assert (Hcr : 1 <= C * res) by nia.
  assert (B1 : X * Z0 <= X * Y * Z0 * C * res) by nia.
  assert (B2 : X * res <= X * Y * Z0 * C * res) by nia.
  assert (Hk : cascadeIndex + 1 <= C) by lia.
  assert (B3 : X * (Z0 * C) <= X * Y * Z0 * C * res) by nia.
  assert (B4 : X * Y * Z0 * C <= X * Y * Z0 * C * res) by nia.
  assert (B5 : X * Y <= X * Y * Z0 * C * res) by nia.
  rewrite (mul_small X Z0) by lia.
  rewrite (mul_small X res) by nia.
  rewrite !div_pos by nia.
  assert (Hplane : ((a + b * X) * res + dx) / (X * res) = b).
  { symmetry. apply Z.div_unique_pos with (r := a * res + dx); [nia | ring]. }
  assert (Hcol : ((a + b * X) * res + dx) / res = a + b * X).
  { symmetry. apply Z.div_unique_pos with (r := dx); [lia | ring]. }
  assert (Hrow : ((c + cascadeIndex * Z0) * res + dy) / res = c + cascadeIndex * Z0).
  { symmetry. apply Z.div_unique_pos with (r := dy); [lia | ring]. }
  rewrite Hplane, Hcol, Hrow.
  assert (Hkz : 0 <= cascadeIndex * Z0) by (apply Z.mul_nonneg_nonneg; lia).
  assert (Hkz' : cascadeIndex * Z0 <= (C - 1) * Z0)
    by (apply Z.mul_le_mono_nonneg_r; lia).
  assert (Hrowb : 0 <= c + cascadeIndex * Z0 <= Z0 * C - 1) by lia.
  assert (Hbx : 0 <= b * X <= (Y - 1) * X).
  { split; [apply Z.mul_nonneg_nonneg; lia | apply Z.mul_le_mono_nonneg_r; lia]. }
  assert (Hxr : 0 <= X * (c + cascadeIndex * Z0) <= X * (Z0 * C - 1)).
  { split; [apply Z.mul_nonneg_nonneg; lia | apply Z.mul_le_mono_nonneg_l; lia]. }
  assert (Hbp : 0 <= b * (X * Z0) <= (Y - 1) * (X * Z0)).
  { split; [apply Z.mul_nonneg_nonneg; lia | apply Z.mul_le_mono_nonneg_r; lia]. }
  assert (Hexp1 : (Y - 1) * X = X * Y - X) by ring.
  assert (Hexp2 : X * (Z0 * C - 1) = X * (Z0 * C) - X) by ring.
  assert (Hexp3 : (Y - 1) * (X * Z0) = X * Y * Z0 - X * Z0) by ring.
  assert (Hexp4 : X * Y * Z0 * C = X * Y * Z0 + X * Y * Z0 * (C - 1)) by ring.
  assert (Hexp5 : X * (Z0 * C) = X * Z0 + X * Z0 * (C - 1)) by ring.
  assert (Hmore : X * Z0 * (C - 1) <= X * Y * Z0 * (C - 1)).
  { apply Z.mul_le_mono_nonneg_r; lia. }
  rewrite (mul_small b X) by lia.
  rewrite sub_small by lia.
  rewrite (mul_small X (c + cascadeIndex * Z0)) by lia.
  rewrite (mul_small b (X * Z0)) by lia.
  replace (a + b * X - b * X) with a by ring.
  rewrite (add_small a) by lia.
  rewrite add_small by lia.
  rewrite Hidx. ring.
Qed.

(** The overload GetDDGIProbeIndex(data, texCoords, texResolution) undoes
    GetDDGIProbeTexelCoords for the first cascade: every texel of the block
    of a probe of cascade 0 gives back the index of that probe.  For a texel
    of cascade c it gives the index plus c * counts.x * counts.z. *)
Theorem index_at_texel_of_block (data : DDGIData) (cascadeIndex probeIndex res dx dy : Z) :
  positive_counts (ProbesCounts data) ->
  0 <= cascadeIndex < CascadesCount data ->
  0 < res ->
  probes_total (ProbesCounts data) * CascadesCount data * res < UInt.modulus ->
  0 <= probeIndex < probes_total (ProbesCounts data) ->
  0 <= dx < res -> 0 <= dy < res ->
  let texel := texelOfBlock (GetDDGIProbeTexelCoords data cascadeIndex probeIndex)
                            res dx dy in
  GetDDGIProbeIndexAtTexel data texel res
  = probeIndex + cascadeIndex * (vx (ProbesCounts data) * vz (ProbesCounts data)) /\
  (cascadeIndex = 0 -> GetDDGIProbeIndexAtTexel data texel res = probeIndex).
Proof.
  intros Hpos Hc Hres Hfit Hi Hdx Hdy. cbv zeta.
  pose proof (index_at_texel_aux data cascadeIndex probeIndex res dx dy
                Hpos Hc Hres Hfit Hi Hdx Hdy) as H.
  split; [exact H |].
  intros Hzero. rewrite H, Hzero. ring.
Qed.

Lemma index_at_texel_of_block_witness :
  let texel := texelOfBlock (GetDDGIProbeTexelCoords demoData 0 5) 8 3 7 in
  GetDDGIProbeIndexAtTexel demoData texel 8
  = 5 + 0 * (vx (ProbesCounts demoData) * vz (ProbesCounts demoData)) /\
  (0 = 0 -> GetDDGIProbeIndexAtTexel demoData texel 8 = 5).
Proof.
  apply (index_at_texel_of_block demoData 0 5 8 3 7).
  - exact demoData_positive.
  - simpl; lia.
  - lia.
  - unfold probes_total, UInt.modulus; simpl; lia.
  - unfold probes_total; simpl; lia.
  - lia.
  - lia.
Defined.
End TexelLayout.

(** ** Scrolling as a permutation of the slots *)

Section ScrollingPermutation.
Local Open Scope Z_scope.

Lemma mod_shift_injective (a b s n : Z) :
  0 < n -> 0 <= a < n -> 0 <= b < n ->
  (a + s) mod n = (b + s) mod n -> a = b.
Proof.
  intros Hn Ha Hb Heq.
  pose proof (Z.div_mod (a + s) n ltac:(lia)) as Hda.
  pose proof (Z.div_mod (b + s) n ltac:(lia)) as Hdb.
  rewrite Heq in Hda.
  assert (Hdiff : a - b = n * ((a + s) / n - (b + s) / n)) by lia.
  set (k := (a + s) / n - (b + s) / n) in *. clearbody k.
  assert (k = 0) by nia.
  subst k. lia.
Qed.

Lemma wrappedCoords_injective (counts p q : uint3) (offset : int3) :
  positive_counts counts ->
  coords_in_grid counts p -> coords_in_grid counts q ->
  wrappedCoords counts p offset = wrappedCoords counts q offset ->
  p = q.
Proof.
  unfold positive_counts, coords_in_grid, wrappedCoords, zip3.
  destruct counts as [X Y Z0], p as [a b c], q as [a' b' c'], offset as [sx sy sz].
  cbn [vx vy vz].
  intros (Hx & Hy & Hz) (Ha & Hb & Hc) (Ha' & Hb' & Hc') Heq.
  injection Heq as H1 H2 H3.
  f_equal; eapply mod_shift_injective; eauto; lia.
Qed.

Lemma scrolling_index_injective_aux (data : DDGIData) (cascadeIndex : Z) (p q : uint3) :
  positive_counts (ProbesCounts data) ->
  probes_total (ProbesCounts data) < UInt.modulus ->
  coords_in_grid (ProbesCounts data) p ->
  coords_in_grid (ProbesCounts data) q ->
  offset_at_least_minus_counts (ProbesCounts data) (scrollOffset data cascadeIndex) ->
  wrap_sum_fits (ProbesCounts data) p (scrollOffset data cascadeIndex) ->
  wrap_sum_fits (ProbesCounts data) q (scrollOffset data cascadeIndex) ->
  GetDDGIScrollingProbeIndex data cascadeIndex p
  = GetDDGIScrollingProbeIndex data cascadeIndex q ->
  p = q.
Proof.
  intros Hpos Htot Hp Hq Hoff Hfp Hfq Heq.
  unfold GetDDGIScrollingProbeIndex in Heq.
  rewrite !scrolledCoords_wrapped in Heq by assumption.
  apply (wrappedCoords_injective (ProbesCounts data) p q
           (scrollOffset data cascadeIndex)); try assumption.
  rewrite <- (coords_of_index_of_coords data
                (wrappedCoords (ProbesCounts data) p (scrollOffset data cascadeIndex)))
    by (try assumption; now apply wrappedCoords_in_grid).
  rewrite Heq.
  apply coords_of_index_of_coords; try assumption.
  now apply wrappedCoords_in_grid.
Qed.

(** Scrolling permutes the slots of a cascade: two different grid
    coordinates are never sent to the same flat index by
    GetDDGIScrollingProbeIndex (for a scroll offset of at least -counts
    whose wrap sum stays below 2^32). *)
Theorem scrolling_index_injective (data : DDGIData) (cascadeIndex : Z) (p q : uint3) :
  positive_counts (ProbesCounts data) ->
  probes_total (ProbesCounts data) < UInt.modulus ->
  coords_in_grid (ProbesCounts data) p ->
  coords_in_grid (ProbesCounts data) q ->
  offset_at_least_minus_counts (ProbesCounts data) (scrollOffset data cascadeIndex) ->
  wrap_sum_fits (ProbesCounts data) p (scrollOffset data cascadeIndex) ->
  wrap_sum_fits (ProbesCounts data) q (scrollOffset data cascadeIndex) ->
  GetDDGIScrollingProbeIndex data cascadeIndex p
  = GetDDGIScrollingProbeIndex data cascadeIndex q ->
  p = q.
Proof. apply scrolling_index_injective_aux. Qed.

Lemma scrolling_index_injective_witness : Vec3 1 2 0 = Vec3 1 2 0.
Proof.
  apply (scrolling_index_injective
           (scrolled_grid (Vec3 4 3 2) (Vec3 (-4) 7 (-1))) 0 (Vec3 1 2 0) (Vec3 1 2 0)).
  - unfold positive_counts, UInt.modulus; simpl; lia.
  - unfold probes_total, UInt.modulus; simpl; lia.
  - unfold coords_in_grid; simpl; lia.
  - unfold coords_in_grid; simpl; lia.
  - unfold offset_at_least_minus_counts; simpl; lia.
  - unfold wrap_sum_fits, UInt.modulus; simpl; lia.
  - unfold wrap_sum_fits, UInt.modulus; simpl; lia.
  - reflexivity.
Defined.

Lemma mod_whole_periods (c k n : Z) : 0 < n -> 0 <= c < n -> (c + k * n) mod n = c.
Proof.
  intros Hn Hc. rewrite Z_mod_plus_full. now apply Z.mod_small.
Qed.

(** A scroll offset of whole periods is invisible: with offset
    k * counts on every axis (k >= -1, so in particular the zero offset and
    the full period counts itself) GetDDGIScrollingProbeIndex is
    GetDDGIProbeIndex. *)
Theorem scrolling_by_whole_periods (data : DDGIData) (cascadeIndex : Z)
        (periods : int3) (p : uint3) :
  positive_counts (ProbesCounts data) ->
  coords_in_grid (ProbesCounts data) p ->
  whole_periods (ProbesCounts data) periods (scrollOffset data cascadeIndex) ->
  -1 <= vx periods -> -1 <= vy periods -> -1 <= vz periods ->
  wrap_sum_fits (ProbesCounts data) p (scrollOffset data cascadeIndex) ->
  GetDDGIScrollingProbeIndex data cascadeIndex p = GetDDGIProbeIndex data p.
Proof.
  intros Hpos Hin Hper Hkx Hky Hkz Hfit.
  unfold GetDDGIScrollingProbeIndex.
  rewrite scrolledCoords_wrapped; try assumption.
  - f_equal.
    unfold whole_periods in Hper. destruct Hper as (Hx & Hy & Hz).
    unfold wrappedCoords, zip3; cbn [vx vy vz]. rewrite Hx, Hy, Hz.
    destruct Hpos as (HX & HY & HZ). destruct Hin as (Ha & Hb & Hc).
    rewrite !mod_whole_periods by lia.
    destruct p; reflexivity.
  - unfold whole_periods in Hper. destruct Hper as (Hx & Hy & Hz).
    unfold offset_at_least_minus_counts. rewrite Hx, Hy, Hz.
    destruct Hpos as (HX & HY & HZ). nia.
Qed.

Lemma scrolling_by_whole_periods_witness :
  let data := scrolled_grid (Vec3 4 3 2) (Vec3 4 0 (-2)) in
  GetDDGIScrollingProbeIndex data 0 (Vec3 1 2 0) = GetDDGIProbeIndex data (Vec3 1 2 0).
Proof.
  apply (scrolling_by_whole_periods
           (scrolled_grid (Vec3 4 3 2) (Vec3 4 0 (-2))) 0 (Vec3 1 0 (-1)) (Vec3 1 2 0)).
  - unfold positive_counts, UInt.modulus; simpl; lia.
  - unfold coords_in_grid; simpl; lia.
  - unfold whole_periods; simpl; lia.
  - simpl; lia.
  - simpl; lia.
  - simpl; lia.
  - unfold wrap_sum_fits, UInt.modulus; simpl; lia.
Defined.
End ScrollingPermutation.

(** ** The slots the sampler reads *)

Section SamplerSlots.
Local Open Scope Z_scope.

Lemma to_int_small (a : Z) : 0 <= a < 2147483648 -> UInt.to_int a = a.
Proof.
  intros Ha. unfold UInt.to_int.
  destruct (Z.ltb_spec a 2147483648); [reflexivity | lia].
Qed.

Lemma wrap_sum_fits_in_grid (counts p : uint3) (offset : int3) :
  coords_in_grid counts p ->
  wrap_sum_fits counts counts offset ->
  wrap_sum_fits counts p offset.
Proof.
  unfold coords_in_grid, wrap_sum_fits. lia.
Qed.

(** Every slot the sampling loop reads exists: for each of the 8 corners
    the clamped probe coordinate is in the grid, the scrolled flat index is
    below X*Y*Z, and the texel loaded from the state texture lies inside
    the (X*Y) x (Z*cascades) probe grid of the atlas, at mip level 0. *)
Theorem sampler_reads_valid_slots (data : DDGIData) (cascadeIndex : Z)
        (worldPosition : float3) (i : Z) :
  positive_counts (ProbesCounts data) ->
  0 <= cascadeIndex < CascadesCount data ->
  probes_total (ProbesCounts data) * CascadesCount data < 2147483648 ->
  offset_at_least_minus_counts (ProbesCounts data) (scrollOffset data cascadeIndex) ->
  wrap_sum_fits (ProbesCounts data) (ProbesCounts data) (scrollOffset data cascadeIndex) ->
  let probeCoords :=
    cornerProbeCoords data (baseProbeCoords data cascadeIndex worldPosition) i in
  let probeIndex := GetDDGIScrollingProbeIndex data cascadeIndex probeCoords in
  let texel := probeDataCoords data cascadeIndex probeIndex in
  coords_in_grid (ProbesCounts data) probeCoords /\
  0 <= probeIndex < probes_total (ProbesCounts data) /\
  0 <= vx texel < vx (ProbesCounts data) * vy (ProbesCounts data) /\
  0 <= vy texel < vz (ProbesCounts data) * CascadesCount data /\
  vz texel = 0.
Proof.
  intros Hpos Hc Htot Hoff Hfit. cbv zeta.
  assert (Htot' : probes_total (ProbesCounts data) * CascadesCount data < UInt.modulus)
    by (unfold UInt.modulus; lia).
  destruct (atlas_fits_cascade data cascadeIndex Hpos Hc Htot') as [Hone _].
  set (probeCoords :=
         cornerProbeCoords data (baseProbeCoords data cascadeIndex worldPosition) i).
  assert (Hin : coords_in_grid (ProbesCounts data) probeCoords)
    by (apply clampToGrid_in_grid; assumption).
  assert (Hidx : 0 <= GetDDGIScrollingProbeIndex data cascadeIndex probeCoords
                 < probes_total (ProbesCounts data)).
  { unfold GetDDGIScrollingProbeIndex.
    rewrite scrolledCoords_wrapped; try assumption.
    - apply index_of_coords_exact; try assumption.
      now apply wrappedCoords_in_grid.
    - now apply wrap_sum_fits_in_grid. }
  split; [exact Hin |]. split; [exact Hidx |].
  pose proof (texel_coords_in_atlas data cascadeIndex _ Hpos Hc Htot' Hidx) as Hatlas.
  cbv zeta in Hatlas. destruct Hatlas as [Hx Hy].
  destruct (atlas_dimensions data Hpos ltac:(lia) Htot') as (_ & _ & Hsx & Hsy).
  assert (Hxy : vx (ProbesCounts data) * vy (ProbesCounts data)
                <= probes_total (ProbesCounts data) * CascadesCount data).
  { unfold probes_total. destruct Hpos as (HX & HY & HZ).
    set (X := vx (ProbesCounts data)) in *. set (Y := vy (ProbesCounts data)) in *.
    set (Z0 := vz (ProbesCounts data)) in *. set (C := CascadesCount data) in *.
    assert (1 <= Z0 * C) by nia.
    replace (X * Y * Z0 * C) with (X * Y * (Z0 * C)) by ring. nia. }
  assert (Hzc : vz (ProbesCounts data) * CascadesCount data
                <= probes_total (ProbesCounts data) * CascadesCount data).
  { unfold probes_total. destruct Hpos as (HX & HY & HZ).
    set (X := vx (ProbesCounts data)) in *. set (Y := vy (ProbesCounts data)) in *.
    set (Z0 := vz (ProbesCounts data)) in *. set (C := CascadesCount data) in *.
    assert (1 <= X * Y) by nia.
    replace (X * Y * Z0 * C) with (X * Y * (Z0 * C)) by ring. nia. }
  unfold probeDataCoords; cbn [vx vy vz].
  rewrite !to_int_small by lia.
  repeat split; lia.
Qed.

Lemma sampler_reads_valid_slots_witness :
  let probeCoords := cornerProbeCoords demoData (baseProbeCoords demoData 0 centre) 7 in
  let probeIndex := GetDDGIScrollingProbeIndex demoData 0 probeCoords in
  let texel := probeDataCoords demoData 0 probeIndex in
  coords_in_grid (ProbesCounts demoData) probeCoords /\
  0 <= probeIndex < probes_total (ProbesCounts demoData) /\
  0 <= vx texel < vx (ProbesCounts demoData) * vy (ProbesCounts demoData) /\
  0 <= vy texel < vz (ProbesCounts demoData) * CascadesCount demoData /\
  vz texel = 0.
Proof.
  apply (sampler_reads_valid_slots demoData 0 centre 7).
  - exact demoData_positive.
  - simpl; lia.
  - unfold probes_total; simpl; lia.
  - unfold offset_at_least_minus_counts; simpl; lia.
  - unfold wrap_sum_fits, UInt.modulus; simpl; lia.
Defined.
End SamplerSlots.

(** ** The box of a cascade *)

Section CascadeBox.
Local Open Scope R_scope.

Lemma IZR_mirror (n c : Z) : IZR (n - 1 - c) = IZR n - 1 - IZR c.
Proof. now rewrite !minus_IZR. Qed.

(** The grid of a cascade is centred on the origin the sampler uses: the
    first probe sits at probesOrigin - probesExtent, the last one at
    probesOrigin + probesExtent, and the positions of a probe and of its
    mirror image (counts - 1 - coords) add up to twice probesOrigin.  The
    box of the fade weight is the box spanned by the probes. *)
Theorem grid_centred_on_origin (data : DDGIData) (cascadeIndex : Z) (p : uint3) :
  positive_counts (ProbesCounts data) ->
  GetDDGIProbeWorldPosition data cascadeIndex (Vec3 0 0 0)%Z
  = sub3 (probesOrigin data cascadeIndex) (probesExtent data cascadeIndex) /\
  GetDDGIProbeWorldPosition data cascadeIndex (map3 (fun n => n - 1)%Z (ProbesCounts data))
  = add3 (probesOrigin data cascadeIndex) (probesExtent data cascadeIndex) /\
  add3 (GetDDGIProbeWorldPosition data cascadeIndex p)
       (GetDDGIProbeWorldPosition data cascadeIndex (mirroredCoords (ProbesCounts data) p))
  = scale3 (probesOrigin data cascadeIndex) 2.
Proof.
  intros (Hx & Hy & Hz).
  unfold GetDDGIProbeWorldPosition, probesOrigin, probesExtent, probesSpacing,
    mirroredCoords.
  unfold add3, sub3, scale3, scale3l, float3_of, zip3, map3; cbn [vx vy vz].
  rewrite !IZR_sub_one by assumption.
  rewrite !IZR_mirror, !minus_IZR.
  repeat split; f_equal; lra.
Qed.

Lemma grid_centred_on_origin_witness :
  GetDDGIProbeWorldPosition demoData 0 (Vec3 0 0 0)%Z
  = sub3 (probesOrigin demoData 0) (probesExtent demoData 0) /\
  GetDDGIProbeWorldPosition demoData 0 (map3 (fun n => n - 1)%Z (ProbesCounts demoData))
  = add3 (probesOrigin demoData 0) (probesExtent demoData 0) /\
  add3 (GetDDGIProbeWorldPosition demoData 0 (Vec3 1 0 1)%Z)
       (GetDDGIProbeWorldPosition demoData 0
          (mirroredCoords (ProbesCounts demoData) (Vec3 1 0 1)%Z))
  = scale3 (probesOrigin demoData 0) 2.
Proof.
  apply (grid_centred_on_origin demoData 0 (Vec3 1 0 1)%Z).
  exact demoData_positive.
Defined.

Lemma Min3_le (a : float3) : Min3 a <= vx a /\ Min3 a <= vy a /\ Min3 a <= vz a.
Proof.
  unfold Min3.
  pose proof (Rmin_l (Rmin (vx a) (vy a)) (vz a)).
  pose proof (Rmin_r (Rmin (vx a) (vy a)) (vz a)).
  pose proof (Rmin_l (vx a) (vy a)).
  pose proof (Rmin_r (vx a) (vy a)).
  repeat split; lra.
Qed.

Lemma Min3_glb (a : float3) (m : R) : m <= vx a -> m <= vy a -> m <= vz a -> m <= Min3 a.
Proof.
  intros Hx Hy Hz. unfold Min3. repeat apply Rmin_glb; assumption.
Qed.

Lemma saturate_nonpositive (a : R) : a <= 0 -> saturate a = 0.
Proof.
  intros Ha. unfold saturate.
  rewrite Rmax_right by exact Ha. apply Rmin_left. lra.
Qed.

Lemma saturate_at_least_one (a : R) : 1 <= a -> saturate a = 1.
Proof.
  intros Ha. unfold saturate.
  rewrite Rmax_left by lra. apply Rmin_right. exact Ha.
Qed.

Lemma cascadeWeight_outside (data : DDGIData) (worldPosition : float3) (j : Z) :
  0 < probesSpacing data j ->
  outside_cascade data j worldPosition ->
  cascadeWeight data worldPosition j = 0.
Proof.
  intros Hs Hout. unfold cascadeWeight.
  apply saturate_nonpositive.
  match goal with |- Min3 ?v / _ <= 0 => pose proof (Min3_le v) as (Hx & Hy & Hz) end.
  unfold outside_cascade in Hout. cbv zeta in Hout.
  unfold sub3, abs3, zip3, map3 in *.
  cbn [vx vy vz] in *.
  match goal with |- ?m / ?f <= 0 =>
    assert (Hm : m <= 0) by (destruct Hout as [H | [H | H]]; lra);
    assert (Hf : 0 < / f) by (apply Rinv_0_lt_compat; lra);
    unfold Rdiv; nra
  end.
Qed.

Lemma cascadeWeight_core (data : DDGIData) (worldPosition : float3) (j : Z) :
  0 < probesSpacing data j ->
  inside_core data j worldPosition ->
  cascadeWeight data worldPosition j = 1.
Proof.
  intros Hs (Hx & Hy & Hz). unfold cascadeWeight.
  apply saturate_at_least_one.
  set (f := probesSpacing data j * 0.5) in *.
  assert (Hf : 0 < f) by (unfold f; lra).
  match goal with |- 1 <= Min3 ?v / _ => assert (Hm : f <= Min3 v) end.
  { apply Min3_glb; unfold sub3, abs3, zip3, map3; cbn [vx vy vz];
      unfold sub3, zip3 in Hx, Hy, Hz; cbn [vx vy vz] in Hx, Hy, Hz; lra. }
  apply Rmult_le_reg_r with f; [exact Hf |].
  unfold Rdiv. rewrite Rmult_assoc, Rinv_l by lra. lra.
Qed.

Lemma cascadeWeight_bounds (data : DDGIData) (worldPosition : float3) (j : Z) :
  0 <= cascadeWeight data worldPosition j <= 1.
Proof. unfold cascadeWeight. apply saturate_bounds. Qed.
End CascadeBox.

Section CascadeEdges.
Local Open Scope R_scope.
Variable GetOctahedralCoords : float3 -> float2.
Variable srgbBlending : bool.
Variable data : DDGIData.
Variables probesState probesDistance probesIrradiance : Texture2D.

Let sample := SampleDDGIIrradiance GetOctahedralCoords srgbBlending data
                                   probesState probesDistance probesIrradiance.

(** A position that lies on or beyond the box of every cascade on some
    axis gets the fallback irradiance, for every nonnegative dither value:
    outside the box the weight of a cascade is exactly 0. *)
Theorem outside_every_cascade_gives_fallback
        (worldPosition worldNormal : float3) (bias dither : R) :
  (0 <= CascadesCount data)%Z ->
  0 <= dither ->
  (forall j, (0 <= j < CascadesCount data)%Z ->
     0 < probesSpacing data j /\ outside_cascade data j worldPosition) ->
  sample worldPosition worldNormal bias dither = FallbackIrradiance data.
Proof.
  intros Hc Hd Hout.
  unfold sample, SampleDDGIIrradiance.
  rewrite selectCascade_none; [now rewrite Z.eqb_refl | exact Hc |].
  intros j Hj. destruct (Hout j Hj) as [Hs Ho].
  rewrite cascadeWeight_outside by assumption. lra.
Qed.

(** The weight of a cascade never exceeds 1, so a dither value of 1 or more
    switches every cascade off and the fallback irradiance is returned. *)
Theorem dither_of_one_gives_fallback
        (worldPosition worldNormal : float3) (bias dither : R) :
  (0 <= CascadesCount data)%Z ->
  1 <= dither ->
  sample worldPosition worldNormal bias dither = FallbackIrradiance data.
Proof.
  intros Hc Hd.
  unfold sample, SampleDDGIIrradiance.
  rewrite selectCascade_none; [now rewrite Z.eqb_refl | exact Hc |].
  intros j Hj. pose proof (cascadeWeight_bounds data worldPosition j). lra.
Qed.

(** Raising the dither value never selects an earlier cascade: the selected
    index is monotone in the dither value (the count itself standing for
    "no cascade"). *)
Theorem selected_cascade_monotone_in_dither (worldPosition : float3) (d1 d2 : R) :
  (0 <= CascadesCount data)%Z ->
  d1 <= d2 ->
  (selectCascade data worldPosition d1 <= selectCascade data worldPosition d2)%Z.
Proof.
  intros Hc Hd.
  destruct (selectCascade_first data worldPosition d1 Hc) as (Hr1 & Hb1 & Ha1).
  destruct (selectCascade_first data worldPosition d2 Hc) as (Hr2 & Hb2 & Ha2).
  set (k1 := selectCascade data worldPosition d1) in *.
  set (k2 := selectCascade data worldPosition d2) in *.
  destruct (Z_lt_le_dec k2 k1) as [Hlt | Hle]; [| exact Hle].
  exfalso. apply (Hb1 k2); [lia |].
  assert (cascadeWeight data worldPosition k2 > d2) by (apply Ha2; lia).
  lra.
Qed.

(** In the core of the first cascade, at least half a spacing inside its
    box on every axis, the weight is 1 and the first cascade is selected
    whatever the dither value below 1 is: no dithering happens there. *)
Theorem core_of_first_cascade_is_selected (worldPosition : float3) (dither : R) :
  (1 <= CascadesCount data)%Z ->
  0 < probesSpacing data 0 ->
  inside_core data 0 worldPosition ->
  dither < 1 ->
  selectCascade data worldPosition dither = 0%Z.
Proof.
  intros Hc Hs Hcore Hd.
  apply selectCascade_unique.
  - lia.
  - rewrite cascadeWeight_core by assumption. lra.
  - intros j Hj. lia.
Qed.
End CascadeEdges.

Section CascadeEdgeWitnesses.
Local Open Scope R_scope.

Lemma demo_spacing : probesSpacing demoData 0 = 2.
Proof. reflexivity. Defined.

Lemma demo_origin : probesOrigin demoData 0 = Vec3 0 0 0.
Proof.
  unfold probesOrigin, add3, scale3, float3_of, zip3, map3; cbn.
  f_equal; ring.
Defined.

Lemma demo_extent : probesExtent demoData 0 = Vec3 1 1 1.
Proof.
  unfold probesExtent, scale3, float3_of, map3; cbn [vx vy vz ProbesCounts demoData scenarioData].
  change (UInt.sub 2 1) with 1%Z. rewrite demo_spacing.
  f_equal; lra.
Defined.

Lemma demo_outside : outside_cascade demoData 0 (Vec3 5 0 0).
Proof.
  unfold outside_cascade. cbv zeta. rewrite demo_origin, demo_extent.
  left. unfold sub3, zip3; cbn [vx vy vz].
  replace (5 - 0) with 5 by ring. rewrite Rabs_right; lra.
Defined.

Lemma demo_core : inside_core demoData 0 centre.
Proof.
  unfold inside_core. cbv zeta. rewrite demo_origin, demo_extent, demo_spacing.
  unfold centre, sub3, zip3; cbn [vx vy vz].
  replace (0 - 0) with 0 by ring. rewrite Rabs_R0.
  repeat split; lra.
Defined.

Lemma outside_every_cascade_gives_fallback_witness :
  SampleDDGIIrradiance octahedralOrigin true demoData
                       activeState unoccluded greyIrradiance (Vec3 5 0 0) upNormal 0.5 0
  = FallbackIrradiance demoData.
Proof.
  apply (outside_every_cascade_gives_fallback octahedralOrigin true demoData
           activeState unoccluded greyIrradiance (Vec3 5 0 0) upNormal 0.5 0).
  - simpl; lia.
  - lra.
  - intros j Hj. assert (j = 0%Z) by (simpl in Hj; lia). subst j.
    split; [rewrite demo_spacing; lra | exact demo_outside].
Defined.

Lemma dither_of_one_gives_fallback_witness :
  SampleDDGIIrradiance octahedralOrigin true demoData
                       activeState unoccluded greyIrradiance centre upNormal 0.5 1
  = FallbackIrradiance demoData.
Proof.
  apply (dither_of_one_gives_fallback octahedralOrigin true demoData
           activeState unoccluded greyIrradiance centre upNormal 0.5 1).
  - simpl; lia.
  - lra.
Defined.

Lemma selected_cascade_monotone_in_dither_witness :
  (selectCascade demoData centre 0.25 <= selectCascade demoData centre 2)%Z.
Proof.
  apply (selected_cascade_monotone_in_dither demoData centre 0.25 2).
  - simpl; lia.
  - lra.
Defined.

Lemma core_of_first_cascade_is_selected_witness :
  selectCascade demoData centre 0.75 = 0%Z.
Proof.
  apply (core_of_first_cascade_is_selected demoData centre 0.75).
  - simpl; lia.
  - rewrite demo_spacing; lra.
  - exact demo_core.
  - lra.
Defined.
End CascadeEdgeWitnesses.

(** ** A scrolled volume *)

Section ScrolledVolume.
Local Open Scope R_scope.

Lemma scrolled_positive : positive_counts (ProbesCounts scrolledData).
Proof. unfold positive_counts, UInt.modulus; simpl; lia. Defined.

Lemma scrolled_spacing : probesSpacing scrolledData 0 = 2.
Proof. reflexivity. Defined.

Lemma scrolled_origin : probesOrigin scrolledData 0 = Vec3 10 0 0.
Proof.
  unfold probesOrigin, add3, scale3, float3_of, zip3, map3; cbn.
  f_equal; lra.
Defined.

Lemma scrolled_extent : probesExtent scrolledData 0 = Vec3 1 1 1.
Proof.
  unfold probesExtent, scale3, float3_of, map3; cbn [vx vy vz ProbesCounts scrolledData].
  change (UInt.sub 2 1) with 1%Z. rewrite scrolled_spacing.
  f_equal; lra.
Defined.

(** The configured origin lies outside the box of the scrolled cascade. *)
Lemma scrolled_outside : outside_cascade scrolledData 0 centre.
Proof.
  unfold outside_cascade. cbv zeta. rewrite scrolled_origin, scrolled_extent.
  left. unfold centre, sub3, zip3; cbn [vx vy vz].
  replace (0 - 10) with (- 10) by ring. rewrite Rabs_left; lra.
Defined.

(** The centre of the scrolled box is in the core of the cascade. *)
Lemma scrolled_core : inside_core scrolledData 0 scrolledCentre.
Proof.
  unfold inside_core. cbv zeta. rewrite scrolled_origin, scrolled_extent, scrolled_spacing.
  unfold scrolledCentre, sub3, zip3; cbn [vx vy vz].
  replace (10 - 10) with 0 by ring. replace (0 - 0) with 0 by ring. rewrite Rabs_R0.
  repeat split; lra.
Defined.

Lemma scrolled_weight_at_centre : cascadeWeight scrolledData scrolledCentre 0 = 1.
Proof.
  apply cascadeWeight_core; [rewrite scrolled_spacing; lra | exact scrolled_core].
Defined.

Lemma scrolled_weight_at_origin : cascadeWeight scrolledData centre 0 = 0.
Proof.
  apply cascadeWeight_outside; [rewrite scrolled_spacing; lra | exact scrolled_outside].
Defined.

(** C1 as stated, with the configured origin of the cascade, fails once
    the volume has scrolled: with counts (2,2,2), spacing 2, configured
    origin (0,0,0) and scroll offset (5,0,0), at world position (0,0,0)
    the stated weight of cascade 0 is 1, above the dither value 0, yet the
    code centres the box on (10,0,0), finds weight 0, selects no cascade
    and returns the fallback irradiance. *)
Lemma configured_origin_selects_no_cascade :
  let data := scrolledData in
  let weight j :=
    fadeWeight (cascadeOrigin data j) (cascadeSpacing data j) (ProbesCounts data) centre in
  positive_counts (ProbesCounts data) /\
  (1 <= CascadesCount data <= 4)%Z /\
  weight 0%Z = 1 /\
  weight 0%Z > 0 /\
  cascadeWeight data centre 0 = 0 /\
  selectCascade data centre 0 = CascadesCount data /\
  selectCascade data centre 0 <> 0%Z /\
  SampleDDGIIrradiance octahedralOrigin true data
                       activeState unoccluded greyIrradiance centre upNormal 0 0
  = FallbackIrradiance data.
Proof.
  cbv zeta.
  assert (Hweight : fadeWeight (cascadeOrigin scrolledData 0) (cascadeSpacing scrolledData 0)
                               (ProbesCounts scrolledData) centre = 1).
  { unfold fadeWeight, cascadeOrigin, cascadeSpacing, centre, clampR, sub3, zip3, map3.
    cbn [vx vy vz xyz w ProbesCounts ProbesOriginAndSpacing scrolledData float4_at nth Z.to_nat].
    replace (0 - 0) with 0 by ring. rewrite Rabs_R0.
    replace (0.5 * 2 * (2 - 1) - 0) with 1 by lra.
    rewrite !(Rmin_left 1 1) by lra.
    replace (1 / (0.5 * 2)) with 1 by lra.
    rewrite Rmax_left by lra. rewrite Rmin_left by lra. reflexivity. }
  assert (Hsel : selectCascade scrolledData centre 0 = CascadesCount scrolledData).
  { apply selectCascade_none; [simpl; lia |].
    intros j Hj. assert (j = 0%Z) by (simpl in Hj; lia). subst j.
    rewrite scrolled_weight_at_origin. lra. }
  split; [exact scrolled_positive |].
  split; [simpl; lia |].
  split; [exact Hweight |].
  split; [rewrite Hweight; lra |].
  split; [exact scrolled_weight_at_origin |].
  split; [exact Hsel |].
  split; [rewrite Hsel; simpl; lia |].
  unfold SampleDDGIIrradiance. rewrite Hsel, Z.eqb_refl. reflexivity.
Qed.

Lemma cascade_first_match_or_fallback_witness :
  let weight j :=
    fadeWeight (scrolledOrigin (cascadeOrigin scrolledData j) (scrollOffset scrolledData j)
                               (cascadeSpacing scrolledData j))
               (cascadeSpacing scrolledData j) (ProbesCounts scrolledData) scrolledCentre in
  (forall k, (0 <= k < CascadesCount scrolledData)%Z ->
     weight k > 0 ->
     (forall j, (0 <= j < k)%Z -> ~ weight j > 0) ->
     selectCascade scrolledData scrolledCentre 0 = k /\
     SampleDDGIIrradiance octahedralOrigin true scrolledData
                          activeState unoccluded greyIrradiance scrolledCentre upNormal 0 0
     = sampleCascade octahedralOrigin true scrolledData
                     activeState unoccluded greyIrradiance k scrolledCentre upNormal 0) /\
  ((forall j, (0 <= j < CascadesCount scrolledData)%Z -> ~ weight j > 0) ->
     selectCascade scrolledData scrolledCentre 0 = CascadesCount scrolledData /\
     SampleDDGIIrradiance octahedralOrigin true scrolledData
                          activeState unoccluded greyIrradiance scrolledCentre upNormal 0 0
     = FallbackIrradiance scrolledData).
Proof.
  apply (cascade_first_match_or_fallback octahedralOrigin true scrolledData
           activeState unoccluded greyIrradiance scrolledCentre upNormal 0 0).
  - exact scrolled_positive.
  - simpl; lia.
  - lra.
Defined.

(** C5 as stated, with the configured origin of the cascade, fails once
    the volume has scrolled: in the volume above, at world position
    (10,0,0), which lies in the selected cascade 0, the code converts the
    quotient (10 - 10 + 1) / 2 = 0.5 and takes base coordinate 0 along x,
    where the stated formula floors (10 - 0 + 1) / 2 = 5.5 and clamps it
    to 1. *)
Lemma configured_origin_base_probe_differs :
  let data := scrolledData in
  positive_counts (ProbesCounts data) /\
  cascadeWeight data scrolledCentre 0 > 0 /\
  selectCascade data scrolledCentre 0 = 0%Z /\
  baseProbeCoords data 0 scrolledCentre = (Vec3 0 0 0)%Z /\
  baseCoordsFormula (cascadeOrigin data 0) (cascadeSpacing data 0) (ProbesCounts data)
                    scrolledCentre
  = (Vec3 1 0 0)%Z /\
  baseProbeCoords data 0 scrolledCentre
  <> baseCoordsFormula (cascadeOrigin data 0) (cascadeSpacing data 0) (ProbesCounts data)
                       scrolledCentre.
Proof.
  cbv zeta.
  assert (Hhalf : Zfloor 0.5 = 0%Z) by (apply Zfloor_eq; simpl; lra).
  assert (Hfive : Zfloor 5.5 = 5%Z) by (apply Zfloor_eq; simpl; lra).
  assert (Hbase : baseProbeCoords scrolledData 0 scrolledCentre = (Vec3 0 0 0)%Z).
  { unfold baseProbeCoords, clampToGrid.
    rewrite scrolled_origin, scrolled_extent, scrolled_spacing.
    unfold scrolledCentre, div3, add3, sub3, zip3, map3.
    cbn [vx vy vz ProbesCounts scrolledData].
    replace ((10 - 10 + 1) / 2) with 0.5 by lra.
    replace ((0 - 0 + 1) / 2) with 0.5 by lra.
    rewrite (ftou_truncates_in_range 0.5) by lra.
    rewrite Hhalf. reflexivity. }
  assert (Hformula : baseCoordsFormula (cascadeOrigin scrolledData 0)
                       (cascadeSpacing scrolledData 0) (ProbesCounts scrolledData)
                       scrolledCentre = (Vec3 1 0 0)%Z).
  { unfold baseCoordsFormula, cascadeOrigin, cascadeSpacing, scrolledCentre,
      add3, sub3, zip3, map3.
    cbn [vx vy vz xyz w ProbesCounts ProbesOriginAndSpacing scrolledData float4_at nth
         Z.to_nat].
    replace ((10 - 0 + 0.5 * 2 * (2 - 1)) / 2) with 5.5 by lra.
    replace ((0 - 0 + 0.5 * 2 * (2 - 1)) / 2) with 0.5 by lra.
    rewrite Hhalf, Hfive. reflexivity. }
  split; [exact scrolled_positive |].
  split; [rewrite scrolled_weight_at_centre; lra |].
  split.
  { apply selectCascade_unique; [simpl; lia | rewrite scrolled_weight_at_centre; lra |].
    intros j Hj. lia. }
  split; [exact Hbase |].
  split; [exact Hformula |].
  rewrite Hbase, Hformula. discriminate.
Qed.

(** At the centre of the scrolled box the cascade is selected and the
    quotient is 0.5 on every axis; at the configured origin the quotient
    along x is (0 - 10 + 1) / 2 = -4.5. *)
Lemma base_probe_coords_formula_witness :
  (let spacing := cascadeSpacing scrolledData 0 in
   let origin := scrolledOrigin (cascadeOrigin scrolledData 0)
                                (scrollOffset scrolledData 0) spacing in
   let extent := map3 (fun n => 0.5 * spacing * (IZR n - 1)) (ProbesCounts scrolledData) in
   let quotient := map3 (fun c => c / spacing) (add3 (sub3 scrolledCentre origin) extent) in
   let base := baseProbeCoords scrolledData 0 scrolledCentre in
   base = baseCoordsFormula origin spacing (ProbesCounts scrolledData) scrolledCentre /\
   (0 < vx quotient < IZR (vx (ProbesCounts scrolledData)) - 1 /\
    0 < vy quotient < IZR (vy (ProbesCounts scrolledData)) - 1 /\
    0 < vz quotient < IZR (vz (ProbesCounts scrolledData)) - 1) /\
   base = map3 Zfloor quotient /\
   (forall convert, truncates_in_range convert ->
      baseProbeCoordsWith convert scrolledData 0 scrolledCentre = base)) /\
  vx (baseProbeCoords scrolledData 0 centre) = 0%Z.
Proof.
  split.
  - apply (proj1 (base_probe_coords_formula scrolledData 0 scrolledCentre
                    scrolled_positive) 0).
    + change (cascadeSpacing scrolledData 0) with 2. lra.
    + lra.
    + rewrite scrolled_weight_at_centre. lra.
  - apply (proj2 (base_probe_coords_formula scrolledData 0 centre scrolled_positive)
             ftou ftou_saturates_negative).
    unfold cascadeSpacing, cascadeOrigin, scrollOffset, scrolledOrigin, centre,
      add3, sub3, zip3, map3.
    cbn [vx vy vz xyz w ProbesCounts ProbesOriginAndSpacing ProbesScrollOffsets
         scrolledData float4_at int4_at nth Z.to_nat].
    lra.
Defined.
End ScrolledVolume.

(** ** Interpolation inside a selected cascade *)

Section SelectedInterpolation.
Local Open Scope R_scope.

Lemma base_axis (n : Z) (q : R) :
  (0 < n < UInt.modulus)%Z -> 0 < q < IZR n - 1 ->
  let b := UInt.clamp (ftou q) 0 (UInt.sub n 1) in
  b = Zfloor q /\ (0 <= b <= n - 2)%Z /\ IZR b <= q < IZR b + 1.
Proof.
  intros Hn Hq. cbv zeta.
  rewrite ftou_clamped by assumption. unfold clampZ.
  pose proof (Zfloor_bound q) as [Hlo Hhi].
  assert (Hnonneg : (0 <= Zfloor q)%Z) by (apply Zfloor_lub; simpl; lra).
  assert (Hbelow : (Zfloor q < n - 1)%Z).
  { apply lt_IZR. rewrite minus_IZR. simpl. lra. }
  rewrite Z.max_l by lia. rewrite Z.min_l by lia.
  repeat split; try lia; lra.
Qed.

Lemma corner_axis_unclamped (n b o : Z) :
  (0 < n < UInt.modulus)%Z -> (0 <= b <= n - 2)%Z -> is_bit o ->
  UInt.clamp (UInt.add b o) 0 (UInt.sub n 1) = (b + o)%Z.
Proof.
  intros Hn Hb Ho. unfold UInt.clamp.
  rewrite sub_small by lia.
  rewrite add_small by (destruct Ho; subst; lia).
  destruct Ho; subst; lia.
Qed.

Lemma saturate_identity (a : R) : 0 <= a <= 1 -> saturate a = a.
Proof.
  intros Ha. unfold saturate.
  rewrite Rmax_left by lra. apply Rmin_left. lra.
Qed.

(** In a cascade selected with a nonnegative dither value and a positive
    spacing, nothing is clamped: the base coordinate is the floor of the
    grid-space position q = (worldPos - probesOrigin + probesExtent) /
    spacing and is at most counts - 2, the eight corners are the eight
    different probes base + offset, and without bias the interpolation
    fraction biasAlpha is the fractional part q - base. *)
Theorem selected_cascade_interpolates (data : DDGIData) (cascadeIndex : Z)
        (worldPosition worldNormal : float3) (dither : R) :
  positive_counts (ProbesCounts data) ->
  0 < probesSpacing data cascadeIndex ->
  0 <= dither ->
  cascadeWeight data worldPosition cascadeIndex > dither ->
  let q := div3 (add3 (sub3 worldPosition (probesOrigin data cascadeIndex))
                      (probesExtent data cascadeIndex))
                (probesSpacing data cascadeIndex) in
  let base := baseProbeCoords data cascadeIndex worldPosition in
  base = map3 Zfloor q /\
  (vx base <= vx (ProbesCounts data) - 2 /\
   vy base <= vy (ProbesCounts data) - 2 /\
   vz base <= vz (ProbesCounts data) - 2)%Z /\
  (forall i, (0 <= i < 8)%Z ->
     cornerProbeCoords data base i = zip3 Z.add base (probeCoordsOffset i)) /\
  biasAlphaOf data cascadeIndex
              (add3 worldPosition (surfaceBias data worldNormal 0))
              (GetDDGIProbeWorldPosition data cascadeIndex base)
  = sub3 q (float3_of base).
Proof.
  intros Hpos Hs Hd Hw.
  pose proof (selected_quotient_in_range data worldPosition cascadeIndex dither
                Hpos Hs Hd Hw) as Hq.
  cbv zeta in *. destruct Hq as (Hqx & Hqy & Hqz).
  pose proof Hpos as (Hx & Hy & Hz).
  destruct (base_axis _ _ Hx Hqx) as (Hex & Hbx & Hfx).
  destruct (base_axis _ _ Hy Hqy) as (Hey & Hby & Hfy).
  destruct (base_axis _ _ Hz Hqz) as (Hez & Hbz & Hfz).
  set (q := div3 (add3 (sub3 worldPosition (probesOrigin data cascadeIndex))
                       (probesExtent data cascadeIndex))
                 (probesSpacing data cascadeIndex)) in *.
  assert (Hbase : baseProbeCoords data cascadeIndex worldPosition
                  = Vec3 (UInt.clamp (ftou (vx q)) 0 (UInt.sub (vx (ProbesCounts data)) 1))
                         (UInt.clamp (ftou (vy q)) 0 (UInt.sub (vy (ProbesCounts data)) 1))
                         (UInt.clamp (ftou (vz q)) 0 (UInt.sub (vz (ProbesCounts data)) 1)))
    by reflexivity.
  rewrite Hbase. clear Hbase.
  set (bx := UInt.clamp (ftou (vx q)) 0 (UInt.sub (vx (ProbesCounts data)) 1)) in *.
  set (by' := UInt.clamp (ftou (vy q)) 0 (UInt.sub (vy (ProbesCounts data)) 1)) in *.
  set (bz := UInt.clamp (ftou (vz q)) 0 (UInt.sub (vz (ProbesCounts data)) 1)) in *.
  clearbody bx by' bz. cbn [vx vy vz].
  split; [unfold map3; congruence |].
  split; [lia |].
  split.
  - intros i Hi.
    destruct (probeCoordsOffset_bits i Hi) as (Hox & Hoy & Hoz).
    unfold cornerProbeCoords, clampToGrid, zip3; cbn [vx vy vz].
    rewrite !corner_axis_unclamped by assumption.
    reflexivity.
  - clear Hex Hey Hez Hqx Hqy Hqz Hw.
    unfold q in *. clear q.
    unfold biasAlphaOf, surfaceBias, GetDDGIProbeWorldPosition.
    unfold probesOrigin, probesExtent, probesSpacing in *.
    unfold div3, add3, sub3, scale3, scale3l, float3_of, zip3, map3 in *.
    cbn [vx vy vz] in *.
    rewrite !IZR_sub_one in * by assumption.
    f_equal;
      match goal with
      | |- saturate ?t = ?r =>
          replace t with r by (field; lra); apply saturate_identity; lra
      end.
Qed.

Lemma selected_cascade_interpolates_witness :
  let q := div3 (add3 (sub3 centre (probesOrigin demoData 0)) (probesExtent demoData 0))
                (probesSpacing demoData 0) in
  let base := baseProbeCoords demoData 0 centre in
  base = map3 Zfloor q /\
  (vx base <= vx (ProbesCounts demoData) - 2 /\
   vy base <= vy (ProbesCounts demoData) - 2 /\
   vz base <= vz (ProbesCounts demoData) - 2)%Z /\
  (forall i, (0 <= i < 8)%Z ->
     cornerProbeCoords demoData base i = zip3 Z.add base (probeCoordsOffset i)) /\
  biasAlphaOf demoData 0 (add3 centre (surfaceBias demoData upNormal 0))
              (GetDDGIProbeWorldPosition demoData 0 base)
  = sub3 q (float3_of base).
Proof.
  apply (selected_cascade_interpolates demoData 0 centre upNormal 0).
  - exact demoData_positive.
  - rewrite demo_spacing; lra.
  - lra.
  - unfold centre. rewrite (scenario_cascadeWeight demoData demoData_scenario). lra.
Defined.
End SelectedInterpolation.

(** ** The blend is a weighted mean *)

Section PowFacts.
Local Open Scope R_scope.

Lemma pow_nonneg (a b : R) : 0 <= pow a b.
Proof.
  unfold pow. destruct (Rlt_dec 0 a); [| lra].
  unfold Rpower. left. apply exp_pos.
Qed.

Lemma pow_monotone (a b g : R) : 0 <= g -> 0 <= a <= b -> pow a g <= pow b g.
Proof.
  intros Hg Hab. unfold pow.
  destruct (Rlt_dec 0 a) as [Ha | Ha]; destruct (Rlt_dec 0 b) as [Hb | Hb]; try lra.
  - apply Rle_Rpower_l; lra.
  - unfold Rpower. left. apply exp_pos.
Qed.

Lemma pow_half_twice (a g : R) : pow a (g * 0.5) * pow a (g * 0.5) = pow a g.
Proof.
  unfold pow. destruct (Rlt_dec 0 a); [| lra].
  rewrite <- Rpower_plus. f_equal. lra.
Qed.
End PowFacts.

Section WeightedMean.
Local Open Scope R_scope.
Variable GetOctahedralCoords : float3 -> float2.
Variable srgbBlending : bool.
Variable data : DDGIData.
Variables probesState probesDistance probesIrradiance : Texture2D.
Variables dlo dhi : R.

Let step := accumulateProbe GetOctahedralCoords srgbBlending data
                            probesState probesDistance probesIrradiance.
Let decode := probeIrradianceOf GetOctahedralCoords srgbBlending data probesIrradiance.

Hypothesis Hdecoded :
  forall cascadeIndex probeIndex worldNormal,
    channels_between (decode cascadeIndex probeIndex worldNormal) dlo dhi.

(** The accumulator holds a weight and, per channel, a sum between
    [dlo] and [dhi] times that weight. *)
Let bounded (irradiance : float4) : Prop :=
  0 <= w irradiance /\
  channels_between (xyz irradiance) (dlo * w irradiance) (dhi * w irradiance).

Lemma accumulateProbe_bounded (cascadeIndex : Z)
      (worldPosition worldNormal biasedWorldPosition : float3) (base : uint3)
      (biasAlpha : float3) (irradiance : float4) (i : Z) :
  bounded irradiance ->
  let next := step cascadeIndex worldPosition worldNormal biasedWorldPosition base
                   biasAlpha irradiance i in
  bounded next /\ w irradiance <= w next /\
  (w (Load probesState
           (probeDataCoords data cascadeIndex
              (GetDDGIScrollingProbeIndex data cascadeIndex (cornerProbeCoords data base i))))
   <> DDGI_PROBE_STATE_INACTIVE -> w irradiance < w next).
Proof.
  intros (Hw & Hx & Hy & Hz). cbv zeta. unfold step, accumulateProbe.
  destruct (Req_dec_T _ _) as [Hinactive | Hactive].
  - repeat split; try assumption; try lra; try (intros Hne; contradiction).
  - match goal with
    | |- context [probeWeight ?g ?d ?t ?c ?p ?pos ?wp ?n ?b ?a ?o] =>
        pose proof (probeWeight_pos g d t c p pos wp n b a o) as Hpos;
        set (weight := probeWeight g d t c p pos wp n b a o) in *
    end.
    match goal with
    | |- context [probeIrradianceOf ?g ?s ?d ?t ?c ?p ?n] =>
        pose proof (Hdecoded c p n) as (Hsx & Hsy & Hsz);
        unfold decode in Hsx, Hsy, Hsz;
        set (colour := probeIrradianceOf g s d t c p n) in *
    end.
    unfold bounded, channels_between, add3, scale3, zip3, map3; cbn [w xyz vx vy vz].
    repeat split; try nra; try (intros _; lra).
Qed.

Lemma fold_bounded (cascadeIndex : Z)
      (worldPosition worldNormal biasedWorldPosition : float3) (base : uint3)
      (biasAlpha : float3) (indices : list Z) :
  forall irradiance : float4,
    bounded irradiance ->
    let total := fold_left (step cascadeIndex worldPosition worldNormal
                                 biasedWorldPosition base biasAlpha)
                           indices irradiance in
    bounded total /\ w irradiance <= w total /\
    (forall i, In i indices ->
       w (Load probesState
               (probeDataCoords data cascadeIndex
                  (GetDDGIScrollingProbeIndex data cascadeIndex
                     (cornerProbeCoords data base i))))
       <> DDGI_PROBE_STATE_INACTIVE ->
       w irradiance < w total).
Proof.
  induction indices as [| j rest IH]; intros irradiance Hb; cbn [fold_left].
  - cbv zeta. repeat split; try apply Hb; try lra. intros i [].
  - destruct (accumulateProbe_bounded cascadeIndex worldPosition worldNormal
                biasedWorldPosition base biasAlpha irradiance j Hb)
      as (Hnext & Hle & Hlt).
    cbv zeta in *.
    destruct (IH _ Hnext) as (Htotal & Hle' & Hlt').
    repeat split; try apply Htotal; try lra.
    intros i [-> | Hin] Hactive.
    + specialize (Hlt Hactive). lra.
    + specialize (Hlt' i Hin Hactive). lra.
Qed.

Lemma normalizeIrradiance_bounded (irradiance : float4) :
  bounded irradiance -> 0 < w irradiance ->
  (srgbBlending = true -> 0 <= dlo) ->
  channels_between (normalizeIrradiance srgbBlending irradiance)
    ((if srgbBlending then dlo * dlo else dlo) * (2 * PI))
    ((if srgbBlending then dhi * dhi else dhi) * (2 * PI)).
Proof.
  intros (Hw & Hx & Hy & Hz) Hpos Hsrgb.
  unfold normalizeIrradiance.
  destruct (Rgt_dec (w irradiance) 0) as [_ | Hno]; [| lra].
  pose proof PI_RGT_0 as Hpi.
  set (W := w irradiance) in *.
  assert (Hinv : 0 < 1 / W) by (apply Rdiv_lt_0_compat; lra).
  assert (Hone : W * (1 / W) = 1) by (field; lra).
  assert (Hmean : forall c, dlo * W <= c <= dhi * W -> dlo <= c * (1 / W) <= dhi).
  { intros c [Hl Hh]. split.
    - replace dlo with (dlo * W * (1 / W)) by (rewrite Rmult_assoc, Hone; ring).
      apply Rmult_le_compat_r; lra.
    - replace dhi with (dhi * W * (1 / W)) by (rewrite Rmult_assoc, Hone; ring).
      apply Rmult_le_compat_r; lra. }
  pose proof (Hmean _ Hx) as Hmx. pose proof (Hmean _ Hy) as Hmy.
  pose proof (Hmean _ Hz) as Hmz.
  unfold channels_between, scale3, mul3, zip3, map3.
  destruct srgbBlending; cbn [vx vy vz].
  - specialize (Hsrgb eq_refl).
    set (mx := vx (xyz irradiance) * (1 / W)) in *.
    set (my := vy (xyz irradiance) * (1 / W)) in *.
    set (mz := vz (xyz irradiance) * (1 / W)) in *.
    assert (dlo * dlo <= mx * mx <= dhi * dhi) by nra.
    assert (dlo * dlo <= my * my <= dhi * dhi) by nra.
    assert (dlo * dlo <= mz * mz <= dhi * dhi) by nra.
    repeat split; apply Rmult_le_compat_r; lra.
  - repeat split; apply Rmult_le_compat_r; lra.
Qed.

Lemma sampleCascade_bounded (cascadeIndex : Z) (worldPosition worldNormal : float3)
      (bias : R) :
  (srgbBlending = true -> 0 <= dlo) ->
  some_corner_active data probesState cascadeIndex worldPosition ->
  channels_between
    (sampleCascade GetOctahedralCoords srgbBlending data
                   probesState probesDistance probesIrradiance
                   cascadeIndex worldPosition worldNormal bias)
    ((if srgbBlending then dlo * dlo else dlo) * (2 * PI))
    ((if srgbBlending then dhi * dhi else dhi) * (2 * PI)).
Proof.
  intros Hsrgb (i & Hi & Hactive). cbv zeta in Hactive.
  unfold sampleCascade. fold step.
  match goal with
  | |- channels_between
         (normalizeIrradiance _ (fold_left (step ?c ?wp ?n ?b ?base ?a) ?l ?z)) _ _ =>
      destruct (fold_bounded c wp n b base a l z) as (Hb & _ & Hgrow)
  end.
  { unfold bounded, channels_between; cbn [w xyz vx vy vz]. repeat split; lra. }
  cbv zeta in *.
  apply normalizeIrradiance_bounded; [exact Hb | | exact Hsrgb].
  cbn [w] in Hgrow.
  apply (Hgrow i); [| exact Hactive].
  cbn [In]. lia.
Qed.
End WeightedMean.

Section IrradianceBounds.
Local Open Scope R_scope.
Variable GetOctahedralCoords : float3 -> float2.
Variable srgbBlending : bool.
Variable data : DDGIData.
Variables probesState probesDistance probesIrradiance : Texture2D.

Lemma decoded_between (lo hi : R) :
  samples_between probesIrradiance lo hi ->
  (srgbBlending = true -> 0 <= lo /\ 0 <= IrradianceGamma data) ->
  forall cascadeIndex probeIndex worldNormal,
    channels_between
      (probeIrradianceOf GetOctahedralCoords srgbBlending data probesIrradiance
                         cascadeIndex probeIndex worldNormal)
      (if srgbBlending then pow lo (IrradianceGamma data * 0.5) else lo)
      (if srgbBlending then pow hi (IrradianceGamma data * 0.5) else hi).
Proof.
  intros Hsamples Hsrgb cascadeIndex probeIndex worldNormal.
  unfold probeIrradianceOf. cbv zeta.
  match goal with
  | |- context [SampleLevel probesIrradiance ?uv ?lod] =>
      destruct (Hsamples uv lod) as (Hx & Hy & Hz);
      set (colour := xyz (SampleLevel probesIrradiance uv lod)) in *
  end.
  unfold channels_between.
  destruct srgbBlending.
  - destruct (Hsrgb eq_refl) as [Hlo Hgamma].
    unfold map3; cbn [vx vy vz].
    assert (Hg : 0 <= IrradianceGamma data * 0.5) by lra.
    repeat split; apply pow_monotone; lra.
  - repeat split; lra.
Qed.

(** The blend never leaves the range of the atlas: when the irradiance
    atlas holds values between lo and hi in every channel and at least one
    of the eight enclosing probes of the selected cascade is active, every
    channel of the result lies between 2*pi*lo and 2*pi*hi with the
    blending switch off, and between 2*pi*pow(lo, gamma) and
    2*pi*pow(hi, gamma) with the switch on (lo >= 0, gamma >= 0).  Inactive
    probes do not pull the result towards black. *)
Theorem irradiance_between_samples
        (worldPosition worldNormal : float3) (bias dither lo hi : R) :
  samples_between probesIrradiance lo hi ->
  (srgbBlending = true -> 0 <= lo /\ 0 <= IrradianceGamma data) ->
  selectCascade data worldPosition dither <> CascadesCount data ->
  some_corner_active data probesState (selectCascade data worldPosition dither)
                     worldPosition ->
  channels_between
    (SampleDDGIIrradiance GetOctahedralCoords srgbBlending data
                          probesState probesDistance probesIrradiance
                          worldPosition worldNormal bias dither)
    (gammaCurve srgbBlending data lo * (2 * PI))
    (gammaCurve srgbBlending data hi * (2 * PI)).
Proof.
  intros Hsamples Hsrgb Hsel Hactive.
  unfold SampleDDGIIrradiance.
  destruct (Z.eqb_spec (selectCascade data worldPosition dither) (CascadesCount data))
    as [Heq | _]; [contradiction |].
  pose proof (sampleCascade_bounded GetOctahedralCoords srgbBlending data
                probesState probesDistance probesIrradiance _ _
                (decoded_between lo hi Hsamples Hsrgb)
                (selectCascade data worldPosition dither)
                worldPosition worldNormal bias) as Hbound.
  unfold gammaCurve.
  destruct srgbBlending.
  - rewrite !pow_half_twice in Hbound.
    apply Hbound; [| exact Hactive].
    intros _. apply pow_nonneg.
  - apply Hbound; [| exact Hactive]. discriminate.
Qed.

End IrradianceBounds.

Section IrradianceBoundsWitness.
Local Open Scope R_scope.

Lemma irradiance_between_samples_witness :
  channels_between
    (SampleDDGIIrradiance octahedralOrigin true demoData
                          activeState unoccluded greyIrradiance
                          centre upNormal 0.5 0)
    (gammaCurve true demoData 1 * (2 * PI))
    (gammaCurve true demoData 3 * (2 * PI)).
Proof.
  apply (irradiance_between_samples octahedralOrigin true demoData
           activeState unoccluded greyIrradiance centre upNormal 0.5 0 1 3).
  - intros uv lod. cbn. repeat split; lra.
  - intros _. cbn. split; lra.
  - unfold centre.
    rewrite (scenario_selects_first demoData 0 demoData_scenario) by lra.
    simpl. discriminate.
  - exists 0%Z. split; [lia |]. cbv zeta. cbn [Load activeState uniformTexture w].
    unfold DDGI_PROBE_STATE_ACTIVE, DDGI_PROBE_STATE_INACTIVE. lra.
Defined.
End IrradianceBoundsWitness.

(** ** The loaders and the sampling loop *)

Section Loaders.
Local Open Scope R_scope.

Lemma probeBasePosition_direct (data : DDGIData) (cascadeIndex : Z) (base : uint3) (i : Z) :
  positive_counts (ProbesCounts data) ->
  coords_in_grid (ProbesCounts data) base ->
  (0 <= i < 8)%Z ->
  probeBasePosition data cascadeIndex base (cornerProbeCoords data base i)
  = GetDDGIProbeWorldPosition data cascadeIndex (cornerProbeCoords data base i).
Proof.
  intros Hpos Hbase Hi.
  destruct (probeCoordsOffset_bits i Hi) as (Hox & Hoy & Hoz).
  destruct Hpos as (Hx & Hy & Hz). destruct Hbase as (Hbx & Hby & Hbz).
  destruct (corner_component _ _ _ Hx Hbx Hox) as [_ Hdx].
  destruct (corner_component _ _ _ Hy Hby Hoy) as [_ Hdy].
  destruct (corner_component _ _ _ Hz Hbz Hoz) as [_ Hdz].
  unfold probeBasePosition, GetDDGIProbeWorldPosition, cornerProbeCoords, clampToGrid,
    probesSpacing.
  unfold add3, sub3, scale3, scale3l, float3_of, zip3, map3; cbn [vx vy vz].
  rewrite Hdx, Hdy, Hdz.
  f_equal; ring.
Qed.

(** The sampling loop and the loader functions agree: for a corner probe
    of the loop, LoadDDGIProbePositionAndState returns in xyz the position
    the loop computes (its base position plus the stored relocation) and in
    w the state the loop tests, which is also what LoadDDGIProbeState
    returns. *)
Theorem loaders_agree_with_sampling_loop (data : DDGIData) (probesState : Texture2D)
        (cascadeIndex : Z) (base : uint3) (i : Z) :
  positive_counts (ProbesCounts data) ->
  coords_in_grid (ProbesCounts data) base ->
  (0 <= i < 8)%Z ->
  let probeCoords := cornerProbeCoords data base i in
  let probeIndex := GetDDGIScrollingProbeIndex data cascadeIndex probeCoords in
  let probeState := Load probesState (probeDataCoords data cascadeIndex probeIndex) in
  let loaded := LoadDDGIProbePositionAndState data probesState cascadeIndex probeIndex
                                              probeCoords in
  xyz loaded = add3 (probeBasePosition data cascadeIndex base probeCoords) (xyz probeState) /\
  w loaded = w probeState /\
  LoadDDGIProbeState data probesState cascadeIndex probeIndex = w probeState.
Proof.
  intros Hpos Hbase Hi. cbv zeta.
  unfold LoadDDGIProbePositionAndState, LoadDDGIProbeState; cbn [xyz w].
  rewrite probeBasePosition_direct by assumption.
  repeat split.
  unfold add3, zip3. f_equal; ring.
Qed.

Lemma loaders_agree_with_sampling_loop_witness :
  let probeCoords := cornerProbeCoords demoData (Vec3 0 0 0)%Z 5 in
  let probeIndex := GetDDGIScrollingProbeIndex demoData 0 probeCoords in
  let probeState := Load activeState (probeDataCoords demoData 0 probeIndex) in
  let loaded := LoadDDGIProbePositionAndState demoData activeState 0 probeIndex
                                              probeCoords in
  xyz loaded = add3 (probeBasePosition demoData 0 (Vec3 0 0 0)%Z probeCoords)
                    (xyz probeState) /\
  w loaded = w probeState /\
  LoadDDGIProbeState demoData activeState 0 probeIndex = w probeState.
Proof.
  apply (loaders_agree_with_sampling_loop demoData activeState 0 (Vec3 0 0 0)%Z 5).
  - exact demoData_positive.
  - unfold coords_in_grid; simpl; lia.
  - lia.
Defined.
End Loaders.

(** ** The shape of the weight curve *)

Section WeightCurve.
Local Open Scope R_scope.

(** The floor and the low-weight curve form a monotone map that never
    raises a weight above the floored weight and leaves every weight of at
    least 0.2 unchanged; below 0.2 it is the cubic 25 w^3, which meets the
    identity at 0.2. *)
Theorem adjustWeight_monotone (w1 w2 : R) :
  w1 <= w2 ->
  adjustWeight w1 <= adjustWeight w2 /\
  adjustWeight w1 <= Rmax w1 0.000001 /\
  (0.2 <= w1 -> adjustWeight w1 = w1) /\
  (0.000001 <= w1 < 0.2 -> adjustWeight w1 = 25 * (w1 * w1 * w1)).
Proof.
  intros Hle. unfold adjustWeight, Square.
  assert (Hinv : 1 / (0.2 * 0.2) = 25) by lra.
  rewrite !Hinv.
  pose proof (Rmax_r w1 0.000001) as Hf1.
  pose proof (Rmax_r w2 0.000001) as Hf2.
  assert (Hmax : Rmax w1 0.000001 <= Rmax w2 0.000001).
  { apply Rmax_lub; [| exact Hf2].
    eapply Rle_trans; [exact Hle | apply Rmax_l]. }
  assert (Hid : 0.000001 <= w1 -> Rmax w1 0.000001 = w1)
    by (intros; apply Rmax_left; lra).
  set (v1 := Rmax w1 0.000001) in *. set (v2 := Rmax w2 0.000001) in *.
  assert (Hcube : forall v, 0 < v < 0.2 -> v * (v * v * 25) < v).
  { intros v Hv. assert (v * v < 0.04) by nra. nra. }
  repeat split.
  - destruct (Rlt_dec v1 0.2) as [H1 | H1]; destruct (Rlt_dec v2 0.2) as [H2 | H2].
    + assert (v1 * v1 <= v2 * v2) by nra.
      assert (v1 * (v1 * v1) <= v2 * (v2 * v2)) by nra.
      lra.
    + pose proof (Hcube v1 ltac:(lra)). lra.
    + lra.
    + exact Hmax.
  - destruct (Rlt_dec v1 0.2) as [H1 | H1]; [| lra].
    pose proof (Hcube v1 ltac:(lra)). lra.
  - intros Hbig. rewrite Hid in * by lra.
    destruct (Rlt_dec w1 0.2); lra.
  - intros Hsmall. rewrite Hid in * by lra.
    destruct (Rlt_dec w1 0.2); lra.
Qed.

Lemma adjustWeight_monotone_witness :
  adjustWeight 0.1 <= adjustWeight 0.5 /\
  adjustWeight 0.1 <= Rmax 0.1 0.000001 /\
  (0.2 <= 0.1 -> adjustWeight 0.1 = 0.1) /\
  (0.000001 <= 0.1 < 0.2 -> adjustWeight 0.1 = 25 * (0.1 * 0.1 * 0.1)).
Proof. apply (adjustWeight_monotone 0.1 0.5). lra. Defined.

(** The visibility test only lowers a weight and never removes more than
    95 percent of it: for a nonnegative weight the result lies between
    0.05 * weight and weight, whatever the stored moments and the distance
    are. *)
Theorem visibility_keeps_five_percent (weight d : R) (sampled : float4) :
  0 <= weight ->
  0.05 * weight <= visibilityWeight weight d sampled <= weight.
Proof.
  intros Hw.
  destruct (visibilityWeight_cases weight d sampled) as [Hgt Hle].
  destruct (Rgt_dec d (2 * vx (xyz sampled))) as [H | H].
  - rewrite Hgt by exact H.
    destruct (visibilityFactor_bounds (vx (xyz sampled)) (vy (xyz sampled)) d) as [Hlo Hhi].
    specialize (Hhi H). nra.
  - rewrite Hle by lra. lra.
Qed.

Lemma visibility_keeps_five_percent_witness :
  0.05 * 0.5 <= visibilityWeight 0.5 300 (Vec4 (Vec3 100 10000 0) 0) <= 0.5.
Proof. apply (visibility_keeps_five_percent 0.5 300). lra. Defined.

Lemma lerp_at_zero (a b : R) : lerp a b (IZR 0) = a.
Proof. unfold lerp. simpl. ring. Qed.

Lemma lerp_at_one (a b : R) : lerp a b (IZR 1) = b.
Proof. unfold lerp. simpl. ring. Qed.

Lemma floor_bounds (q : R) : 0 <= q -> q <= Rmax q 0.001 <= q + 0.001.
Proof.
  intros Hq. split; [apply Rmax_l |]. apply Rmax_lub; lra.
Qed.

(** The trilinear factors of the eight corners form a partition of unity
    up to the floor of 0.001 each: for biasAlpha in [0,1]^3 their sum lies
    between 1 and 1.008. *)
Theorem trilinear_weights_sum (biasAlpha : float3) :
  0 <= vx biasAlpha <= 1 -> 0 <= vy biasAlpha <= 1 -> 0 <= vz biasAlpha <= 1 ->
  1 <= trilinearSum biasAlpha <= 1.008.
Proof.
  intros Ha Hb Hc.
  unfold trilinearSum. cbn [fold_right].
  change (probeCoordsOffset 0) with (Vec3 0 0 0)%Z.
  change (probeCoordsOffset 1) with (Vec3 1 0 0)%Z.
  change (probeCoordsOffset 2) with (Vec3 0 1 0)%Z.
  change (probeCoordsOffset 3) with (Vec3 1 1 0)%Z.
  change (probeCoordsOffset 4) with (Vec3 0 0 1)%Z.
  change (probeCoordsOffset 5) with (Vec3 1 0 1)%Z.
  change (probeCoordsOffset 6) with (Vec3 0 1 1)%Z.
  change (probeCoordsOffset 7) with (Vec3 1 1 1)%Z.
  unfold trilinearWeight; cbn [vx vy vz].
  rewrite !lerp_at_zero, !lerp_at_one.
  set (a := vx biasAlpha) in *. set (b := vy biasAlpha) in *.
  set (c := vz biasAlpha) in *.
  assert (Hab00 : 0 <= (1 - a) * (1 - b)) by nra.
  assert (Hab10 : 0 <= a * (1 - b)) by nra.
  assert (Hab01 : 0 <= (1 - a) * b) by nra.
  assert (Hab11 : 0 <= a * b) by nra.
  pose proof (floor_bounds ((1 - a) * (1 - b) * (1 - c)) ltac:(nra)) as H0.
  pose proof (floor_bounds (a * (1 - b) * (1 - c)) ltac:(nra)) as H1.
  pose proof (floor_bounds ((1 - a) * b * (1 - c)) ltac:(nra)) as H2.
  pose proof (floor_bounds (a * b * (1 - c)) ltac:(nra)) as H3.
  pose proof (floor_bounds ((1 - a) * (1 - b) * c) ltac:(nra)) as H4.
  pose proof (floor_bounds (a * (1 - b) * c) ltac:(nra)) as H5.
  pose proof (floor_bounds ((1 - a) * b * c) ltac:(nra)) as H6.
  pose proof (floor_bounds (a * b * c) ltac:(nra)) as H7.
  assert (Hsum : (1 - a) * (1 - b) * (1 - c) + a * (1 - b) * (1 - c)
                 + (1 - a) * b * (1 - c) + a * b * (1 - c)
                 + (1 - a) * (1 - b) * c + a * (1 - b) * c
                 + (1 - a) * b * c + a * b * c = 1) by ring.
  lra.
Qed.

Lemma trilinear_weights_sum_witness :
  1 <= trilinearSum (Vec3 0.5 0 1) <= 1.008.
Proof.
  apply (trilinear_weights_sum (Vec3 0.5 0 1)); cbn [vx vy vz]; lra.
Defined.
End WeightCurve.

(** ** Sampling coordinates *)

Section UnitSquare.
Local Open Scope R_scope.

Lemma uv_axis (c n r o : R) :
  0 <= c <= n - 1 -> 6 <= r -> -1 <= o <= 1 ->
  0 < (c * (r + 2) + (r + 2) * 0.5 + o * (r * 0.5)) / (n * (r + 2)) < 1.
Proof.
  intros Hc Hr Ho.
  assert (Hn : 0 < n * (r + 2)) by nra.
  assert (Hlo : 0 < c * (r + 2) + (r + 2) * 0.5 + o * (r * 0.5)) by nra.
  assert (Hhi : c * (r + 2) + (r + 2) * 0.5 + o * (r * 0.5) < n * (r + 2)) by nra.
  split.
  - now apply Rdiv_lt_0_compat.
  - apply Rmult_lt_reg_r with (n * (r + 2)); [exact Hn |].
    unfold Rdiv. rewrite Rmult_assoc, Rinv_l by lra. lra.
Qed.

(** The UV of GetDDGIProbeUV is a point of the open unit square: for a
    probe of the volume, resolution 6 or 14 and an octahedral coordinate in
    [-1,1]^2 both components lie strictly between 0 and 1, so the clamped
    sampler never has to clamp. *)
Theorem probe_uv_in_unit_square (data : DDGIData) (cascadeIndex probeIndex : Z)
        (octahedralCoords : float2) (resolution : Z) :
  positive_counts (ProbesCounts data) ->
  (0 <= cascadeIndex < CascadesCount data)%Z ->
  (probes_total (ProbesCounts data) * CascadesCount data < UInt.modulus)%Z ->
  (0 <= probeIndex < probes_total (ProbesCounts data))%Z ->
  resolution = DDGI_PROBE_RESOLUTION_IRRADIANCE \/
  resolution = DDGI_PROBE_RESOLUTION_DISTANCE ->
  -1 <= px octahedralCoords <= 1 ->
  -1 <= py octahedralCoords <= 1 ->
  let uv := GetDDGIProbeUV data cascadeIndex probeIndex octahedralCoords resolution in
  0 < px uv < 1 /\ 0 < py uv < 1.
Proof.
  intros Hpos Hcascade Htot Hindex Hres Hox Hoy. cbv zeta.
  destruct (atlas_dimensions data Hpos ltac:(lia) Htot) as (Hmx & Hmy & Hsx & Hsy).
  pose proof (texel_coords_in_atlas data cascadeIndex probeIndex
                Hpos Hcascade Htot Hindex) as Hatlas.
  cbv zeta in Hatlas. destruct Hatlas as [Hcx Hcy].
  assert (Hr : 6 <= IZR resolution).
  { destruct Hres as [-> | ->];
      unfold DDGI_PROBE_RESOLUTION_IRRADIANCE, DDGI_PROBE_RESOLUTION_DISTANCE; lra. }
  unfold GetDDGIProbeUV, atlasPixelSize; cbn [px py].
  rewrite Hmx, Hmy.
  split; apply uv_axis; try assumption.
  - split; [apply IZR_le; lia |].
    rewrite <- minus_IZR. apply IZR_le. lia.
  - split; [apply IZR_le; lia |].
    rewrite <- minus_IZR. apply IZR_le. lia.
Qed.

Lemma probe_uv_in_unit_square_witness :
  let uv := GetDDGIProbeUV demoData 0 5 (Vec2 (-1) 1) 14 in
  0 < px uv < 1 /\ 0 < py uv < 1.
Proof.
  apply (probe_uv_in_unit_square demoData 0 5 (Vec2 (-1) 1) 14).
  - exact demoData_positive.
  - simpl; lia.
  - unfold probes_total, UInt.modulus; simpl; lia.
  - unfold probes_total; simpl; lia.
  - right. reflexivity.
  - cbn [px]; lra.
  - cbn [py]; lra.
Defined.
End UnitSquare.

(** * Null-terminated strings *)

Section StringCompare.
Local Open Scope Z_scope.
Import StringUtils.

Lemma cstring_nil_iff (t : list Z) : cstring t = [] <-> hd 0 t = 0.
Proof.
  destruct t as [| c t']; cbn [cstring hd].
  - tauto.
  - destruct (Z.eqb_spec c 0); split; intros H; congruence.
Qed.

Lemma Compare_zero_iff_aux (s : list Z) :
  forall t, Compare s t = 0 <-> cstring s = cstring t.
Proof.
  induction s as [| c r IH]; intros t.
  - cbn [Compare cstring deref hd].
    pose proof (cstring_nil_iff t) as Hnil.
    unfold deref.
    split; intros H.
    + symmetry. apply Hnil. lia.
    + symmetry in H. apply Hnil in H. lia.
  - cbn [Compare cstring deref hd].
    destruct t as [| d t']; cbn [deref hd tl cstring].
    + destruct (Z.eqb_spec c 0) as [-> | Hc].
      * cbn. tauto.
      * change (0 =? 0) with true. cbn [negb]. rewrite andb_false_r.
        split; [lia | discriminate].
    + destruct (Z.eqb_spec (c - d) 0) as [Hcd | Hcd];
        destruct (Z.eqb_spec c 0) as [Hc | Hc];
        destruct (Z.eqb_spec d 0) as [Hd | Hd]; cbn [andb negb];
        try (split; intros H;
             first [ lia | reflexivity | discriminate H | injection H; intros; lia ]).
      assert (c = d) by lia. subst d. rewrite IH. split; intros H; congruence.
Qed.

(** Compare returns 0 exactly when the two strings are equal up to their
    terminators. *)
Theorem Compare_zero_iff_equal (s t : list Z) :
  Compare s t = 0 <-> cstring s = cstring t.
Proof. apply Compare_zero_iff_aux. Qed.

(** Compare is antisymmetric: exchanging the arguments negates the result,
    so the sign of the result orders the strings consistently. *)
Theorem Compare_antisymmetric (s : list Z) :
  forall t, Compare t s = - Compare s t.
Proof.
  induction s as [| c r IH]; intros t.
  - destruct t as [| d t']; cbn [Compare deref hd tl]; [lia |].
    rewrite andb_false_r. lia.
  - destruct t as [| d t']; cbn [Compare deref hd tl].
    + rewrite andb_false_r. lia.
    + destruct (Z.eqb_spec (c - d) 0) as [Hcd | Hcd];
        destruct (Z.eqb_spec (d - c) 0) as [Hdc | Hdc]; try lia;
        destruct (Z.eqb_spec c 0) as [Hc | Hc];
        destruct (Z.eqb_spec d 0) as [Hd | Hd]; cbn [andb negb]; try lia.
      apply IH.
Qed.
End StringCompare.

Section StringCompareCount.
Local Open Scope Z_scope.
Import StringUtils.

Lemma firstn_pos_nil_iff (n : nat) (l : list Z) : (0 < n)%nat -> firstn n l = [] <-> l = [].
Proof.
  intros Hn. destruct n; [lia |]. destruct l; cbn; split; congruence.
Qed.

Lemma to_nat_succ (m : Z) : 1 <= m -> Z.to_nat m = S (Z.to_nat (m - 1)).
Proof. intros Hm. lia. Qed.

Lemma CompareLoop_zero_iff (s : list Z) :
  forall t m, 1 <= m ->
    CompareLoop s t m = 0
    <-> firstn (Z.to_nat m) (cstring s) = firstn (Z.to_nat m) (cstring t).
Proof.
  induction s as [| c r IH]; intros t m Hm.
  - cbn [CompareLoop cstring]. unfold deref. cbn [hd].
    rewrite firstn_nil.
    pose proof (cstring_nil_iff t) as Hnil.
    pose proof (firstn_pos_nil_iff (Z.to_nat m) (cstring t) ltac:(lia)) as Hfirst.
    split; intros H.
    + symmetry. apply Hfirst, Hnil. lia.
    + symmetry in H. apply Hfirst, Hnil in H. lia.
  - rewrite (to_nat_succ m Hm).
    cbn [CompareLoop cstring]. unfold deref. cbn [hd tl].
    destruct t as [| d t']; cbn [hd tl cstring].
    + change (0 =? 0) with true. cbn [negb]. rewrite andb_false_r, andb_false_l.
      destruct (Z.eqb_spec c 0) as [-> | Hc]; cbn [firstn].
      * split; [reflexivity | lia].
      * split; [lia | discriminate].
    + destruct (Z.eqb_spec (c - d) 0) as [Hcd | Hcd];
        destruct (Z.eqb_spec c 0) as [Hc | Hc];
        destruct (Z.eqb_spec d 0) as [Hd | Hd]; cbn [andb negb firstn];
        try (split; intros H;
             first [ lia | reflexivity | discriminate H | injection H; intros; lia ]).
      assert (c = d) by lia. subst d.
      destruct (Z.eqb_spec (m - 1) 0) as [Hlast | Hmore]; cbn [negb].
      * rewrite Hlast. cbn [Z.to_nat firstn]. split; [reflexivity | lia].
      * rewrite (IH t' (m - 1)) by lia.
        split; intros H; [f_equal; exact H | injection H; tauto].
Qed.

(** The counted Compare looks at no more than maxCount characters: for
    maxCount >= 0 it returns 0 exactly when the first maxCount characters
    of the two strings (fewer where a string ends earlier) are equal; with
    maxCount = 0 it returns 0 for every pair of strings. *)
Theorem CompareMaxCount_zero_iff_prefix_equal (s t : list Z) (maxCount : Z) :
  0 <= maxCount ->
  CompareMaxCount s t maxCount = 0
  <-> firstn (Z.to_nat maxCount) (cstring s) = firstn (Z.to_nat maxCount) (cstring t).
Proof.
  intros Hm. unfold CompareMaxCount.
  destruct (Z.eqb_spec maxCount 0) as [-> | Hne].
  - cbn [Z.to_nat firstn]. tauto.
  - apply CompareLoop_zero_iff. lia.
Qed.

Lemma CompareMaxCount_zero_iff_prefix_equal_witness :
  CompareMaxCount [104; 105; 33] [104; 105; 63] 2 = 0
  <-> firstn (Z.to_nat 2) (cstring [104; 105; 33])
      = firstn (Z.to_nat 2) (cstring [104; 105; 63]).
Proof. apply (CompareMaxCount_zero_iff_prefix_equal [104; 105; 33] [104; 105; 63] 2). lia. Defined.
End StringCompareCount.

Section StringCopy.
Local Open Scope Z_scope.
Import StringUtils.

Lemma LengthLoop_cstring (s : list Z) : LengthLoop s = Z.of_nat (List.length (cstring s)).
Proof.
  induction s as [| c r IH]; cbn [LengthLoop cstring List.length]; [reflexivity |].
  destruct (Z.eqb_spec c 0); cbn [List.length]; lia.
Qed.

Lemma Copy_cstring (src : list Z) : Copy src = cstring src ++ [0].
Proof.
  induction src as [| c r IH]; cbn [Copy cstring app]; [reflexivity |].
  destruct (Z.eqb_spec c 0) as [-> | Hc]; cbn [app]; [reflexivity |].
  now rewrite IH.
Qed.

Lemma cstring_app_terminator (s : list Z) : cstring (cstring s ++ [0]) = cstring s.
Proof.
  induction s as [| c r IH]; cbn [cstring app]; [reflexivity |].
  destruct (Z.eqb_spec c 0) as [-> | Hc]; cbn [cstring app]; [reflexivity |].
  destruct (Z.eqb_spec c 0); [contradiction |]. now rewrite IH.
Qed.

(** Copy writes the characters of the source followed by one terminator
    and nothing else, so the copy has the length of the source and compares
    equal to it. *)
Theorem Copy_round_trip (src : list Z) :
  Copy src = cstring src ++ [0] /\
  Length (Some (Copy src)) = Length (Some src) /\
  Compare (Copy src) src = 0.
Proof.
  split; [apply Copy_cstring |].
  split.
  - cbn [Length]. rewrite !LengthLoop_cstring, Copy_cstring, cstring_app_terminator.
    reflexivity.
  - apply Compare_zero_iff_aux. rewrite Copy_cstring. apply cstring_app_terminator.
Qed.
End StringCopy.

Section StringCopyCount.
Local Open Scope Z_scope.
Import StringUtils.

Lemma to_char_ascii (c : Z) : 0 <= c < 128 -> to_char c = c /\ of_char (to_char c) = c.
Proof.
  intros Hc. unfold to_char, of_char.
  rewrite (Z.mod_small c 256) by lia.
  destruct (Z.ltb_spec c 128); [| lia].
  split; [reflexivity | apply Z.mod_small; lia].
Qed.

Lemma to_char_low_byte_zero (c : Z) : c mod 256 = 0 -> to_char c = 0.
Proof. intros Hc. unfold to_char. rewrite Hc. reflexivity. Qed.

Lemma CopyLoop_length (src : list Z) :
  forall count, 0 <= count -> Z.of_nat (List.length (CopyLoop src count)) <= count.
Proof.
  induction src as [| c r IH]; intros count Hcount.
  - cbn [CopyLoop]. destruct (Z.eqb_spec count 0); cbn [List.length]; [lia |].
    unfold deref; cbn [hd]. change (to_char 0) with 0.
    cbn [Z.eqb List.length]. lia.
  - cbn [CopyLoop]. destruct (Z.eqb_spec count 0); cbn [List.length]; [lia |].
    destruct (to_char (deref (c :: r)) =? 0); cbn [List.length]; [lia |].
    specialize (IH (count - 1) ltac:(lia)). lia.
Qed.

Lemma LengthLoop_le_length (s : list Z) : LengthLoop s <= Z.of_nat (List.length s).
Proof.
  induction s as [| c r IH]; cbn [LengthLoop List.length]; [lia |].
  destruct (c =? 0); lia.
Qed.

Lemma LengthLoop_app_terminator (s : list Z) :
  LengthLoop (s ++ [0]) <= Z.of_nat (List.length s).
Proof.
  induction s as [| c r IH]; cbn [LengthLoop List.length app]; [cbn; lia |].
  destruct (c =? 0); lia.
Qed.

Lemma CopyLoop_ascii (src : list Z) :
  forall count, 0 <= count -> ascii_only (cstring src) ->
    cstring (CopyLoop src count ++ [0]) = firstn (Z.to_nat count) (cstring src).
Proof.
  induction src as [| c r IH]; intros count Hcount Hascii.
  - cbn [CopyLoop cstring]. rewrite firstn_nil.
    destruct (Z.eqb_spec count 0); [reflexivity |].
    unfold deref; cbn [hd]. change (to_char 0) with 0. reflexivity.
  - cbn [CopyLoop]. destruct (Z.eqb_spec count 0) as [-> | Hne].
    { cbn [Z.to_nat firstn app cstring Z.eqb]. reflexivity. }
    rewrite (to_nat_succ count) by lia.
    unfold deref; cbn [hd]. cbn [cstring] in *.
    destruct (Z.eqb_spec c 0) as [-> | Hc].
    + change (to_char 0) with 0. cbn. reflexivity.
    + inversion Hascii as [| c' rest Hc' Hrest]; subst.
      destruct (to_char_ascii c ltac:(lia)) as [Hto Hof].
      rewrite Hof, Hto.
      destruct (Z.eqb_spec c 0); [contradiction |].
      cbn [app cstring firstn].
      destruct (Z.eqb_spec c 0); [contradiction |].
      f_equal. apply IH; [lia | exact Hrest].
Qed.

(** The counted Copy never writes more than count + 1 characters, always
    ends its output with a terminator, and leaves a string of at most count
    characters; for a source of 7-bit characters that string is the first
    count characters of the source. *)
Theorem CopyCount_bounded_and_terminated (src : list Z) (count : Z) :
  0 <= count ->
  Z.of_nat (List.length (CopyCount src count)) <= count + 1 /\
  last (CopyCount src count) 1 = 0 /\
  Length (Some (CopyCount src count)) <= count /\
  (ascii_only (cstring src) ->
   cstring (CopyCount src count) = firstn (Z.to_nat count) (cstring src)).
Proof.
  intros Hcount. unfold CopyCount.
  pose proof (CopyLoop_length src count Hcount) as Hlen.
  repeat split.
  - rewrite length_app. cbn [List.length]. lia.
  - apply last_last.
  - cbn [Length].
    pose proof (LengthLoop_app_terminator (CopyLoop src count)). lia.
  - intros Hascii. now apply CopyLoop_ascii.
Qed.

Lemma CopyCount_bounded_and_terminated_witness :
  Z.of_nat (List.length (CopyCount [104; 105; 33] 2)) <= 2 + 1 /\
  last (CopyCount [104; 105; 33] 2) 1 = 0 /\
  Length (Some (CopyCount [104; 105; 33] 2)) <= 2 /\
  (ascii_only (cstring [104; 105; 33]) ->
   cstring (CopyCount [104; 105; 33] 2) = firstn (Z.to_nat 2) (cstring [104; 105; 33])).
Proof. apply (CopyCount_bounded_and_terminated [104; 105; 33] 2). lia. Defined.

(** The counted Copy keeps each character in a narrow char: a character
    whose low byte is zero, such as 256, ends the copy like a terminator,
    and nothing of the source from that character on is copied. *)
Theorem CopyCount_stops_at_zero_low_byte (c : Z) (rest : list Z) (count : Z) :
  c mod 256 = 0 -> count <> 0 ->
  CopyCount (c :: rest) count = [0; 0].
Proof.
  intros Hc Hcount. unfold CopyCount. cbn [CopyLoop].
  destruct (Z.eqb_spec count 0); [contradiction |].
  unfold deref; cbn [hd]. rewrite (to_char_low_byte_zero c Hc).
  reflexivity.
Qed.

Lemma CopyCount_stops_at_zero_low_byte_witness :
  CopyCount (256 :: [104; 105]) 8 = [0; 0].
Proof. apply (CopyCount_stops_at_zero_low_byte 256 [104; 105] 8); [reflexivity | lia]. Defined.
End StringCopyCount.

Section StringFind.
Local Open Scope Z_scope.
Import StringUtils.

Lemma matchAt_prefix (str : list Z) :
  forall sub, zero_free str -> zero_free sub ->
    matchAt str sub = true <-> firstn (List.length sub) str = sub.
Proof.
  induction str as [| c str' IH]; intros sub Hstr Hsub.
  - cbn [matchAt]. unfold deref; cbn [hd andb negb Z.eqb].
    destruct sub as [| d sub']; cbn [hd List.length firstn].
    + split; reflexivity.
    + inversion Hsub; subst.
      destruct (Z.eqb_spec d 0); [contradiction |]. split; discriminate.
  - inversion Hstr as [| c' s' Hc Hstr']; subst.
    cbn [matchAt]. unfold deref; cbn [hd tl].
    destruct (Z.eqb_spec c 0); [contradiction |]. cbn [negb andb].
    destruct sub as [| d sub']; cbn [hd tl List.length firstn].
    + cbn. split; reflexivity.
    + inversion Hsub as [| d' s'' Hd Hsub']; subst.
      destruct (Z.eqb_spec d 0); [contradiction |]. cbn [negb andb].
      destruct (Z.eqb_spec c d) as [-> | Hne].
      * rewrite (IH sub' Hstr' Hsub'). split; intros H; [now f_equal | now injection H].
      * split; [discriminate | intros H; injection H; intros; contradiction].
Qed.

Lemma Find_spec (str : list Z) :
  forall sub, zero_free str -> zero_free sub ->
    match Find str sub with
    | Some k =>
        (k < List.length str)%nat /\ occurs_at str sub k /\
        forall j, (j < k)%nat -> ~ occurs_at str sub j
    | None => forall j, (j < List.length str)%nat -> ~ occurs_at str sub j
    end.
Proof.
  induction str as [| c str' IH]; intros sub Hstr Hsub.
  - cbn [Find List.length]. intros j Hj. lia.
  - inversion Hstr as [| c' s' Hc Hstr']; subst.
    cbn [Find]. destruct (Z.eqb_spec c 0); [contradiction |].
    pose proof (matchAt_prefix (c :: str') sub Hstr Hsub) as Hmatch.
    destruct (matchAt (c :: str') sub).
    + repeat split.
      * cbn [List.length]. lia.
      * unfold occurs_at. cbn [skipn]. now apply Hmatch.
      * intros j Hj. lia.
    + specialize (IH sub Hstr' Hsub).
      assert (Hhere : ~ occurs_at (c :: str') sub 0).
      { unfold occurs_at. cbn [skipn]. intros H. apply Hmatch in H. discriminate. }
      destruct (Find str' sub) as [k |]; cbn [option_map].
      * destruct IH as (Hk & Hocc & Hfirst).
        repeat split.
        -- cbn [List.length]. lia.
        -- exact Hocc.
        -- intros j Hj. destruct j as [| j']; [exact Hhere |].
           unfold occurs_at. cbn [skipn]. apply Hfirst. lia.
      * intros j Hj. destruct j as [| j']; [exact Hhere |].
        unfold occurs_at. cbn [skipn]. apply IH. cbn [List.length] in Hj. lia.
Qed.

(** Find returns the first occurrence: when it returns the offset k, the
    string toFind occurs in str at k and at no smaller offset; when it
    returns the null pointer, toFind occurs at no offset below the length
    of str. *)
Theorem Find_first_occurrence (str sub : list Z) :
  zero_free str -> zero_free sub ->
  (forall k, Find str sub = Some k ->
     (k < List.length str)%nat /\ occurs_at str sub k /\
     forall j, (j < k)%nat -> ~ occurs_at str sub j) /\
  (Find str sub = None ->
     forall j, (j < List.length str)%nat -> ~ occurs_at str sub j).
Proof.
  intros Hstr Hsub.
  pose proof (Find_spec str sub Hstr Hsub) as Hspec.
  split.
  - intros k Hk. rewrite Hk in Hspec. exact Hspec.
  - intros Hnone. rewrite Hnone in Hspec. exact Hspec.
Qed.

Lemma Find_first_occurrence_witness :
  (forall k, Find [97; 98; 97; 98; 99] [97; 98; 99] = Some k ->
     (k < List.length [97; 98; 97; 98; 99])%nat /\
     occurs_at [97; 98; 97; 98; 99] [97; 98; 99] k /\
     forall j, (j < k)%nat -> ~ occurs_at [97; 98; 97; 98; 99] [97; 98; 99] j) /\
  (Find [97; 98; 97; 98; 99] [97; 98; 99] = None ->
     forall j, (j < List.length [97; 98; 97; 98; 99])%nat ->
       ~ occurs_at [97; 98; 97; 98; 99] [97; 98; 99] j).
Proof.
  apply (Find_first_occurrence [97; 98; 97; 98; 99] [97; 98; 99]).
  - unfold zero_free. repeat constructor; lia.
  - unfold zero_free. repeat constructor; lia.
Defined.

(** Searching an empty string finds nothing, not even the empty string,
    for which strstr would return the string itself; in a string that is
    not empty the empty string is found at offset 0. *)
Theorem Find_empty_strings (c : Z) (rest sub : list Z) :
  Find [] sub = None /\ (c <> 0 -> Find (c :: rest) [] = Some O).
Proof.
  split; [reflexivity |].
  intros Hc. cbn [Find]. destruct (Z.eqb_spec c 0); [contradiction |].
  cbn [matchAt]. unfold deref; cbn [hd].
  rewrite andb_false_r. reflexivity.
Qed.
End StringFind.

Section StringFindWitness.
Local Open Scope Z_scope.
Import StringUtils.

Lemma Find_empty_strings_witness :
  Find [] [97] = None /\ (97 <> 0 -> Find (97 :: [98]) [] = Some O).
Proof. apply (Find_empty_strings 97 [98] [97]). Defined.
End StringFindWitness.
